(** * FLogFS: a shallow embedding of [flogfs.c] and its properties

    The development follows the C file top to bottom: the byte-level view of
    the sector buffers, the flash-driver interface the file calls into, the
    page cache, the inode iterator, [flogfs_init], [flogfs_format],
    [flogfs_mount] and [flogfs_open_read].  A small NAND simulation implements
    the driver interface so that the functions can be run on concrete media. *)

From Stdlib Require Import Strings.String.
From Stdlib Require Import ZArith List Lia Bool Sorting.Sorted.
From Stdlib Require Init.Byte.
Import ListNotations.
Local Open Scope Z_scope.

Definition byte : Type := Byte.byte.

(** ** Bytes, unsigned wrap-around and little-endian fields *)

Module Bytes.

Definition unsigned (b : byte) : Z := Z.of_N (Byte.to_N b).

Definition of_Z (z : Z) : byte :=
  match Byte.of_N (Z.to_N (z mod 256)) with
  | Some b => b
  | None => Byte.x00
  end.

(** NAND programming can only clear bits: the cell keeps the bitwise AND of
    what it held and what is written. *)
Definition band (old new : byte) : byte :=
  of_Z (Z.land (unsigned old) (unsigned new)).

(** [fit n l]: exactly [n] bytes, the first [n] of [l] (zero-padded when
    [l] is shorter).  Used wherever C transfers a fixed number of bytes. *)
Definition fit (n : nat) (l : list byte) : list byte :=
  firstn n (l ++ repeat Byte.x00 n).

(** Copy [data] to the start of a buffer (the destination of every
    [flash_read_sector] and [flash_read_spare] call is the start of a
    buffer). *)
Definition blit (data buf : list byte) : list byte :=
  data ++ skipn (length data) buf.

Fixpoint le_decode (bs : list byte) : Z :=
  match bs with
  | [] => 0
  | b :: r => unsigned b + 256 * le_decode r
  end.

Fixpoint le_encode (w : nat) (v : Z) : list byte :=
  match w with
  | O => []
  | S w' => of_Z v :: le_encode w' (v / 256)
  end.

End Bytes.
Import Bytes.

Definition wrap16 (z : Z) : Z := z mod 2 ^ 16.
Definition wrap32 (z : Z) : Z := z mod 2 ^ 32.

(** A struct member: byte offset and width inside its struct.  Members are
    read and written least significant byte first; no statement below
    depends on the byte order, since every value is stored and loaded through
    the same pair of functions. *)
Record field := mkField { f_off : nat; f_width : nat }.

Definition get_field (f : field) (buf : list byte) : Z :=
  le_decode (fit (f_width f) (skipn (f_off f) buf)).

Definition set_field (f : field) (v : Z) (buf : list byte) : list byte :=
  fit (f_off f) buf ++ le_encode (f_width f) v ++ skipn (f_off f + f_width f) buf.

Definition all_ones (w : nat) : Z := 2 ^ (8 * Z.of_nat w) - 1.

(** Two members that share no byte. *)
Definition disjoint (f g : field) : Prop :=
  (f_off f + f_width f <= f_off g \/ f_off g + f_width g <= f_off f)%nat.

(** ** Declarations of the headers [flogfs.h] and [flogfs_private.h] *)

(** Modelled from the spec: [flog_result_t] is declared in flogfs.h, which is
    not part of the sources.  The spec names the two outcomes; line 288 of
    flogfs.c ([if(!flash_open_page(i, 0))]) needs the failure value to be the
    one that is zero. *)
Inductive flog_result_t := FLOG_FAILURE | FLOG_SUCCESS.

Definition result_eqb (a b : flog_result_t) : bool :=
  match a, b with
  | FLOG_FAILURE, FLOG_FAILURE | FLOG_SUCCESS, FLOG_SUCCESS => true
  | _, _ => false
  end.

(** C truth value of a result: [!r] holds exactly for [FLOG_FAILURE]. *)
Definition result_is_zero (r : flog_result_t) : bool := result_eqb r FLOG_FAILURE.

Inductive flog_state_t := FLOG_STATE_RESET | FLOG_STATE_MOUNTED.

(** Modelled from the spec: the integer typedefs of flogfs_private.h.  The
    widths are the ones flogfs.c itself relies on: block indices travel
    through [uint16_t] parameters, timestamps and ages are compared with the
    literal [0xFFFFFFFF], and file ids are stored in the [uint32_t] field
    [max_file_id].  Sentinels are all-ones of that width. *)
Definition sizeof_block_idx : nat := 2.
Definition sizeof_block_age : nat := 4.
Definition sizeof_file_id : nat := 4.
Definition sizeof_timestamp : nat := 4.

Definition FLOG_BLOCK_IDX_INVALID : Z := all_ones sizeof_block_idx.
Definition FLOG_FILE_ID_INVALID : Z := all_ones sizeof_file_id.
Definition FLOG_TIMESTAMP_INVALID : Z := all_ones sizeof_timestamp.

(** The constants and struct layouts of the missing headers are parameters
    of the development. *)
Class Config := {
  FS_NUM_BLOCKS : Z;
  FS_PAGES_PER_BLOCK : Z;
  FS_SECTORS_PER_PAGE : Z;
  FLOG_MAX_FNAME_LEN : nat;
  FLOG_INODE_TAIL_SECTOR : Z;
  FLOG_INODE_INVALIDATION_SECTOR : Z;
  FLOG_FILE_TAIL_SECTOR : Z;
  FLOG_FILE_INVALIDATION_SECTOR : Z;
  FLOG_BLOCK_TYPE_UNALLOCATED : Z;
  FLOG_BLOCK_TYPE_INODE : Z;
  FLOG_BLOCK_TYPE_FILE : Z;
  (* flog_inode_sector0_t *)
  off_inode_sector0_age : nat;
  off_inode_sector0_timestamp : nat;
  sizeof_inode_sector0 : nat;
  (* flog_inode_sector0_spare_t *)
  inode_spare0_type_id : field;
  inode_spare0_inode_index : field;
  (* flog_file_sector_spare_t *)
  file_spare_type_id : field;
  file_spare_nothing : field;
  file_spare_nbytes : field;
  (* bytes moved by flash_read_spare and flash_write_spare *)
  sizeof_spare : nat;
  (* flog_file_sector0_header_t *)
  off_file_sector0_age : nat;
  off_file_sector0_file_id : nat;
  sizeof_file_sector0_header : nat;
  (* flog_file_tail_sector_header_t *)
  off_file_tail_next_block : nat;
  off_file_tail_next_age : nat;
  off_file_tail_timestamp : nat;
  sizeof_file_tail_sector_header : nat;
  (* flog_inode_file_allocation_header_t, the first member of
     flog_inode_file_allocation_t *)
  off_alloc_file_id : nat;
  off_alloc_first_block : nat;
  off_alloc_first_block_age : nat;
  off_alloc_timestamp : nat;
  sizeof_inode_file_allocation_header : nat;
  (* flog_inode_file_allocation_t *)
  off_alloc_filename : nat;
  sizeof_inode_file_allocation : nat;
  (* flog_inode_file_invalidation_t *)
  off_inval_timestamp : nat;
  off_inval_last_block : nat;
  sizeof_inode_file_invalidation : nat;
  (* flog_file_invalidation_sector_t *)
  off_file_inval_timestamp : nat;
  sizeof_file_invalidation_sector : nat
}.

Section Fields.
Context {cfg : Config}.

Definition inode_sector0_age := mkField off_inode_sector0_age sizeof_block_age.
Definition inode_sector0_timestamp := mkField off_inode_sector0_timestamp sizeof_timestamp.
Definition file_sector0_age := mkField off_file_sector0_age sizeof_block_age.
Definition file_sector0_file_id := mkField off_file_sector0_file_id sizeof_file_id.
Definition file_tail_next_block := mkField off_file_tail_next_block sizeof_block_idx.
Definition file_tail_next_age := mkField off_file_tail_next_age sizeof_block_age.
Definition file_tail_timestamp := mkField off_file_tail_timestamp sizeof_timestamp.
Definition alloc_file_id := mkField off_alloc_file_id sizeof_file_id.
Definition alloc_first_block := mkField off_alloc_first_block sizeof_block_idx.
Definition alloc_first_block_age := mkField off_alloc_first_block_age sizeof_block_age.
Definition alloc_timestamp := mkField off_alloc_timestamp sizeof_timestamp.
Definition inval_timestamp := mkField off_inval_timestamp sizeof_timestamp.
Definition inval_last_block := mkField off_inval_last_block sizeof_block_idx.
Definition file_inval_timestamp := mkField off_file_inval_timestamp sizeof_timestamp.

(** [flog_file_header_t] is declared in flogfs.c itself (lines 47-56):
    three [uint32_t] followed by [char filename[FLOG_MAX_FNAME_LEN]], the
    whole aligned to four bytes. *)
Definition sizeof_flog_file_header : nat :=
  (12 + 4 * ((FLOG_MAX_FNAME_LEN + 3) / 4))%nat.
End Fields.

(** ** The filesystem state (flogfs.c lines 5-26) *)

(** [read_head] and [write_head] are pointers that flogfs.c never follows;
    they are kept as addresses.  [lock] is the external [fs_lock_t]: [true]
    while held. *)
Record flogfs_t := mkFlogfs {
  read_head : Z;
  write_head : Z;
  max_file_id : Z;
  max_block_sequence : Z;
  first_age_table_block : Z;
  first_file_table_block : Z;
  state : flog_state_t;
  t : Z;
  inode0 : Z;
  num_files : Z;
  num_free_blocks : Z;
  current_open_block : Z;
  current_open_page : Z;
  page_open : Z;
  page_open_result : flog_result_t;
  lock : bool
}.

Definition set_max_file_id (v : Z) (s : flogfs_t) : flogfs_t :=
  mkFlogfs (read_head s) (write_head s) v (max_block_sequence s)
    (first_age_table_block s) (first_file_table_block s) (state s) (t s)
    (inode0 s) (num_files s) (num_free_blocks s) (current_open_block s)
    (current_open_page s) (page_open s) (page_open_result s) (lock s).

Definition set_max_block_sequence (v : Z) (s : flogfs_t) : flogfs_t :=
  mkFlogfs (read_head s) (write_head s) (max_file_id s) v
    (first_age_table_block s) (first_file_table_block s) (state s) (t s)
    (inode0 s) (num_files s) (num_free_blocks s) (current_open_block s)
    (current_open_page s) (page_open s) (page_open_result s) (lock s).

Definition set_state (v : flog_state_t) (s : flogfs_t) : flogfs_t :=
  mkFlogfs (read_head s) (write_head s) (max_file_id s) (max_block_sequence s)
    (first_age_table_block s) (first_file_table_block s) v (t s)
    (inode0 s) (num_files s) (num_free_blocks s) (current_open_block s)
    (current_open_page s) (page_open s) (page_open_result s) (lock s).

Definition set_t (v : Z) (s : flogfs_t) : flogfs_t :=
  mkFlogfs (read_head s) (write_head s) (max_file_id s) (max_block_sequence s)
    (first_age_table_block s) (first_file_table_block s) (state s) v
    (inode0 s) (num_files s) (num_free_blocks s) (current_open_block s)
    (current_open_page s) (page_open s) (page_open_result s) (lock s).

Definition set_page_open (v : Z) (s : flogfs_t) : flogfs_t :=
  mkFlogfs (read_head s) (write_head s) (max_file_id s) (max_block_sequence s)
    (first_age_table_block s) (first_file_table_block s) (state s) (t s)
    (inode0 s) (num_files s) (num_free_blocks s) (current_open_block s)
    (current_open_page s) v (page_open_result s) (lock s).

(** The four assignments of a cache miss in [flog_open_page] (lines 97-100). *)
Definition set_cache (r : flog_result_t) (block page : Z) (s : flogfs_t) : flogfs_t :=
  mkFlogfs (read_head s) (write_head s) (max_file_id s) (max_block_sequence s)
    (first_age_table_block s) (first_file_table_block s) (state s) (t s)
    (inode0 s) (num_files s) (num_free_blocks s) block page 1 r (lock s).

Definition set_lock (v : bool) (s : flogfs_t) : flogfs_t :=
  mkFlogfs (read_head s) (write_head s) (max_file_id s) (max_block_sequence s)
    (first_age_table_block s) (first_file_table_block s) (state s) (t s)
    (inode0 s) (num_files s) (num_free_blocks s) (current_open_block s)
    (current_open_page s) (page_open s) (page_open_result s) v.

(** ** The flash driver and the lock primitive (external) *)

(** The driver is consumed through the calls below; [F] is whatever state the
    driver and the medium have.  A read returns the bytes it copies to [dst];
    the wrappers [do_flash_read_sector] and [do_flash_read_spare] keep exactly
    the number of bytes the C call transfers. *)
Class FlashDriver (F : Type) := {
  flash_init : F -> flog_result_t * F;
  flash_lock : F -> F;
  flash_unlock : F -> F;
  flash_open_page : Z -> Z -> F -> flog_result_t * F;
  flash_close_page : F -> F;
  flash_block_is_bad : F -> bool;
  flash_erase_block : Z -> F -> flog_result_t * F;
  flash_read_sector : Z -> Z -> nat -> F -> list byte;
  flash_read_spare : Z -> F -> list byte;
  flash_write_sector : list byte -> Z -> Z -> F -> F;
  flash_write_spare : list byte -> Z -> F -> F;
  flash_commit : F -> F;
  flash_debug_warn : String.string -> F -> F;
  flash_debug_error : String.string -> F -> F
}.

(** Every call that leaves flogfs.c, in the order it is made. *)
Inductive call :=
| FlashInit
| FlashLock
| FlashUnlock
| FlashOpenPage (block page : Z)
| FlashClosePage
| FlashBlockIsBad
| FlashEraseBlock (block : Z)
| FlashReadSector (sector offset : Z) (n : nat)
| FlashReadSpare (sector : Z)
| FlashWriteSector (src : list byte) (sector offset : Z)
| FlashWriteSpare (src : list byte) (sector : Z)
| FlashCommit
| FlashDebugWarn (msg : String.string)
| FlashDebugError (msg : String.string)
| FsLock
| FsUnlock.

(** Calls that change the medium. *)
Definition is_write_call (c : call) : bool :=
  match c with
  | FlashEraseBlock _ | FlashWriteSector _ _ _ | FlashWriteSpare _ _ | FlashCommit => true
  | _ => false
  end.

(** Whether the flash lock is held after a sequence of calls. *)
Definition flash_lock_held (held : bool) (cs : list call) : bool :=
  fold_left (fun h c => match c with
                        | FlashLock => true
                        | FlashUnlock => false
                        | _ => h
                        end) cs held.

Section Flogfs.
Context {cfg : Config} {F : Type} {drv : FlashDriver F}.

(** The static [flogfs], the driver state and the calls made so far. *)
Record env := mkEnv { flogfs : flogfs_t; flash : F; calls : list call }.

Definition M (A : Type) : Type := env -> A * env.

Definition ret {A} (a : A) : M A := fun e => (a, e).
Definition bind {A B} (m : M A) (k : A -> M B) : M B :=
  fun e => let (a, e') := m e in k a e'.

Notation "x <- m ;; k" := (bind m (fun x => k))
  (at level 61, m at next level, right associativity).
Notation "m ;; k" := (bind m (fun _ => k))
  (at level 61, right associativity).

Definition get_fs : M flogfs_t := fun e => (flogfs e, e).
Definition modify_fs (f : flogfs_t -> flogfs_t) : M unit :=
  fun e => (tt, mkEnv (f (flogfs e)) (flash e) (calls e)).

(** A driver call that returns a value and may change the driver state. *)
Definition driver {A} (c : call) (op : F -> A * F) : M A :=
  fun e => let (a, f) := op (flash e) in
           (a, mkEnv (flogfs e) f (calls e ++ [c])).

Definition do_flash_init : M flog_result_t := driver FlashInit flash_init.
Definition do_flash_lock : M unit := driver FlashLock (fun f => (tt, flash_lock f)).
Definition do_flash_unlock : M unit := driver FlashUnlock (fun f => (tt, flash_unlock f)).
Definition do_flash_open_page (block page : Z) : M flog_result_t :=
  driver (FlashOpenPage block page) (flash_open_page block page).
Definition do_flash_close_page : M unit :=
  driver FlashClosePage (fun f => (tt, flash_close_page f)).
Definition do_flash_block_is_bad : M bool :=
  driver FlashBlockIsBad (fun f => (flash_block_is_bad f, f)).
Definition do_flash_erase_block (block : Z) : M flog_result_t :=
  driver (FlashEraseBlock block) (flash_erase_block block).
Definition do_flash_read_sector (sector offset : Z) (n : nat) : M (list byte) :=
  driver (FlashReadSector sector offset n)
         (fun f => (fit n (flash_read_sector sector offset n f), f)).
Definition do_flash_read_spare (sector : Z) : M (list byte) :=
  driver (FlashReadSpare sector)
         (fun f => (fit sizeof_spare (flash_read_spare sector f), f)).
Definition do_flash_write_sector (src : list byte) (sector offset : Z) : M unit :=
  driver (FlashWriteSector src sector offset)
         (fun f => (tt, flash_write_sector src sector offset f)).
Definition do_flash_write_spare (src : list byte) (sector : Z) : M unit :=
  driver (FlashWriteSpare src sector) (fun f => (tt, flash_write_spare src sector f)).
Definition do_flash_commit : M unit := driver FlashCommit (fun f => (tt, flash_commit f)).
Definition do_flash_debug_warn (msg : String.string) : M unit :=
  driver (FlashDebugWarn msg) (fun f => (tt, flash_debug_warn msg f)).
Definition do_flash_debug_error (msg : String.string) : M unit :=
  driver (FlashDebugError msg) (fun f => (tt, flash_debug_error msg f)).

(** [fs_lock(&flogfs.lock)] and [fs_unlock(&flogfs.lock)]. *)
Definition fs_lock : M unit :=
  fun e => (tt, mkEnv (set_lock true (flogfs e)) (flash e) (calls e ++ [FsLock])).
Definition fs_unlock : M unit :=
  fun e => (tt, mkEnv (set_lock false (flogfs e)) (flash e) (calls e ++ [FsUnlock])).

(** *** The page cache (lines 91-110) *)

Definition flog_open_page (block page : Z) : M flog_result_t :=
  fs <- get_fs ;;
  if negb (page_open fs =? 0)
     && (current_open_block fs =? block)
     && (current_open_page fs =? page)
  then ret (page_open_result fs)
  else
    r <- do_flash_open_page block page ;;
    modify_fs (set_cache r block page) ;;
    fs' <- get_fs ;;
    ret (page_open_result fs').

Definition flog_open_sector (block sector : Z) : M flog_result_t :=
  flog_open_page block (sector / FS_SECTORS_PER_PAGE).

Definition flog_close_sector : M unit := modify_fs (set_page_open 0).

(** *** The inode iterator (lines 28-33 and 113-133) *)

Record flog_inode_iterator_t := mkIter {
  iter_block : Z;
  iter_next_block : Z;
  iter_inode_idx : Z;
  iter_sector : Z
}.

(** [flash_read_sector((uint8_t * )&iter->next_block, FLOG_INODE_TAIL_SECTOR,
    0, sizeof(flog_block_idx_t))]: the bytes read become [next_block]. *)
Definition read_next_block : M Z :=
  d <- do_flash_read_sector FLOG_INODE_TAIL_SECTOR 0 sizeof_block_idx ;;
  ret (le_decode d).

Definition flog_inode_iterator_init (inode0 : Z) : M flog_inode_iterator_t :=
  flog_open_page inode0 0 ;;
  nb <- read_next_block ;;
  ret (mkIter inode0 nb 0 (wrap16 FS_SECTORS_PER_PAGE)).

Definition flog_inode_iterator_next (iter : flog_inode_iterator_t)
  : M flog_inode_iterator_t :=
  let sector := wrap16 (iter_sector iter + 2) in
  let inode_idx := wrap32 (iter_inode_idx iter + 1) in
  if sector >=? FS_PAGES_PER_BLOCK * FS_SECTORS_PER_PAGE then
    let block := iter_next_block iter in
    flog_open_page block 0 ;;
    nb <- read_next_block ;;
    ret (mkIter block nb inode_idx (wrap16 FS_SECTORS_PER_PAGE))
  else ret (mkIter (iter_block iter) (iter_next_block iter) inode_idx sector).

(** *** [flogfs_init] (lines 136-144) *)

Definition flogfs_init : M flog_result_t :=
  modify_fs (set_state FLOG_STATE_RESET) ;;
  modify_fs (set_max_file_id 0) ;;
  modify_fs (set_max_block_sequence 0) ;;
  modify_fs (set_page_open 0) ;;
  modify_fs (set_max_file_id 0) ;;
  do_flash_init.

(** *** [flogfs_format] (lines 146-183) *)

(** The erase loop, [n] blocks from block [i] on.  [Some r]: the function
    returned [r] from inside the loop. *)
Fixpoint format_erase_loop (n : nat) (i : Z) : M (option flog_result_t) :=
  match n with
  | O => ret None
  | S n' =>
      do_flash_open_page i 0 ;;
      bad <- do_flash_block_is_bad ;;
      if negb bad then
        r <- do_flash_erase_block i ;;
        if result_eqb FLOG_FAILURE r then
          fs_unlock ;;
          do_flash_unlock ;;
          ret (Some FLOG_FAILURE)
        else format_erase_loop n' (i + 1)
      else format_erase_loop n' (i + 1)
  end.

(** [buf] is the union of [main_buffer] and [spare_buffer]; it starts with
    whatever the stack holds. *)
Definition flogfs_format (buf : list byte) : M flog_result_t :=
  fs_lock ;;
  early <- format_erase_loop (Z.to_nat FS_NUM_BLOCKS) 0 ;;
  match early with
  | Some r => ret r
  | None =>
      do_flash_open_page 0 0 ;;
      let buf := set_field inode_sector0_age 0 buf in
      let buf := set_field inode_sector0_timestamp 0 buf in
      do_flash_write_sector (fit sizeof_inode_sector0 buf) 0 0 ;;
      let buf := set_field inode_spare0_inode_index 0 buf in
      let buf := set_field inode_spare0_type_id FLOG_BLOCK_TYPE_INODE buf in
      do_flash_write_spare (fit sizeof_spare buf) 0 ;;
      do_flash_commit ;;
      do_flash_close_page ;;
      fs_unlock ;;
      do_flash_unlock ;;
      ret FLOG_SUCCESS
  end.

(** *** [flogfs_mount] (lines 185-469) *)

Record last_allocation_t := mkLastAllocation {
  la_block : Z;
  la_age : Z;
  la_file_id : Z;
  la_timestamp : Z
}.

Record last_deletion_t := mkLastDeletion {
  ld_first_block : Z;
  ld_last_block : Z;
  ld_file_id : Z;
  ld_timestamp : Z
}.

(** The locals of [flogfs_mount] that are read somewhere.  ([buffer], [j],
    [page], [sector], [block], [done_scanning] and [min_age_block] are
    never read and are left out.)  The three unions are byte buffers:
    [sector0_buffer], [sector_buffer] and [spare_buffer]. *)
Record mount_locals := mkLocals {
  last_allocation : last_allocation_t;
  last_deletion : last_deletion_t;
  m_num_free_blocks : Z;
  inode0_idx : Z;
  max_block_age : Z;
  sector0_buffer : list byte;
  sector_buffer : list byte;
  spare_buffer : list byte
}.

Definition set_last_allocation v (L : mount_locals) :=
  mkLocals v (last_deletion L) (m_num_free_blocks L) (inode0_idx L)
    (max_block_age L) (sector0_buffer L) (sector_buffer L) (spare_buffer L).
Definition set_last_deletion v (L : mount_locals) :=
  mkLocals (last_allocation L) v (m_num_free_blocks L) (inode0_idx L)
    (max_block_age L) (sector0_buffer L) (sector_buffer L) (spare_buffer L).
Definition set_m_num_free_blocks v (L : mount_locals) :=
  mkLocals (last_allocation L) (last_deletion L) v (inode0_idx L)
    (max_block_age L) (sector0_buffer L) (sector_buffer L) (spare_buffer L).
Definition set_inode0_idx v (L : mount_locals) :=
  mkLocals (last_allocation L) (last_deletion L) (m_num_free_blocks L) v
    (max_block_age L) (sector0_buffer L) (sector_buffer L) (spare_buffer L).
Definition set_max_block_age v (L : mount_locals) :=
  mkLocals (last_allocation L) (last_deletion L) (m_num_free_blocks L)
    (inode0_idx L) v (sector0_buffer L) (sector_buffer L) (spare_buffer L).
Definition set_sector0_buffer v (L : mount_locals) :=
  mkLocals (last_allocation L) (last_deletion L) (m_num_free_blocks L)
    (inode0_idx L) (max_block_age L) v (sector_buffer L) (spare_buffer L).
Definition set_sector_buffer v (L : mount_locals) :=
  mkLocals (last_allocation L) (last_deletion L) (m_num_free_blocks L)
    (inode0_idx L) (max_block_age L) (sector0_buffer L) v (spare_buffer L).
Definition set_spare_buffer v (L : mount_locals) :=
  mkLocals (last_allocation L) (last_deletion L) (m_num_free_blocks L)
    (inode0_idx L) (max_block_age L) (sector0_buffer L) (sector_buffer L) v.

(** Lines 256-269.  [stack] is what the locals hold before they are
    initialised; the members that C leaves uninitialised keep it. *)
Definition mount_init_locals (stack : mount_locals) : mount_locals :=
  mkLocals
    (mkLastAllocation FLOG_BLOCK_IDX_INVALID
       (la_age (last_allocation stack)) (la_file_id (last_allocation stack)) 0)
    (mkLastDeletion (ld_first_block (last_deletion stack))
       (ld_last_block (last_deletion stack)) FLOG_FILE_ID_INVALID 0)
    0 FLOG_BLOCK_IDX_INVALID 0
    (sector0_buffer stack) (sector_buffer stack) (spare_buffer stack).

Definition update_max_block_age (age : Z) (L : mount_locals) : mount_locals :=
  if age >? max_block_age L then set_max_block_age age L else L.

(** The body of the census loop (lines 287-347) for block [i].  The case
    labels of the C [switch] are distinct constants, so testing them in
    sequence selects the same branch. *)
Definition mount_scan_block (i : Z) (L : mount_locals) : M mount_locals :=
  r <- do_flash_open_page i 0 ;;
  if result_is_zero r then ret L else
  bad <- do_flash_block_is_bad ;;
  if bad then ret L else
  sp <- do_flash_read_spare 0 ;;
  let L := set_spare_buffer (blit sp (spare_buffer L)) L in
  let type_id := get_field inode_spare0_type_id (spare_buffer L) in
  if type_id =? FLOG_BLOCK_TYPE_INODE then
    ts <- do_flash_read_sector FLOG_INODE_INVALIDATION_SECTOR 0 sizeof_timestamp ;;
    let timestamp_buffer := le_decode ts in
    d <- do_flash_read_sector 0 0 sizeof_inode_sector0 ;;
    let L := set_sector0_buffer (blit d (sector0_buffer L)) L in
    let L :=
      if timestamp_buffer =? 0xFFFFFFFF then
        if get_field inode_spare0_inode_index (spare_buffer L) =? 0
        then set_inode0_idx (wrap16 i) L
        else L
      else L in
    ret (update_max_block_age (get_field inode_sector0_age (sector0_buffer L)) L)
  else if type_id =? FLOG_BLOCK_TYPE_FILE then
    d <- do_flash_read_sector FLOG_FILE_TAIL_SECTOR 0 sizeof_file_tail_sector_header ;;
    let L := set_sector_buffer (blit d (sector_buffer L)) L in
    d0 <- do_flash_read_sector 0 0 sizeof_file_sector0_header ;;
    let L := set_sector0_buffer (blit d0 (sector0_buffer L)) L in
    let timestamp := get_field file_tail_timestamp (sector_buffer L) in
    let L :=
      if timestamp =? 0xFFFFFFFF then L
      else if timestamp >? la_timestamp (last_allocation L) then
        set_last_allocation
          (mkLastAllocation
             (get_field file_tail_next_block (sector_buffer L))
             (get_field file_tail_next_age (sector_buffer L))
             (get_field file_sector0_file_id (sector0_buffer L))
             timestamp) L
      else L in
    ret (update_max_block_age (get_field file_sector0_age (sector0_buffer L)) L)
  else if type_id =? FLOG_BLOCK_TYPE_UNALLOCATED then
    ret (set_m_num_free_blocks (wrap16 (m_num_free_blocks L + 1)) L)
  else ret L.

(** [for(i = 0; i < FS_NUM_BLOCKS; i++)]: [n] blocks from block [i] on. *)
Fixpoint mount_scan_blocks (n : nat) (i : Z) (L : mount_locals) : M mount_locals :=
  match n with
  | O => ret L
  | S n' =>
      L' <- mount_scan_block i L ;;
      mount_scan_blocks n' (i + 1) L'
  end.

(** What one visited inode entry does to the candidates (lines 383-415);
    [sector_buffer] holds the allocation record and [sector0_buffer] the
    invalidation record. *)
Definition mount_note_entry (L : mount_locals) : mount_locals :=
  let alloc := sector_buffer L in
  let inval := sector0_buffer L in
  if get_field inval_timestamp inval =? FLOG_TIMESTAMP_INVALID then
    if get_field alloc_timestamp alloc >? la_timestamp (last_allocation L) then
      set_last_allocation
        (mkLastAllocation (get_field alloc_first_block alloc)
           (get_field alloc_first_block_age alloc)
           (get_field alloc_file_id alloc)
           (get_field alloc_timestamp alloc)) L
    else L
  else
    if get_field inval_timestamp inval >? ld_timestamp (last_deletion L) then
      set_last_deletion
        (mkLastDeletion (get_field alloc_first_block alloc)
           (get_field inval_last_block inval)
           (get_field alloc_file_id alloc)
           (get_field inval_timestamp inval)) L
    else L.

(** The inode walk (lines 364-416).  The C loop has no bound; [fuel] is the
    number of entries the model is willing to visit, and [None] means it
    ran out before the end marker. *)
Fixpoint mount_inode_walk (fuel : nat) (iter : flog_inode_iterator_t)
         (L : mount_locals) : M (option mount_locals) :=
  match fuel with
  | O => ret None
  | S fuel' =>
      flog_open_sector (iter_block iter) (iter_sector iter) ;;
      d <- do_flash_read_sector (iter_sector iter) 0
             sizeof_inode_file_allocation_header ;;
      let L := set_sector_buffer (blit d (sector_buffer L)) L in
      if get_field alloc_file_id (sector_buffer L) =? FLOG_FILE_ID_INVALID
      then ret (Some L)
      else
        flog_open_sector (iter_block iter) (wrap16 (iter_sector iter + 1)) ;;
        d0 <- do_flash_read_sector (iter_sector iter + 1) 0
                sizeof_inode_file_invalidation ;;
        let L := set_sector0_buffer (blit d0 (sector0_buffer L)) L in
        modify_fs (set_max_file_id (get_field alloc_file_id (sector_buffer L))) ;;
        let L := mount_note_entry L in
        iter' <- flog_inode_iterator_next iter ;;
        mount_inode_walk fuel' iter' L
  end.

(** Lines 418-440: check and (maybe) clean the last allocation. *)
Definition mount_check_allocation (L : mount_locals) : M mount_locals :=
  let la := last_allocation L in
  if la_timestamp la >? 0 then
    flog_open_sector (la_block la) 0 ;;
    d <- do_flash_read_sector 0 0 sizeof_file_sector0_header ;;
    let L := set_sector0_buffer (blit d (sector0_buffer L)) L in
    if negb (get_field file_sector0_file_id (sector0_buffer L) =? la_file_id la) then
      do_flash_erase_block (la_block la) ;;
      flog_open_page (la_block la) 0 ;;
      let L := set_sector0_buffer
                 (set_field file_sector0_age (la_age la) (sector0_buffer L)) L in
      let L := set_sector0_buffer
                 (set_field file_sector0_file_id (la_file_id la) (sector0_buffer L)) L in
      do_flash_write_sector (fit sizeof_file_sector0_header (sector0_buffer L)) 0 0 ;;
      let L := set_spare_buffer (set_field file_spare_nbytes 0 (spare_buffer L)) L in
      let L := set_spare_buffer (set_field file_spare_nothing 0 (spare_buffer L)) L in
      let L := set_spare_buffer
                 (set_field file_spare_type_id FLOG_BLOCK_TYPE_FILE (spare_buffer L)) L in
      do_flash_write_spare (fit sizeof_spare (spare_buffer L)) 0 ;;
      do_flash_commit ;;
      modify_fs (set_t (wrap32 (la_timestamp la + 1))) ;;
      ret L
    else ret L
  else ret L.

(** The union that starts with [sector0_buffer] (lines 230-235) is as large
    as its largest member. *)
Definition sizeof_sector0_union : nat :=
  Nat.max 1 (Nat.max sizeof_file_sector0_header
               (Nat.max sizeof_inode_sector0 sizeof_inode_file_invalidation)).

(** Line 445 asks the driver for [sizeof(flog_file_header_t)] bytes.  That
    is more than the union holds wherever the structs of the missing header
    are as small as the members flogfs.c names in them. *)
Definition line_445_overruns : bool :=
  (sizeof_sector0_union <? sizeof_flog_file_header)%nat.

(** Lines 442-459: verify the most recent deletion.  [false] is the
    [goto failure].  The read at line 450 names sector 0, not
    [FLOG_FILE_INVALIDATION_SECTOR].  Where [line_445_overruns] holds, the
    read at line 445 writes past the union and the behaviour of the C code is
    undefined from there on: which object the bytes reach is the compiler's
    choice.  The model lets the buffer grow, which is the run of a build
    whose frame keeps the objects read later ([last_deletion]) out of reach;
    what [mount_check_deletion] returns behind line 445 is the verdict of
    such a build only.  Where [line_445_overruns] is false the model is
    exact. *)
Definition mount_check_deletion (L : mount_locals) : M (bool * mount_locals) :=
  let ld := last_deletion L in
  if ld_timestamp ld >? 0 then
    flog_open_sector (ld_last_block ld) 0 ;;
    d <- do_flash_read_sector 0 0 sizeof_flog_file_header ;;
    let L := set_sector0_buffer (blit d (sector0_buffer L)) L in
    if get_field file_sector0_file_id (sector0_buffer L) =? ld_file_id ld then
      flog_open_sector (ld_last_block ld) FLOG_FILE_INVALIDATION_SECTOR ;;
      d' <- do_flash_read_sector 0 0 sizeof_file_invalidation_sector ;;
      let L := set_sector_buffer (blit d' (sector_buffer L)) L in
      if negb (get_field file_inval_timestamp (sector_buffer L)
               =? FLOG_TIMESTAMP_INVALID) then
        do_flash_debug_error "Found a file that wasn't completely deleted"%string ;;
        ret (false, L)
      else ret (true, L)
    else ret (true, L)
  else ret (true, L).

(** The two exits of [flogfs_mount] (lines 461-468). *)
Definition mount_success : M flog_result_t :=
  do_flash_unlock ;; fs_unlock ;; ret FLOG_SUCCESS.
Definition mount_failure : M flog_result_t :=
  do_flash_unlock ;; fs_unlock ;; ret FLOG_FAILURE.

Definition flogfs_mount (fuel : nat) (stack : mount_locals)
  : M (option flog_result_t) :=
  let L := mount_init_locals stack in
  fs_lock ;;
  do_flash_lock ;;
  L <- mount_scan_blocks (Z.to_nat FS_NUM_BLOCKS) 0 L ;;
  if inode0_idx L =? FLOG_BLOCK_IDX_INVALID then
    do_flash_debug_error "Inode 0 not found!"%string ;;
    r <- mount_failure ;;
    ret (Some r)
  else
    iter <- flog_inode_iterator_init (inode0_idx L) ;;
    walked <- mount_inode_walk fuel iter L ;;
    match walked with
    | None => ret None
    | Some L =>
        L <- mount_check_allocation L ;;
        chk <- mount_check_deletion L ;;
        if fst chk then
          r <- mount_success ;;
          ret (Some r)
        else
          r <- mount_failure ;;
          ret (Some r)
    end.

(** *** [flogfs_open_read] (lines 471-553) *)

(** Modelled from the spec: [flog_read_file_t] is declared in flogfs.h; these
    are the members [flogfs_open_read] assigns, the read cursor of the
    spec. *)
Record flog_read_file_t := mkReadFile {
  file_id : Z;
  file_block : Z;
  file_sector : Z;
  file_offset : Z;
  file_nbytes_in_sector : Z
}.

(** A C string is given by the bytes before its terminator. *)
Fixpoint strlen (s : list byte) : nat :=
  match s with
  | [] => O
  | c :: r => if Byte.eqb c Byte.x00 then O else S (strlen r)
  end.

(** [strncmp(s1, s2, n) == 0]; reading past the end of a list reads the
    terminator. *)
Fixpoint strncmp_eq (s1 s2 : list byte) (n : nat) : bool :=
  match n with
  | O => true
  | S n' =>
      let c1 := hd Byte.x00 s1 in
      let c2 := hd Byte.x00 s2 in
      if Byte.eqb c1 c2 then
        if Byte.eqb c1 Byte.x00 then true else strncmp_eq (tl s1) (tl s2) n'
      else false
  end.

(** [inode_file_allocation_sector.filename]. *)
Definition alloc_filename (buf : list byte) : list byte :=
  fit FLOG_MAX_FNAME_LEN (skipn off_alloc_filename buf).

(** Lines 524-541: position the cursor at the start of the file data.
    [buf] is the sector union after the reads of lines 494 and 515. *)
Definition open_read_position (file : flog_read_file_t) (buf spare : list byte)
  : M flog_read_file_t :=
  let id := get_field alloc_file_id buf in
  let block := get_field alloc_first_block buf in
  flog_open_sector block 0 ;;
  sp <- do_flash_read_spare 0 ;;
  let spare := blit sp spare in
  if negb (get_field file_spare_nbytes spare =? 0) then
    ret (mkReadFile id block 0 (Z.of_nat sizeof_file_sector0_header)
           (get_field file_spare_nbytes spare))
  else
    flog_open_sector block 1 ;;
    sp1 <- do_flash_read_spare 1 ;;
    let spare := blit sp1 spare in
    ret (mkReadFile id block 1 0 (get_field file_spare_nbytes spare)).

(** The loop of lines 489-545.  Both ways out of it, [goto failure] and
    [break], continue at the label [failure]; the result is the file handle
    as the loop leaves it.  [None]: out of fuel. *)
Fixpoint open_read_loop (fuel : nat) (filename : list byte)
         (iter : flog_inode_iterator_t) (file : flog_read_file_t)
         (buf spare : list byte) : M (option flog_read_file_t) :=
  match fuel with
  | O => ret None
  | S fuel' =>
      flog_open_sector (iter_block iter) (iter_sector iter) ;;
      d <- do_flash_read_sector (iter_sector iter) 0 sizeof_inode_file_allocation ;;
      let buf := blit d buf in
      if get_field alloc_file_id buf =? FLOG_FILE_ID_INVALID then
        (if negb (iter_next_block iter =? FLOG_BLOCK_IDX_INVALID)
         then do_flash_debug_warn
                ("Found fake" ++ String (Ascii.ascii_of_nat 10) "inode end")%string
         else ret tt) ;;
        ret (Some file)
      else if negb (strncmp_eq filename (alloc_filename buf) FLOG_MAX_FNAME_LEN) then
        iter' <- flog_inode_iterator_next iter ;;
        open_read_loop fuel' filename iter' file buf spare
      else
        flog_open_sector (iter_block iter) (wrap16 (iter_sector iter + 1)) ;;
        d1 <- do_flash_read_sector (iter_sector iter + 1) 0 sizeof_timestamp ;;
        let buf := blit d1 buf in
        if negb (get_field inval_timestamp buf =? FLOG_TIMESTAMP_INVALID) then
          iter' <- flog_inode_iterator_next iter ;;
          open_read_loop fuel' filename iter' file buf spare
        else
          file' <- open_read_position file buf spare ;;
          ret (Some file')
  end.

(** [buf] and [spare] are the two unions as the stack leaves them. *)
Definition flogfs_open_read (fuel : nat) (file : flog_read_file_t)
           (filename : list byte) (buf spare : list byte)
  : M (option (flog_result_t * flog_read_file_t)) :=
  if (FLOG_MAX_FNAME_LEN <=? strlen filename)%nat then
    ret (Some (FLOG_FAILURE, file))
  else
    fs_lock ;;
    fs <- get_fs ;;
    iter <- flog_inode_iterator_init (inode0 fs) ;;
    out <- open_read_loop fuel filename iter file buf spare ;;
    match out with
    | None => ret None
    | Some file' =>
        (* failure: *)
        do_flash_unlock ;;
        fs_unlock ;;
        ret (Some (FLOG_FAILURE, file'))
    end.

End Flogfs.

(** ** A NAND simulation behind the driver interface *)

(** Modelled from the spec: the flash driver is an external collaborator of
    flogfs.c (spec sections 1 and 6).  The simulation keeps, for every sector
    of every page, the data bytes and the spare bytes; erase sets a whole
    block to all-ones; programming can only clear bits; reads and writes act
    on the page opened last, a sector number being taken modulo
    [FS_SECTORS_PER_PAGE].  Cells are programmed by the write calls
    themselves, which leaves [flash_commit] nothing to do. *)
Module Nand.
Section Nand.
Context {cfg : Config}.

Record nand := mkNand {
  data : Z -> Z -> Z -> nat -> byte;    (* block, page, sector, offset *)
  spare : Z -> Z -> Z -> nat -> byte;   (* block, page, sector, offset *)
  bad : Z -> bool;
  opened : option (Z * Z);              (* block, page *)
  locked : bool
}.

Definition in_range (block page : Z) : bool :=
  (0 <=? block) && (block <? FS_NUM_BLOCKS)
  && (0 <=? page) && (page <? FS_PAGES_PER_BLOCK).

Definition set_opened (o : option (Z * Z)) (n : nand) : nand :=
  mkNand (data n) (spare n) (bad n) o (locked n).

Definition set_locked (l : bool) (n : nand) : nand :=
  mkNand (data n) (spare n) (bad n) (opened n) l.

Definition open_page (block page : Z) (n : nand) : flog_result_t * nand :=
  if in_range block page
  then (FLOG_SUCCESS, set_opened (Some (block, page)) n)
  else (FLOG_FAILURE, set_opened None n).

Definition block_is_bad (n : nand) : bool :=
  match opened n with
  | Some (b, _) => bad n b
  | None => true
  end.

Definition erased : nat -> byte := fun _ => Byte.xff.

Definition erase_block (block : Z) (n : nand) : flog_result_t * nand :=
  if in_range block 0 && negb (bad n block) then
    (FLOG_SUCCESS,
     mkNand (fun b p s => if b =? block then erased else data n b p s)
            (fun b p s => if b =? block then erased else spare n b p s)
            (bad n) (opened n) (locked n))
  else (FLOG_FAILURE, n).

Definition sector_in_page (sector : Z) : Z := sector mod FS_SECTORS_PER_PAGE.

Definition read_bytes (cells : nat -> byte) (offset n : nat) : list byte :=
  map cells (seq offset n).

Definition read_sector (sector offset : Z) (n : nat) (f : nand) : list byte :=
  match opened f with
  | Some (b, p) => read_bytes (data f b p (sector_in_page sector)) (Z.to_nat offset) n
  | None => repeat Byte.xff n
  end.

Definition read_spare (sector : Z) (f : nand) : list byte :=
  match opened f with
  | Some (b, p) => read_bytes (spare f b p (sector_in_page sector)) 0 sizeof_spare
  | None => repeat Byte.xff sizeof_spare
  end.

(** Program [src] into [cells] from [offset] on. *)
Definition program (cells : nat -> byte) (offset : nat) (src : list byte)
  : nat -> byte :=
  fun i =>
    if ((offset <=? i) && (i <? offset + length src))%nat
    then band (cells i) (nth (i - offset) src Byte.xff)
    else cells i.

Definition write_sector (src : list byte) (sector offset : Z) (f : nand) : nand :=
  match opened f with
  | Some (b, p) =>
      mkNand (fun b' p' s' =>
                if (b' =? b) && (p' =? p) && (s' =? sector_in_page sector)
                then program (data f b p (sector_in_page sector)) (Z.to_nat offset) src
                else data f b' p' s')
             (spare f) (bad f) (opened f) (locked f)
  | None => f
  end.

Definition write_spare (src : list byte) (sector : Z) (f : nand) : nand :=
  match opened f with
  | Some (b, p) =>
      mkNand (data f)
             (fun b' p' s' =>
                if (b' =? b) && (p' =? p) && (s' =? sector_in_page sector)
                then program (spare f b p (sector_in_page sector)) 0 src
                else spare f b' p' s')
             (bad f) (opened f) (locked f)
  | None => f
  end.

#[global] Instance driver : FlashDriver nand := {
  flash_init := fun f => (FLOG_SUCCESS, f);
  flash_lock := set_locked true;
  flash_unlock := set_locked false;
  flash_open_page := open_page;
  flash_close_page := set_opened None;
  flash_block_is_bad := block_is_bad;
  flash_erase_block := erase_block;
  flash_read_sector := read_sector;
  flash_read_spare := read_spare;
  flash_write_sector := write_sector;
  flash_write_spare := write_spare;
  flash_commit := fun f => f;
  flash_debug_warn := fun _ f => f;
  flash_debug_error := fun _ f => f
}.

(** Program [src] at the start of sector [sector] of [block] (or of its
    spare), leaving the open page as it was: used to lay out test media. *)
Definition store (block sector : Z) (src : list byte) (f : nand) : nand :=
  set_opened (opened f)
    (write_sector src sector 0
       (snd (open_page block (sector / FS_SECTORS_PER_PAGE) f))).

Definition store_spare (block sector : Z) (src : list byte) (f : nand) : nand :=
  set_opened (opened f)
    (write_spare src sector
       (snd (open_page block (sector / FS_SECTORS_PER_PAGE) f))).

(** A medium fresh from the factory: every cell erased, nothing open. *)
Definition blank (bad_blocks : Z -> bool) : nand :=
  mkNand (fun _ _ _ => erased) (fun _ _ _ => erased) bad_blocks None false.

End Nand.
End Nand.

(** ** A small geometry to run the functions on *)

(** Four blocks of four pages of four sectors.  The reserved sectors lie in
    page 0, the only page the census loop of [flogfs_mount] opens.  Struct
    members are laid out in declaration order with natural alignment; the
    invalidation timestamp comes first in its record, as the four-byte read at
    line 515 of flogfs.c needs. *)
Module Small.

#[global] Instance cfg : Config := {|
  FS_NUM_BLOCKS := 4;
  FS_PAGES_PER_BLOCK := 4;
  FS_SECTORS_PER_PAGE := 4;
  FLOG_MAX_FNAME_LEN := 8;
  FLOG_INODE_TAIL_SECTOR := 2;
  FLOG_INODE_INVALIDATION_SECTOR := 3;
  FLOG_FILE_TAIL_SECTOR := 2;
  FLOG_FILE_INVALIDATION_SECTOR := 3;
  FLOG_BLOCK_TYPE_UNALLOCATED := 255;
  FLOG_BLOCK_TYPE_INODE := 1;
  FLOG_BLOCK_TYPE_FILE := 2;
  off_inode_sector0_age := 0;
  off_inode_sector0_timestamp := 4;
  sizeof_inode_sector0 := 8;
  inode_spare0_type_id := mkField 0 1;
  inode_spare0_inode_index := mkField 2 2;
  file_spare_type_id := mkField 0 1;
  file_spare_nothing := mkField 1 1;
  file_spare_nbytes := mkField 2 2;
  sizeof_spare := 4;
  off_file_sector0_age := 4;
  off_file_sector0_file_id := 0;
  sizeof_file_sector0_header := 8;
  off_file_tail_next_block := 0;
  off_file_tail_next_age := 4;
  off_file_tail_timestamp := 8;
  sizeof_file_tail_sector_header := 12;
  off_alloc_file_id := 0;
  off_alloc_first_block := 4;
  off_alloc_first_block_age := 8;
  off_alloc_timestamp := 12;
  sizeof_inode_file_allocation_header := 16;
  off_alloc_filename := 16;
  sizeof_inode_file_allocation := 24;
  off_inval_timestamp := 0;
  off_inval_last_block := 4;
  sizeof_inode_file_invalidation := 8;
  off_file_inval_timestamp := 0;
  sizeof_file_invalidation_sector := 4
|}.

Definition fs0 : flogfs_t :=
  mkFlogfs 0 0 0 0 0 0 FLOG_STATE_RESET 0 0 0 0 0 0 0 FLOG_FAILURE false.

Definition stack0 : mount_locals :=
  mkLocals (mkLastAllocation 0 0 0 0) (mkLastDeletion 0 0 0 0) 0 0 0 [] [] [].

Definition start (fs : flogfs_t) (f : Nand.nand) : env := mkEnv fs f [].

(** A medium without bad blocks after [flogfs_format]. *)
Definition formatted : Nand.nand :=
  flash (snd (flogfs_format [] (start fs0 (Nand.blank (fun _ => false))))).

(** The name "log". *)
Definition log_name : list byte := [Byte.x6c; Byte.x6f; Byte.x67].

(** The allocation record of file 1, "log", first block 1 of age 0,
    allocated at time 1. *)
Definition alloc_record : list byte :=
  fit sizeof_inode_file_allocation_header
    (set_field alloc_timestamp 1
       (set_field alloc_first_block_age 0
          (set_field alloc_first_block 1
             (set_field alloc_file_id 1 []))))
  ++ fit FLOG_MAX_FNAME_LEN log_name.

(** Sector 0 of the file's block: the header, then three bytes of data. *)
Definition file_sector0 : list byte :=
  fit sizeof_file_sector0_header
    (set_field file_sector0_age 0 (set_field file_sector0_file_id 1 []))
  ++ [Byte.x01; Byte.x02; Byte.x03].

Definition file_spare0 : list byte :=
  fit sizeof_spare
    (set_field file_spare_type_id FLOG_BLOCK_TYPE_FILE
       (set_field file_spare_nothing 0 (set_field file_spare_nbytes 3 []))).

(** The formatted medium with the live file "log": its inode entry is the
    first of block 0 (sectors 4 and 5), its data is in block 1. *)
Definition with_file : Nand.nand :=
  Nand.store_spare 1 0 file_spare0
    (Nand.store 1 0 file_sector0
       (Nand.store 0 4 alloc_record formatted)).

(** The same medium after the first step of a deletion: the invalidation
    record of the entry is written (time 2, last block 1), block 1 is
    untouched. *)
Definition inval_record : list byte :=
  fit sizeof_inode_file_invalidation
    (set_field inval_last_block 1 (set_field inval_timestamp 2 [])).

Definition with_deleted_file : Nand.nand :=
  Nand.store 0 5 inval_record with_file.

Definition file0 : flog_read_file_t := mkReadFile 0 0 0 0 0.

End Small.

(** ** Vocabulary of the statements *)

(** The member [f] lies inside a struct (or transfer) of [n] bytes. *)
Definition field_in (f : field) (n : nat) : Prop := (f_off f + f_width f <= n)%nat.

(** What a C compiler guarantees about the structs of flogfs_private.h:
    members lie inside their struct, distinct members share no byte, and
    the block-type constants fit the member that stores them. *)
Class LayoutOk {cfg : Config} : Prop := {
  inode_spare0_type_id_in : field_in inode_spare0_type_id sizeof_spare;
  inode_spare0_inode_index_in : field_in inode_spare0_inode_index sizeof_spare;
  inode_spare0_disjoint : disjoint inode_spare0_type_id inode_spare0_inode_index;
  file_spare_type_id_in : field_in file_spare_type_id sizeof_spare;
  file_spare_nbytes_in : field_in file_spare_nbytes sizeof_spare;
  file_spare_type_id_nbytes : disjoint file_spare_type_id file_spare_nbytes;
  file_spare_nothing_nbytes : disjoint file_spare_nothing file_spare_nbytes;
  file_sector0_age_in : field_in file_sector0_age sizeof_file_sector0_header;
  file_sector0_file_id_in : field_in file_sector0_file_id sizeof_file_sector0_header;
  file_sector0_disjoint : disjoint file_sector0_age file_sector0_file_id;
  alloc_file_id_in : field_in alloc_file_id sizeof_inode_file_allocation_header;
  block_type_inode_range :
    0 <= FLOG_BLOCK_TYPE_INODE < 2 ^ (8 * Z.of_nat (f_width inode_spare0_type_id));
  block_type_file_range :
    0 <= FLOG_BLOCK_TYPE_FILE < 2 ^ (8 * Z.of_nat (f_width file_spare_type_id))
}.

(** The geometry the 16-bit sector arithmetic of the iterator is written
    for. *)
Class GeometryOk {cfg : Config} : Prop := {
  num_blocks_pos : 0 < FS_NUM_BLOCKS;
  pages_pos : 0 < FS_PAGES_PER_BLOCK;
  sectors_range : 0 < FS_SECTORS_PER_PAGE < 2 ^ 16
}.

(** How erased flash looks to [flogfs_mount]: an all-ones type id is neither
    INODE nor FILE, and the invalidation mark of an inode block does not share
    the sector that [flogfs_format] programs. *)
Class ErasedOk {cfg : Config} : Prop := {
  erased_not_inode : FLOG_BLOCK_TYPE_INODE <> all_ones (f_width inode_spare0_type_id);
  erased_not_file : FLOG_BLOCK_TYPE_FILE <> all_ones (f_width inode_spare0_type_id);
  inode_invalidation_apart :
    FLOG_INODE_INVALIDATION_SECTOR mod FS_SECTORS_PER_PAGE <> 0
}.

(** The medium as the simulation stores it, without a page cache in
    between. *)
Section Medium.
Context {cfg : Config}.

(** What reading [n] bytes at the start of [sector] returns while
    [(block, page)] is the page the driver was asked to open. *)
Definition cells (f : Nand.nand) (block page sector : Z) (n : nat) : list byte :=
  if Nand.in_range block page
  then Nand.read_bytes (Nand.data f block page (Nand.sector_in_page sector)) 0 n
  else repeat Byte.xff n.

Definition spare_cells (f : Nand.nand) (block page sector : Z) : list byte :=
  if Nand.in_range block page
  then Nand.read_bytes (Nand.spare f block page (Nand.sector_in_page sector)) 0 sizeof_spare
  else repeat Byte.xff sizeof_spare.

(** The file id stored in the inode entry at [sector] of [block]. *)
Definition entry_file_id (f : Nand.nand) (block sector : Z) : Z :=
  get_field alloc_file_id
    (cells f block (sector / FS_SECTORS_PER_PAGE) sector
       sizeof_inode_file_allocation_header).

(** The link in the tail sector of an inode block, as the iterator reads it:
    with page 0 open. *)
Definition inode_tail_link (f : Nand.nand) (block : Z) : Z :=
  le_decode (cells f block 0 FLOG_INODE_TAIL_SECTOR sizeof_block_idx).

(** The file ids of the inode entries from [sector] of [block] up to the end
    marker, in chain order; [next_block] is the link the iterator holds for
    leaving [block].  [None]: no end marker within [fuel] entries. *)
Fixpoint chain_file_ids (fuel : nat) (f : Nand.nand) (block next_block sector : Z)
  : option (list Z) :=
  match fuel with
  | O => None
  | S fuel' =>
      let id := entry_file_id f block sector in
      if id =? FLOG_FILE_ID_INVALID then Some []
      else
        let sector' := wrap16 (sector + 2) in
        option_map (cons id)
          (if sector' >=? FS_PAGES_PER_BLOCK * FS_SECTORS_PER_PAGE
           then chain_file_ids fuel' f next_block (inode_tail_link f next_block)
                  (wrap16 FS_SECTORS_PER_PAGE)
           else chain_file_ids fuel' f block next_block sector')
  end.

(** The page the driver holds after it was asked to open [(block, page)]. *)
Definition open_target (block page : Z) : option (Z * Z) :=
  if Nand.in_range block page then Some (block, page) else None.

(** The page the cache names is the page the driver has open. *)
Definition coherent (e : @env Nand.nand) : Prop :=
  page_open (flogfs e) <> 0 ->
  Nand.opened (flash e)
  = open_target (current_open_block (flogfs e)) (current_open_page (flogfs e)).

(** The cells and the bad-block marks. *)
Definition medium (f : Nand.nand) := (Nand.data f, Nand.spare f, Nand.bad f).

(** What the inode walk establishes step by step: the cells are still those
    of [e], [max_file_id] is [id], and the cache tells the truth. *)
Definition walk_state (e : @env Nand.nand) (id : Z) (e' : @env Nand.nand) : Prop :=
  medium (flash e') = medium (flash e)
  /\ max_file_id (flogfs e') = id
  /\ coherent e'.

(** Every good block below [i] is erased. *)
Definition erased_upto (f : Nand.nand) (i : Z) : Prop :=
  forall b p s k, 0 <= b < i -> Nand.bad f b = false ->
                  Nand.data f b p s k = Byte.xff /\ Nand.spare f b p s k = Byte.xff.

(** The medium [flogfs_format] leaves behind: block 0 is good and carries
    the inode spare in sector 0 of page 0; everything else in the good blocks
    is erased. *)
Record formatted_medium (f : Nand.nand) : Prop := {
  fm_block0_good : Nand.bad f 0 = false;
  fm_data : forall b p s i,
      0 <= b < FS_NUM_BLOCKS -> Nand.bad f b = false -> (b, p, s) <> (0, 0, 0) ->
      Nand.data f b p s i = Byte.xff;
  fm_spare : forall b p s i,
      0 <= b < FS_NUM_BLOCKS -> Nand.bad f b = false -> (b, p, s) <> (0, 0, 0) ->
      Nand.spare f b p s i = Byte.xff;
  fm_type_id :
    get_field inode_spare0_type_id (Nand.read_bytes (Nand.spare f 0 0 0) 0 sizeof_spare)
    = FLOG_BLOCK_TYPE_INODE;
  fm_inode_index :
    get_field inode_spare0_inode_index (Nand.read_bytes (Nand.spare f 0 0 0) 0 sizeof_spare)
    = 0
}.

End Medium.

Section Vocabulary.
Context {cfg : Config} {F : Type} {drv : FlashDriver F}.

(** The page [(block, page)] is the one the cache holds. *)
Definition page_is_open (block page : Z) (fs : flogfs_t) : Prop :=
  page_open fs <> 0 /\ current_open_block fs = block /\ current_open_page fs = page.

(** The fields of [flogfs] outside the page cache, the counters
    [max_file_id] and [t], and the lock. *)
Definition persistent (fs : flogfs_t) :=
  (read_head fs, write_head fs, max_block_sequence fs,
   first_age_table_block fs, first_file_table_block fs, state fs,
   inode0 fs, num_files fs, num_free_blocks fs).

(** The fields of [flogfs] outside the page cache and the lock. *)
Definition outside_cache (fs : flogfs_t) :=
  (read_head fs, write_head fs, max_file_id fs, max_block_sequence fs,
   first_age_table_block fs, first_file_table_block fs, state fs, t fs,
   inode0 fs, num_files fs, num_free_blocks fs).

(** The fields [flogfs_init] does not assign. *)
Definition outside_init (fs : flogfs_t) :=
  (read_head fs, write_head fs, first_age_table_block fs,
   first_file_table_block fs, t fs, inode0 fs, num_files fs,
   num_free_blocks fs, current_open_block fs, current_open_page fs,
   page_open_result fs, lock fs).

(** Neither the FS lock nor the flash lock is held ([calls e] is the whole
    history of the driver, which starts unlocked). *)
Definition locks_free (e : @env F) : Prop :=
  lock (flogfs e) = false /\ flash_lock_held false (calls e) = false.

(** A computation leaves the view [proj] of the environment as it is. *)
Definition keeps {X A : Type} (proj : @env F -> X) (m : @M F A) : Prop :=
  forall e, proj (snd (m e)) = proj e.

(** The locals and the environment of [flogfs_mount] after its census
    loop (line 348), and the iterator its inode walk starts from. *)
Definition mount_census (stack : mount_locals) (e : @env F) : mount_locals * env :=
  mount_scan_blocks (Z.to_nat FS_NUM_BLOCKS) 0 (mount_init_locals stack)
    (snd (do_flash_lock (snd (fs_lock e)))).

Definition mount_first_iter (stack : mount_locals) (e : @env F)
  : flog_inode_iterator_t :=
  fst (flog_inode_iterator_init (inode0_idx (fst (mount_census stack e)))
         (snd (mount_census stack e))).

(** The locals and the environment of [flogfs_mount] at line 416, behind
    the inode walk ([None]: no end marker within [fuel] entries). *)
Definition mount_walked (fuel : nat) (stack : mount_locals) (e : @env F)
  : option mount_locals * env :=
  mount_inode_walk fuel (mount_first_iter stack e) (fst (mount_census stack e))
    (snd (flog_inode_iterator_init (inode0_idx (fst (mount_census stack e)))
            (snd (mount_census stack e)))).

(** A computation that only adds calls to the history, none of which
    erases, writes or commits. *)
Definition only_reads {A : Type} (m : @M F A) : Prop :=
  forall e, exists rest,
    calls (snd (m e)) = calls e ++ rest /\ filter is_write_call rest = [].

(** The last-allocation candidate, when there is one, holds values of its
    C types. *)
Definition candidate_in_range (L : mount_locals) : Prop :=
  la_timestamp (last_allocation L) > 0 ->
  0 <= la_age (last_allocation L) < 2 ^ 32
  /\ 0 <= la_file_id (last_allocation L) < 2 ^ 32.

(** The operation left through its two unlock calls (in either order). *)
Definition unlocked_exit (e' : @env F) : Prop :=
  lock (flogfs e') = false /\
  exists l, calls e' = l ++ [FlashUnlock; FsUnlock]
            \/ calls e' = l ++ [FsUnlock; FlashUnlock].

End Vocabulary.

(** ** A worn block *)

(** A variant of the simulation one of whose blocks has worn out without
    being marked bad: erasing block [worn] fails and leaves the block as it
    is.  It serves to run the failure path of [flogfs_format]. *)
Module Worn.
Section Worn.
Context {cfg : Config}.

Definition erase_block (worn block : Z) (n : Nand.nand) : flog_result_t * Nand.nand :=
  if block =? worn then (FLOG_FAILURE, n) else Nand.erase_block block n.

Definition driver (worn : Z) : FlashDriver Nand.nand := {|
  flash_init := fun f => (FLOG_SUCCESS, f);
  flash_lock := Nand.set_locked true;
  flash_unlock := Nand.set_locked false;
  flash_open_page := Nand.open_page;
  flash_close_page := Nand.set_opened None;
  flash_block_is_bad := Nand.block_is_bad;
  flash_erase_block := erase_block worn;
  flash_read_sector := Nand.read_sector;
  flash_read_spare := Nand.read_spare;
  flash_write_sector := Nand.write_sector;
  flash_write_spare := Nand.write_spare;
  flash_commit := fun f => f;
  flash_debug_warn := fun _ f => f;
  flash_debug_error := fun _ f => f
|}.

End Worn.
End Worn.

(** ** A chip that does not answer *)

(** A variant of the simulation whose [flash_init] fails.  It serves to run
    the failure path of [flogfs_init]. *)
Module Unpowered.
Section Unpowered.
Context {cfg : Config}.

Definition driver : FlashDriver Nand.nand := {|
  flash_init := fun f => (FLOG_FAILURE, f);
  flash_lock := Nand.set_locked true;
  flash_unlock := Nand.set_locked false;
  flash_open_page := Nand.open_page;
  flash_close_page := Nand.set_opened None;
  flash_block_is_bad := Nand.block_is_bad;
  flash_erase_block := Nand.erase_block;
  flash_read_sector := Nand.read_sector;
  flash_read_spare := Nand.read_spare;
  flash_write_sector := Nand.write_sector;
  flash_write_spare := Nand.write_spare;
  flash_commit := fun f => f;
  flash_debug_warn := fun _ f => f;
  flash_debug_error := fun _ f => f
|}.

End Unpowered.
End Unpowered.


(** ** More media for the small geometry *)

Module Media.
Import Small.

(** The spare of an inode table 0. *)
Definition inode_spare : list byte :=
  fit sizeof_spare
    (set_field inode_spare0_type_id FLOG_BLOCK_TYPE_INODE
       (set_field inode_spare0_inode_index 0 [])).

(** The formatted medium on which block 3, too, carries the spare of an
    inode table 0. *)
Definition two_tables : Nand.nand := Nand.store_spare 3 0 inode_spare formatted.

(** The allocation record of file 2, also named "log", first block 2 of age
    0, allocated at time 3. *)
Definition alloc_record2 : list byte :=
  fit sizeof_inode_file_allocation_header
    (set_field alloc_timestamp 3
       (set_field alloc_first_block_age 0
          (set_field alloc_first_block 2
             (set_field alloc_file_id 2 []))))
  ++ fit FLOG_MAX_FNAME_LEN log_name.

Definition file2_sector0 : list byte :=
  fit sizeof_file_sector0_header
    (set_field file_sector0_age 0 (set_field file_sector0_file_id 2 [])).

(** The spares of sectors 0 and 1 of block 2: no data in sector 0, seven
    bytes in sector 1. *)
Definition file2_spare0 : list byte :=
  fit sizeof_spare
    (set_field file_spare_type_id FLOG_BLOCK_TYPE_FILE
       (set_field file_spare_nothing 0 (set_field file_spare_nbytes 0 []))).

Definition file2_spare1 : list byte :=
  fit sizeof_spare
    (set_field file_spare_type_id FLOG_BLOCK_TYPE_FILE
       (set_field file_spare_nothing 0 (set_field file_spare_nbytes 7 []))).

(** The medium with the deleted file "log" (file 1) and, behind it in the
    inode table (sectors 6 and 7 of block 0), the live file 2 of the same
    name. *)
Definition with_two_logs : Nand.nand :=
  Nand.store_spare 2 1 file2_spare1
    (Nand.store_spare 2 0 file2_spare0
       (Nand.store 2 0 file2_sector0
          (Nand.store 0 6 alloc_record2 with_deleted_file))).

(** The medium with the file "log" after its block 1 was marked bad. *)
Definition with_bad_file_block : Nand.nand :=
  Nand.mkNand (Nand.data with_file) (Nand.spare with_file) (fun b => b =? 1) None false.

(** The tail sector of block 1 once its successor is announced: block 2, to
    be used at age 1, announced at time 5. *)
Definition tail_record : list byte :=
  fit sizeof_file_tail_sector_header
    (set_field file_tail_timestamp 5
       (set_field file_tail_next_age 1
          (set_field file_tail_next_block 2 []))).

(** The medium with the file "log" after a power failure in the middle of
    an allocation: the tail sector of block 1 announces block 2, and block 2
    is still erased. *)
Definition with_announced_block : Nand.nand :=
  Nand.store 1 FLOG_FILE_TAIL_SECTOR tail_record with_file.

(** A second file block, block 3 of file 2, whose tail sector carries the
    same timestamp 5 and announces block 2 at age 9. *)
Definition tail_record3 : list byte :=
  fit sizeof_file_tail_sector_header
    (set_field file_tail_timestamp 5
       (set_field file_tail_next_age 9
          (set_field file_tail_next_block 2 []))).

Definition with_two_announcements : Nand.nand :=
  Nand.store 3 FLOG_FILE_TAIL_SECTOR tail_record3
    (Nand.store_spare 3 0 file2_spare0
       (Nand.store 3 0 file2_sector0 with_announced_block)).

(** The allocation record of a file with the given id, named "log", first
    block 1, allocated at time 0. *)
Definition entry_record (id : Z) : list byte :=
  fit sizeof_inode_file_allocation_header
    (set_field alloc_timestamp 0
       (set_field alloc_first_block_age 0
          (set_field alloc_first_block 1
             (set_field alloc_file_id id []))))
  ++ fit FLOG_MAX_FNAME_LEN log_name.

(** The spare of the second block of an inode chain. *)
Definition inode_spare1 : list byte :=
  fit sizeof_spare
    (set_field inode_spare0_type_id FLOG_BLOCK_TYPE_INODE
       (set_field inode_spare0_inode_index 1 [])).

(** An inode chain of two blocks: block 0 holds the six entries of files 1
    to 6 and links to block 2, which holds the entry of file 7. *)
Definition seven_files : Nand.nand :=
  Nand.store 2 4 (entry_record 7)
    (Nand.store_spare 2 0 inode_spare1
       (Nand.store 0 FLOG_INODE_TAIL_SECTOR (le_encode sizeof_block_idx 2)
          (fold_right (fun id f => Nand.store 0 (2 + 2 * id) (entry_record id) f)
             formatted [1; 2; 3; 4; 5; 6]))).

(** The zero-initialised state after [flog_open_page(0, 0)]: the page cache
    holds page 0 of block 0, and so does the driver. *)
Definition page0_open (f : Nand.nand) : env := snd (flog_open_page 0 0 (start fs0 f)).

End Media.

(** ** A layout whose sector0 union holds a [flog_file_header_t] *)

(** The small geometry with a [flog_inode_sector0_t] of 24 bytes (its two
    members followed by reserved bytes).  The union that starts with
    [sector0_buffer] then holds the 20 bytes that line 445 of flogfs.c reads
    into it, so that every run of [flogfs_mount] is defined. *)
Module Roomy.

Definition cfg : Config := {|
  FS_NUM_BLOCKS := 4;
  FS_PAGES_PER_BLOCK := 4;
  FS_SECTORS_PER_PAGE := 4;
  FLOG_MAX_FNAME_LEN := 8;
  FLOG_INODE_TAIL_SECTOR := 2;
  FLOG_INODE_INVALIDATION_SECTOR := 3;
  FLOG_FILE_TAIL_SECTOR := 2;
  FLOG_FILE_INVALIDATION_SECTOR := 3;
  FLOG_BLOCK_TYPE_UNALLOCATED := 255;
  FLOG_BLOCK_TYPE_INODE := 1;
  FLOG_BLOCK_TYPE_FILE := 2;
  off_inode_sector0_age := 0;
  off_inode_sector0_timestamp := 4;
  sizeof_inode_sector0 := 24;
  inode_spare0_type_id := mkField 0 1;
  inode_spare0_inode_index := mkField 2 2;
  file_spare_type_id := mkField 0 1;
  file_spare_nothing := mkField 1 1;
  file_spare_nbytes := mkField 2 2;
  sizeof_spare := 4;
  off_file_sector0_age := 4;
  off_file_sector0_file_id := 0;
  sizeof_file_sector0_header := 8;
  off_file_tail_next_block := 0;
  off_file_tail_next_age := 4;
  off_file_tail_timestamp := 8;
  sizeof_file_tail_sector_header := 12;
  off_alloc_file_id := 0;
  off_alloc_first_block := 4;
  off_alloc_first_block_age := 8;
  off_alloc_timestamp := 12;
  sizeof_inode_file_allocation_header := 16;
  off_alloc_filename := 16;
  sizeof_inode_file_allocation := 24;
  off_inval_timestamp := 0;
  off_inval_last_block := 4;
  sizeof_inode_file_invalidation := 8;
  off_file_inval_timestamp := 0;
  sizeof_file_invalidation_sector := 4
|}.

(** [flogfs_format] of a medium without bad blocks, in this layout. *)
Definition formatted : Nand.nand :=
  flash (snd (@flogfs_format cfg Nand.nand (@Nand.driver cfg) []
                (Small.start Small.fs0 (Nand.blank (fun _ => false))))).

(** The medium of [Small.with_deleted_file] in this layout: the records are
    the same bytes, the members having the same offsets. *)
Definition with_deleted_file : Nand.nand :=
  @Nand.store cfg 0 5 Small.inval_record
    (@Nand.store_spare cfg 1 0 Small.file_spare0
       (@Nand.store cfg 1 0 Small.file_sector0
          (@Nand.store cfg 0 4 Small.alloc_record formatted))).

End Roomy.

(** ** Vocabulary of the further statements *)

(** Calls on the FS lock and on the flash lock. *)
Definition is_lock_call (c : call) : bool :=
  match c with
  | FlashLock | FlashUnlock | FsLock | FsUnlock => true
  | _ => false
  end.

(** The calls [flogfs_format] makes for the blocks up to [k] while it has not
    yet written anything: page 0 of a block up to [k] is opened, the bad-block
    mark is asked for, a block before [k] is erased. *)
Definition erase_pass_call (k : Z) (c : call) : bool :=
  match c with
  | FlashOpenPage b p => (b <=? k) && (p =? 0)
  | FlashBlockIsBad => true
  | FlashEraseBlock b => b <? k
  | _ => false
  end.

Section FurtherVocabulary.
Context {cfg : Config}.

(** The geometry in which inode entries pair up inside pages: an even
    number of sectors per page, at least one page behind page 0, and sector
    numbers that fit [uint16_t]. *)
Definition entry_geometry : Prop :=
  0 < FS_SECTORS_PER_PAGE
  /\ FS_SECTORS_PER_PAGE mod 2 = 0
  /\ 2 <= FS_PAGES_PER_BLOCK
  /\ FS_PAGES_PER_BLOCK * FS_SECTORS_PER_PAGE < 2 ^ 16.

(** The iterator points at an entry of its block: an even sector behind
    page 0 whose successor is still inside the block. *)
Definition iter_in_block (it : flog_inode_iterator_t) : Prop :=
  FS_SECTORS_PER_PAGE <= iter_sector it
  /\ iter_sector it + 1 < FS_PAGES_PER_BLOCK * FS_SECTORS_PER_PAGE
  /\ iter_sector it mod 2 = 0.

(** Inode entries per inode block. *)
Definition entries_per_block : Z :=
  (FS_PAGES_PER_BLOCK - 1) * FS_SECTORS_PER_PAGE / 2.

(** The sector of the entry numbered [inode_idx]. *)
Definition iter_at_index (it : flog_inode_iterator_t) : Prop :=
  iter_sector it
  = FS_SECTORS_PER_PAGE + 2 * (iter_inode_idx it mod entries_per_block).

(** The handle as [flogfs_open_read] leaves it: the one it was given, or a
    cursor at the start of the file data.  The [id] of the cursor is taken
    from the sector union after the invalidation timestamp was read into its
    first bytes, so with [file_id] and that timestamp at the same offset it
    is the all-ones sentinel. *)
Definition positioned (file file' : flog_read_file_t) : Prop :=
  file' = file
  \/ (((file_sector file' = 0
        /\ file_offset file' = Z.of_nat sizeof_file_sector0_header
        /\ file_nbytes_in_sector file' <> 0)
       \/ (file_sector file' = 1 /\ file_offset file' = 0))
      /\ (off_alloc_file_id = off_inval_timestamp ->
          file_id file' = FLOG_FILE_ID_INVALID)).

(** A block of the medium that is not marked bad. *)
Definition good_block (f : Nand.nand) (b : Z) : bool :=
  (0 <=? b) && (b <? FS_NUM_BLOCKS) && negb (Nand.bad f b).

(** What [flogfs_format] writes to sector 0 of block 0 and to its spare,
    [buf] being what the stack held. *)
Definition format_main_buffer (buf : list byte) : list byte :=
  fit sizeof_inode_sector0
    (set_field inode_sector0_timestamp 0 (set_field inode_sector0_age 0 buf)).

Definition format_spare_buffer (buf : list byte) : list byte :=
  fit sizeof_spare
    (set_field inode_spare0_type_id FLOG_BLOCK_TYPE_INODE
       (set_field inode_spare0_inode_index 0
          (set_field inode_sector0_timestamp 0 (set_field inode_sector0_age 0 buf)))).

(** Block [i] presents itself as inode table 0: it is good, the spare of its
    sector 0 carries the INODE type and inode index 0, and its invalidation
    timestamp is unwritten. *)
Definition is_inode0_block (f : Nand.nand) (i : Z) : bool :=
  negb (Nand.bad f i)
  && (get_field inode_spare0_type_id (spare_cells f i 0 0) =? FLOG_BLOCK_TYPE_INODE)
  && (le_decode (cells f i 0 FLOG_INODE_INVALIDATION_SECTOR sizeof_timestamp)
      =? 0xFFFFFFFF)
  && (get_field inode_spare0_inode_index (spare_cells f i 0 0) =? 0).

(** The members of the tail-sector header lie inside it. *)
Definition tail_layout : Prop :=
  field_in file_tail_next_block sizeof_file_tail_sector_header
  /\ field_in file_tail_next_age sizeof_file_tail_sector_header
  /\ field_in file_tail_timestamp sizeof_file_tail_sector_header.

(** The allocation a block announces to the census of [flogfs_mount]
    (lines 323-338): a good block of type FILE whose tail sector carries a
    timestamp announces the successor named there, for the file whose id its
    sector 0 holds. *)
Definition block_offer (f : Nand.nand) (i : Z) : option last_allocation_t :=
  let type_id := get_field inode_spare0_type_id (spare_cells f i 0 0) in
  let tail := cells f i 0 FLOG_FILE_TAIL_SECTOR sizeof_file_tail_sector_header in
  let header := cells f i 0 0 sizeof_file_sector0_header in
  if Nand.bad f i then None
  else if type_id =? FLOG_BLOCK_TYPE_INODE then None
  else if negb (type_id =? FLOG_BLOCK_TYPE_FILE) then None
  else if get_field file_tail_timestamp tail =? 0xFFFFFFFF then None
  else Some (mkLastAllocation (get_field file_tail_next_block tail)
               (get_field file_tail_next_age tail)
               (get_field file_sector0_file_id header)
               (get_field file_tail_timestamp tail)).

(** The timestamp a block announces; 0 when it announces nothing. *)
Definition offer_timestamp (f : Nand.nand) (i : Z) : Z :=
  match block_offer f i with
  | Some o => la_timestamp o
  | None => 0
  end.

(** What the structs [flogfs_open_read] overlays guarantee: the header is
    the first member of the allocation record, [first_block] and the name lie
    inside that record, and the invalidation timestamp lies inside the bytes
    the two records share. *)
Definition open_read_layout : Prop :=
  (sizeof_inode_file_allocation_header <= sizeof_inode_file_allocation)%nat
  /\ field_in alloc_first_block sizeof_inode_file_allocation
  /\ (off_alloc_filename + FLOG_MAX_FNAME_LEN <= sizeof_inode_file_allocation)%nat
  /\ field_in inval_timestamp sizeof_inode_file_allocation
  /\ (sizeof_timestamp <= sizeof_inode_file_allocation)%nat.

(** The allocation record of the inode entry at [sector] of [block], and the
    first bytes of its invalidation record, as [flogfs_open_read] reads
    them. *)
Definition entry_alloc (f : Nand.nand) (block sector : Z) : list byte :=
  cells f block (sector / FS_SECTORS_PER_PAGE) sector sizeof_inode_file_allocation.

Definition entry_inval (f : Nand.nand) (block sector : Z) : list byte :=
  cells f block (wrap16 (sector + 1) / FS_SECTORS_PER_PAGE) (sector + 1) sizeof_timestamp.

(** The sector union after both reads. *)
Definition entry_union (f : Nand.nand) (block sector : Z) : list byte :=
  blit (entry_inval f block sector) (entry_alloc f block sector).

(** The entry carries the name (the test of line 508). *)
Definition entry_named (f : Nand.nand) (name : list byte) (block sector : Z) : bool :=
  strncmp_eq name (alloc_filename (entry_alloc f block sector)) FLOG_MAX_FNAME_LEN.

(** The test of line 518, on the sector union. *)
Definition union_live (f : Nand.nand) (block sector : Z) : bool :=
  get_field inval_timestamp (entry_union f block sector) =? FLOG_TIMESTAMP_INVALID.

(** The invalidation record of the inode entry at [sector] of [block], as
    the medium stores it. *)
Definition entry_invalidation (f : Nand.nand) (block sector : Z) : list byte :=
  cells f block (wrap16 (sector + 1) / FS_SECTORS_PER_PAGE) (sector + 1)
    sizeof_inode_file_invalidation.

(** The entry has not been invalidated: the timestamp of its invalidation
    record is all-ones. *)
Definition entry_live (f : Nand.nand) (block sector : Z) : bool :=
  get_field inval_timestamp (entry_invalidation f block sector) =? FLOG_TIMESTAMP_INVALID.

(** The positions (block, sector) of the inode entries from [sector] of
    [block] up to the end marker, in chain order.  [None]: no end marker
    within [fuel] entries. *)
Fixpoint chain_entries (fuel : nat) (f : Nand.nand) (block next_block sector : Z)
  : option (list (Z * Z)) :=
  match fuel with
  | O => None
  | S fuel' =>
      if entry_file_id f block sector =? FLOG_FILE_ID_INVALID then Some []
      else
        let sector' := wrap16 (sector + 2) in
        option_map (cons (block, sector))
          (if sector' >=? FS_PAGES_PER_BLOCK * FS_SECTORS_PER_PAGE
           then chain_entries fuel' f next_block (inode_tail_link f next_block)
                  (wrap16 FS_SECTORS_PER_PAGE)
           else chain_entries fuel' f block next_block sector')
  end.

(** The cursor for the file whose inode entry is at [sector] of [block].
    Its id and its first block are read from the sector union, that is from
    the allocation record after the read of line 515 has replaced its first
    [sizeof(flog_timestamp_t)] bytes. *)
Definition cursor_at (f : Nand.nand) (block sector : Z) : flog_read_file_t :=
  let id := get_field alloc_file_id (entry_union f block sector) in
  let first := get_field alloc_first_block (entry_union f block sector) in
  let nbytes0 := get_field file_spare_nbytes (spare_cells f first 0 0) in
  if nbytes0 =? 0
  then mkReadFile id first 1 0
         (get_field file_spare_nbytes (spare_cells f first (1 / FS_SECTORS_PER_PAGE) 1))
  else mkReadFile id first 0 (Z.of_nat sizeof_file_sector0_header) nbytes0.

(** The cursor for the first of [entries] that passes [test], or the handle
    as it was. *)
Definition lookup_by (test : Z -> Z -> bool) (f : Nand.nand) (entries : list (Z * Z))
           (file : flog_read_file_t) : flog_read_file_t :=
  match find (fun p => test (fst p) (snd p)) entries with
  | Some p => cursor_at f (fst p) (snd p)
  | None => file
  end.

(** What the lookup of [name] leaves in the handle: the cursor for the
    first entry that carries the name and has not been invalidated. *)
Definition lookup (f : Nand.nand) (name : list byte) (entries : list (Z * Z))
           (file : flog_read_file_t) : flog_read_file_t :=
  lookup_by (fun block sector => entry_named f name block sector
                                 && entry_live f block sector) f entries file.

(** A computation that leaves the page cache telling the truth if it found
    it so. *)
Definition coheres {A : Type} (m : @M Nand.nand A) : Prop :=
  forall e, coherent e -> coherent (snd (m e)).

End FurtherVocabulary.

(** * Properties *)

(** ** Bytes and fields *)

Section ByteFacts.

Lemma unsigned_range b : 0 <= unsigned b < 256.
Proof. destruct b; vm_compute; split; congruence. Qed.

Lemma of_Z_unsigned b : of_Z (unsigned b) = b.
Proof. destruct b; reflexivity. Qed.

Lemma unsigned_of_Z z : unsigned (of_Z z) = z mod 256.
Proof.
  unfold of_Z, unsigned.
  assert (H : 0 <= z mod 256 < 256) by (apply Z.mod_pos_bound; lia).
  destruct (Byte.of_N (Z.to_N (z mod 256))) eqn:E.
  - apply Byte.to_of_N in E. rewrite E. rewrite Z2N.id; lia.
  - apply Byte.of_N_None_iff in E. lia.
Qed.

Lemma band_xff_l b : band Byte.xff b = b.
Proof. destruct b; reflexivity. Qed.

Lemma nth_fit n l i : nth i (fit n l) Byte.x00 = if (i <? n)%nat then nth i l Byte.x00 else Byte.x00.
Proof.
  unfold fit. destruct (Nat.ltb_spec i n).
  - rewrite nth_firstn. destruct (Nat.ltb_spec i n); try lia.
    destruct (Nat.lt_ge_cases i (length l)).
    + now rewrite app_nth1.
    + rewrite app_nth2 by lia. rewrite nth_repeat. now rewrite nth_overflow.
  - apply nth_overflow. rewrite length_firstn. lia.
Qed.

Lemma length_fit n l : length (fit n l) = n.
Proof. unfold fit. rewrite length_firstn, length_app, repeat_length. lia. Qed.

Lemma length_le_encode w v : length (le_encode w v) = w.
Proof. revert v; induction w; simpl; intros; auto. Qed.

Lemma nth_skipn_x00 n (l : list byte) i : nth i (skipn n l) Byte.x00 = nth (n + i) l Byte.x00.
Proof.
  revert l; induction n; intros l; simpl; auto.
  destruct l; simpl; auto. now destruct i.
Qed.

Lemma nth_blit d buf i :
  nth i (blit d buf) Byte.x00 =
  if (i <? length d)%nat then nth i d Byte.x00 else nth i buf Byte.x00.
Proof.
  unfold blit. destruct (Nat.ltb_spec i (length d)).
  - now rewrite app_nth1.
  - rewrite app_nth2 by lia. rewrite nth_skipn_x00. f_equal. lia.
Qed.

Lemma nth_set_field f v buf i :
  nth i (set_field f v buf) Byte.x00 =
  if ((f_off f <=? i) && (i <? f_off f + f_width f))%nat
  then nth (i - f_off f) (le_encode (f_width f) v) Byte.x00
  else nth i buf Byte.x00.
Proof.
  unfold set_field.
  destruct (Nat.leb_spec (f_off f) i); simpl.
  - rewrite app_nth2 by (rewrite length_fit; lia). rewrite length_fit.
    destruct (Nat.ltb_spec i (f_off f + f_width f)).
    + rewrite app_nth1 by (rewrite length_le_encode; lia). reflexivity.
    + rewrite app_nth2 by (rewrite length_le_encode; lia).
      rewrite length_le_encode, nth_skipn_x00. f_equal. lia.
  - rewrite app_nth1 by (rewrite length_fit; lia).
    rewrite nth_fit. destruct (Nat.ltb_spec i (f_off f)); auto; lia.
Qed.

Lemma field_bytes_ext w off a b :
  (forall i, (off <= i < off + w)%nat -> nth i a Byte.x00 = nth i b Byte.x00) ->
  fit w (skipn off a) = fit w (skipn off b).
Proof.
  intros H. apply nth_ext with (d := Byte.x00) (d' := Byte.x00).
  - now rewrite !length_fit.
  - intros i Hi. rewrite length_fit in Hi.
    rewrite !nth_fit. destruct (Nat.ltb_spec i w); try lia.
    rewrite !nth_skipn_x00. apply H. lia.
Qed.

Lemma get_field_ext f a b :
  (forall i, (f_off f <= i < f_off f + f_width f)%nat ->
             nth i a Byte.x00 = nth i b Byte.x00) ->
  get_field f a = get_field f b.
Proof. intros H. unfold get_field. f_equal. now apply field_bytes_ext. Qed.

Lemma le_decode_range bs : 0 <= le_decode bs < 2 ^ (8 * Z.of_nat (length bs)).
Proof.
  induction bs as [|b r IH].
  - simpl. lia.
  - change (le_decode (b :: r)) with (unsigned b + 256 * le_decode r).
    pose proof (unsigned_range b).
    replace (8 * Z.of_nat (length (b :: r))) with (8 + 8 * Z.of_nat (length r))
      by (simpl length; lia).
    rewrite Z.pow_add_r by lia. change (2 ^ 8) with 256.
    simpl length in IH |- *.
    remember (2 ^ (8 * Z.of_nat (length r))) as P. lia.
Qed.

Lemma le_decode_encode w v : le_decode (le_encode w v) = v mod 2 ^ (8 * Z.of_nat w).
Proof.
  revert v; induction w; intros v.
  - simpl. now rewrite Z.mod_1_r.
  - cbn [le_encode le_decode]. rewrite unsigned_of_Z, IHw.
    replace (8 * Z.of_nat (S w)) with (8 + 8 * Z.of_nat w) by lia.
    rewrite Z.pow_add_r by lia. change (2 ^ 8) with 256.
    rewrite Z.rem_mul_r by lia. reflexivity.
Qed.

Lemma le_decode_ones w : le_decode (repeat Byte.xff w) = all_ones w.
Proof.
  unfold all_ones. induction w.
  - reflexivity.
  - cbn [repeat le_decode]. rewrite IHw.
    replace (8 * Z.of_nat (S w)) with (8 + 8 * Z.of_nat w) by lia.
    rewrite Z.pow_add_r by lia. change (unsigned Byte.xff) with 255.
    change (2 ^ 8) with 256. lia.
Qed.

Lemma get_field_range f buf : 0 <= get_field f buf < 2 ^ (8 * Z.of_nat (f_width f)).
Proof.
  unfold get_field.
  pose proof (le_decode_range (fit (f_width f) (skipn (f_off f) buf))) as H.
  now rewrite length_fit in H.
Qed.

Lemma get_set_same f v buf :
  get_field f (set_field f v buf) = v mod 2 ^ (8 * Z.of_nat (f_width f)).
Proof.
  unfold get_field. rewrite <- le_decode_encode. f_equal.
  apply nth_ext with (d := Byte.x00) (d' := Byte.x00).
  - now rewrite length_fit, length_le_encode.
  - intros i Hi. rewrite length_fit in Hi.
    rewrite nth_fit, nth_skipn_x00, nth_set_field.
    destruct (Nat.ltb_spec i (f_width f)); try lia.
    destruct (Nat.leb_spec (f_off f) (f_off f + i)); try lia.
    destruct (Nat.ltb_spec (f_off f + i) (f_off f + f_width f)); try lia.
    simpl. f_equal. lia.
Qed.

Lemma get_set_other f g v buf :
  disjoint f g -> get_field g (set_field f v buf) = get_field g buf.
Proof.
  intros D. apply get_field_ext. intros i Hi. rewrite nth_set_field.
  destruct (Nat.leb_spec (f_off f) i); simpl; auto.
  destruct (Nat.ltb_spec i (f_off f + f_width f)); auto.
  unfold disjoint in D. lia.
Qed.

Lemma get_field_blit f d buf :
  (f_off f + f_width f <= length d)%nat ->
  get_field f (blit d buf) = get_field f d.
Proof.
  intros H. apply get_field_ext. intros i Hi. rewrite nth_blit.
  destruct (Nat.ltb_spec i (length d)); auto; lia.
Qed.

Lemma get_field_fit f n buf :
  (f_off f + f_width f <= n)%nat ->
  get_field f (fit n buf) = get_field f buf.
Proof.
  intros H. apply get_field_ext. intros i Hi. rewrite nth_fit.
  destruct (Nat.ltb_spec i n); auto; lia.
Qed.

Lemma get_field_ones f buf :
  (forall i, (f_off f <= i < f_off f + f_width f)%nat -> nth i buf Byte.x00 = Byte.xff) ->
  get_field f buf = all_ones (f_width f).
Proof.
  intros H. unfold get_field. rewrite <- le_decode_ones. f_equal.
  apply nth_ext with (d := Byte.x00) (d' := Byte.x00).
  - now rewrite length_fit, repeat_length.
  - intros i Hi. rewrite length_fit in Hi.
    rewrite nth_fit, nth_skipn_x00. destruct (Nat.ltb_spec i (f_width f)); try lia.
    rewrite H by lia. symmetry. rewrite nth_repeat_lt; auto.
Qed.

End ByteFacts.

(** ** Inverting a computation that returned *)

Section Inversion.
Context {cfg : Config} {F : Type} {drv : FlashDriver F}.

Lemma bind_inv {A B} (m : M A) (k : A -> M B) (e : @env F) b e' :
  bind m k e = (b, e') -> exists a e1, m e = (a, e1) /\ k a e1 = (b, e').
Proof.
  unfold bind. destruct (m e) as [a e1]. intros H. now exists a, e1.
Qed.

Lemma ret_inv {A} (a b : A) (e e' : @env F) : ret a e = (b, e') -> a = b /\ e = e'.
Proof. unfold ret. intros H. now inversion H. Qed.
End Inversion.

Ltac inv_bind H :=
  let a := fresh "a" in
  let e1 := fresh "e" in
  let Hm := fresh "Hm" in
  apply bind_inv in H; destruct H as (a & e1 & Hm & H).

Ltac inv_ret H := apply ret_inv in H; destruct H as [? ?]; subst.

Ltac kept K H :=
  match type of H with
  | _ ?e = _ =>
      let Hk := fresh "Hk" in
      pose proof (K e) as Hk; rewrite H in Hk; cbn [snd] in Hk
  end.

Ltac inv_driver H :=
  unfold do_flash_init, do_flash_lock, do_flash_unlock, do_flash_open_page,
    do_flash_close_page, do_flash_block_is_bad, do_flash_erase_block,
    do_flash_read_sector, do_flash_read_spare, do_flash_write_sector,
    do_flash_write_spare, do_flash_commit, do_flash_debug_warn,
    do_flash_debug_error, driver in H;
  try match type of H with
      | (let (_, _) := ?x in _) = _ => destruct x
      end;
  inversion H; subst; clear H.

Tactic Notation "run_bind" hyp(H) "as" ident(a) ident(e1) ident(Hm) :=
  apply bind_inv in H; destruct H as (a & e1 & Hm & H).

(** ** The page cache *)

Section CacheFacts.
Context {cfg : Config} {F : Type} {drv : FlashDriver F}.

Lemma flog_open_page_hit (block page : Z) (e : env) :
  page_is_open block page (flogfs e) ->
  flog_open_page block page e = (page_open_result (flogfs e), e).
Proof.
  intros (Hopen & Hb & Hp). unfold flog_open_page, bind, get_fs, ret.
  apply Z.eqb_neq in Hopen. apply Z.eqb_eq in Hb, Hp.
  now rewrite Hopen, Hb, Hp.
Qed.

Lemma flog_open_page_opens (block page : Z) (e : env) :
  page_is_open block page (flogfs (snd (flog_open_page block page e))) /\
  page_open_result (flogfs (snd (flog_open_page block page e)))
  = fst (flog_open_page block page e).
Proof.
  unfold flog_open_page, bind, get_fs, ret.
  destruct (negb (page_open (flogfs e) =? 0)
            && (current_open_block (flogfs e) =? block)
            && (current_open_page (flogfs e) =? page)) eqn:E.
  - apply andb_prop in E as [E Hp]. apply andb_prop in E as [Ho Hb].
    apply negb_true_iff, Z.eqb_neq in Ho. apply Z.eqb_eq in Hb, Hp.
    simpl. unfold page_is_open. auto.
  - unfold do_flash_open_page, driver, modify_fs.
    destruct (flash_open_page block page (flash e)) as [r f]. simpl.
    unfold page_is_open. simpl. repeat split; auto. lia.
Qed.

(** C9. [flog_open_sector(b, s)] is [flog_open_page(b, s / FS_SECTORS_PER_PAGE)];
    opening the page the cache already holds returns the stored result and
    calls nothing; in particular a second [flog_open_page] of the same page
    returns the result of the first and leaves the filesystem state, the
    driver and the list of calls as they were. *)
Theorem flog_open_page_cached (block page sector : Z) (e : env) :
  flog_open_sector block sector e
  = flog_open_page block (sector / FS_SECTORS_PER_PAGE) e
  /\ (page_is_open block page (flogfs e) ->
      flog_open_page block page e = (page_open_result (flogfs e), e))
  /\ (forall r e1, flog_open_page block page e = (r, e1) ->
                   flog_open_page block page e1 = (r, e1)).
Proof.
  split; [reflexivity|]. split; [apply flog_open_page_hit|].
  intros r e1 H.
  destruct (flog_open_page_opens block page e) as [Hopen Hres].
  rewrite H in Hopen, Hres. simpl in Hopen, Hres.
  rewrite (flog_open_page_hit _ _ _ Hopen). now rewrite Hres.
Qed.

End CacheFacts.

(** ** The inode iterator *)

Section IteratorFacts.
Context {cfg : Config} {F : Type} {drv : FlashDriver F}.

(** C8. One step of the iterator adds 2 to [sector] and 1 to [inode_idx]
    (in their [uint16_t] and [uint32_t] arithmetic, which is plain addition
    as long as the sums fit).  While the new sector is inside the block
    nothing else happens.  Once it has passed the last entry pair, the
    iterator moves to the block [next_block] names, opens that block's page
    0 through the cache, reads the new [next_block] from
    [FLOG_INODE_TAIL_SECTOR] and restarts at sector [FS_SECTORS_PER_PAGE]. *)
Theorem flog_inode_iterator_next_spec (iter : flog_inode_iterator_t) (e : env) :
  let sector' := wrap16 (iter_sector iter + 2) in
  let idx' := wrap32 (iter_inode_idx iter + 1) in
  (0 <= iter_sector iter -> iter_sector iter + 2 < 2 ^ 16 ->
   sector' = iter_sector iter + 2)
  /\ (0 <= iter_inode_idx iter -> iter_inode_idx iter + 1 < 2 ^ 32 ->
      idx' = iter_inode_idx iter + 1)
  /\ (sector' < FS_PAGES_PER_BLOCK * FS_SECTORS_PER_PAGE ->
      flog_inode_iterator_next iter e
      = (mkIter (iter_block iter) (iter_next_block iter) idx' sector', e))
  /\ (FS_PAGES_PER_BLOCK * FS_SECTORS_PER_PAGE <= sector' ->
      let e1 := snd (flog_open_page (iter_next_block iter) 0 e) in
      let tail := fit sizeof_block_idx
                    (flash_read_sector FLOG_INODE_TAIL_SECTOR 0
                       sizeof_block_idx (flash e1)) in
      flog_inode_iterator_next iter e
      = (mkIter (iter_next_block iter) (le_decode tail) idx'
           (wrap16 FS_SECTORS_PER_PAGE),
         mkEnv (flogfs e1) (flash e1)
           (calls e1 ++ [FlashReadSector FLOG_INODE_TAIL_SECTOR 0 sizeof_block_idx]))).
Proof.
  intros sector' idx'. repeat split.
  - intros H0 H1. unfold sector', wrap16. apply Z.mod_small. lia.
  - intros H0 H1. unfold idx', wrap32. apply Z.mod_small. lia.
  - intros H. unfold flog_inode_iterator_next. fold sector' idx'.
    destruct (Z.geb_spec sector' (FS_PAGES_PER_BLOCK * FS_SECTORS_PER_PAGE)); [lia|].
    reflexivity.
  - intros H e1 tail. unfold flog_inode_iterator_next. fold sector' idx'.
    destruct (Z.geb_spec sector' (FS_PAGES_PER_BLOCK * FS_SECTORS_PER_PAGE)); [|lia].
    unfold bind, read_next_block, do_flash_read_sector, driver, bind, ret.
    subst e1 tail.
    destruct (flog_open_page (iter_next_block iter) 0 e) as [r e1]. reflexivity.
Qed.

End IteratorFacts.

(** ** [flogfs_open_read]: the name-length guard *)

Section OpenReadGuard.
Context {cfg : Config} {F : Type} {drv : FlashDriver F}.

(** C10. A name of [FLOG_MAX_FNAME_LEN] characters or more makes
    [flogfs_open_read] return [FLOG_FAILURE] at once: the filesystem state
    (with its lock), the driver state and the list of calls are those of
    entry, and the file handle comes back as it was given. *)
Theorem flogfs_open_read_name_too_long
        (fuel : nat) (file : flog_read_file_t) (filename buf spare : list byte)
        (e : env) :
  (FLOG_MAX_FNAME_LEN <= strlen filename)%nat ->
  flogfs_open_read fuel file filename buf spare e
  = (Some (FLOG_FAILURE, file), e).
Proof.
  intros H. unfold flogfs_open_read.
  apply Nat.leb_le in H. now rewrite H.
Qed.

End OpenReadGuard.


(** ** The candidates that reach the recovery pass *)

Section Candidates.
Context {cfg : Config} {F : Type} {drv : FlashDriver F}.

Lemma candidate_init stack : candidate_in_range (mount_init_locals stack).
Proof. unfold candidate_in_range. cbn. lia. Qed.

Lemma candidate_update_max_block_age age L :
  candidate_in_range L -> candidate_in_range (update_max_block_age age L).
Proof. unfold update_max_block_age. now destruct (age >? max_block_age L). Qed.

Lemma candidate_scan_block i L (e : @env F) :
  candidate_in_range L -> candidate_in_range (fst (mount_scan_block i L e)).
Proof.
  intros HL. destruct (mount_scan_block i L e) as [L' e'] eqn:Hrun. cbn [fst].
  unfold mount_scan_block in Hrun. inv_bind Hrun.
  destruct (result_is_zero a); [now inv_ret Hrun|].
  inv_bind Hrun. destruct a0; [now inv_ret Hrun|].
  inv_bind Hrun.
  destruct (_ =? FLOG_BLOCK_TYPE_INODE).
  { do 2 inv_bind Hrun. inv_ret Hrun. apply candidate_update_max_block_age.
    destruct (le_decode a1 =? 4294967295); [|exact HL].
    destruct (_ =? 0); exact HL. }
  destruct (_ =? FLOG_BLOCK_TYPE_FILE).
  { do 2 inv_bind Hrun. inv_ret Hrun. apply candidate_update_max_block_age.
    destruct (_ =? 4294967295); [exact HL|].
    destruct (_ >? _); [|exact HL].
    intros _. cbn [last_allocation set_last_allocation la_age la_file_id].
    split.
    - apply (get_field_range file_tail_next_age).
    - apply (get_field_range file_sector0_file_id). }
  destruct (_ =? FLOG_BLOCK_TYPE_UNALLOCATED); inv_ret Hrun; exact HL.
Qed.

Lemma candidate_scan_blocks n : forall i L (e : @env F),
  candidate_in_range L -> candidate_in_range (fst (mount_scan_blocks n i L e)).
Proof.
  induction n as [|n IH]; intros i L e HL; [exact HL|].
  cbn [mount_scan_blocks]. unfold bind.
  pose proof (candidate_scan_block i L e HL) as H1.
  destruct (mount_scan_block i L e) as [L1 e1]. now apply IH.
Qed.

Lemma candidate_note_entry L :
  candidate_in_range L -> candidate_in_range (mount_note_entry L).
Proof.
  intros HL. unfold mount_note_entry.
  destruct (_ =? FLOG_TIMESTAMP_INVALID).
  - destruct (_ >? _); [|exact HL]. intros _.
    cbn [last_allocation set_last_allocation la_age la_file_id]. split.
    + apply (get_field_range alloc_first_block_age).
    + apply (get_field_range alloc_file_id).
  - destruct (_ >? _); exact HL.
Qed.

Lemma candidate_inode_walk fuel : forall it L (e : @env F) L' e',
  candidate_in_range L ->
  mount_inode_walk fuel it L e = (Some L', e') ->
  candidate_in_range L'.
Proof.
  induction fuel as [|fuel IH]; intros it L e L' e' HL Hrun.
  - inv_ret Hrun. discriminate.
  - cbn [mount_inode_walk] in Hrun. do 2 inv_bind Hrun.
    destruct (_ =? FLOG_FILE_ID_INVALID).
    + inv_ret Hrun. inversion H; subst. exact HL.
    + do 4 inv_bind Hrun. eapply IH; [|exact Hrun].
      apply candidate_note_entry. exact HL.
Qed.

(** Whenever [flogfs_mount] reaches its recovery pass, the last-allocation
    candidate is in range: the hypotheses of the repair statement hold in
    every run. *)
Lemma mount_candidate_in_range fuel stack (e : @env F) L e' :
  mount_inode_walk fuel (mount_first_iter stack e) (fst (mount_census stack e))
    (snd (flog_inode_iterator_init (inode0_idx (fst (mount_census stack e)))
            (snd (mount_census stack e))))
  = (Some L, e') ->
  candidate_in_range L.
Proof.
  apply candidate_inode_walk. unfold mount_census.
  apply candidate_scan_blocks, candidate_init.
Qed.

End Candidates.

(** ** [flogfs_mount]: repair of the last allocation *)

Section AllocationRecovery.
Context {cfg : Config} {F : Type} {drv : FlashDriver F}.

(** After [flog_open_sector(block, 0)], [flog_open_page(block, 0)] is a
    cache hit, whatever the driver did in between. *)
Lemma flog_open_page_after_open_sector (block : Z) (e : env) (f : F) (cs : list call) :
  let e0 := snd (flog_open_sector block 0 e) in
  flog_open_page block 0 (mkEnv (flogfs e0) f cs)
  = (page_open_result (flogfs e0), mkEnv (flogfs e0) f cs).
Proof.
  intros e0.
  apply (flog_open_page_hit block 0 (mkEnv (flogfs e0) f cs)). simpl.
  unfold e0, flog_open_sector. rewrite Zdiv_0_l.
  apply flog_open_page_opens.
Qed.

(** Lines 418-440 on their own.  When the candidate [last_allocation L]
    exists and sector 0 of its target block carries another file id,
    [mount_check_allocation] erases the target block, writes to sector 0 of
    the page opened there a header holding the announced age and the
    candidate's file id, writes a spare with type FILE and [nbytes] 0,
    commits, and sets the clock [t]. *)
Lemma mount_check_allocation_repairs (L : mount_locals) (e : env) :
  let la := last_allocation L in
  let e0 := snd (flog_open_sector (la_block la) 0 e) in
  let found := fit sizeof_file_sector0_header
                 (flash_read_sector 0 0 sizeof_file_sector0_header (flash e0)) in
  let e' := snd (mount_check_allocation L e) in
  LayoutOk ->
  candidate_in_range L ->
  la_timestamp la > 0 ->
  get_field file_sector0_file_id found <> la_file_id la ->
  exists header spare : list byte,
    length header = sizeof_file_sector0_header
    /\ get_field file_sector0_age header = la_age la
    /\ get_field file_sector0_file_id header = la_file_id la
    /\ length spare = sizeof_spare
    /\ get_field file_spare_type_id spare = FLOG_BLOCK_TYPE_FILE
    /\ get_field file_spare_nbytes spare = 0
    /\ calls e' = calls e0 ++ [FlashReadSector 0 0 sizeof_file_sector0_header;
                               FlashEraseBlock (la_block la);
                               FlashWriteSector header 0 0;
                               FlashWriteSpare spare 0;
                               FlashCommit]
    /\ flash e' = flash_commit
                    (flash_write_spare spare 0
                       (flash_write_sector header 0 0
                          (snd (flash_erase_block (la_block la) (flash e0)))))
    /\ t (flogfs e') = wrap32 (la_timestamp la + 1)
    /\ (la_timestamp la + 1 < 2 ^ 32 -> t (flogfs e') = la_timestamp la + 1).
Proof.
  intros la e0 found e' OK Hrange Hts Hne.
  destruct (Hrange Hts) as [Hage Hid]. fold la in Hage, Hid.
  assert (Hblit : get_field file_sector0_file_id (blit found (sector0_buffer L))
                  = get_field file_sector0_file_id found).
  { apply get_field_blit. unfold found. rewrite length_fit.
    apply file_sector0_file_id_in. }
  set (hdr := set_field file_sector0_file_id (la_file_id la)
                (set_field file_sector0_age (la_age la)
                   (blit found (sector0_buffer L)))).
  set (sp := set_field file_spare_type_id FLOG_BLOCK_TYPE_FILE
               (set_field file_spare_nothing 0
                  (set_field file_spare_nbytes 0 (spare_buffer L)))).
  exists (fit sizeof_file_sector0_header hdr), (fit sizeof_spare sp).
  assert (He' : e' = mkEnv (set_t (wrap32 (la_timestamp la + 1)) (flogfs e0))
                       (flash_commit
                          (flash_write_spare (fit sizeof_spare sp) 0
                             (flash_write_sector (fit sizeof_file_sector0_header hdr) 0 0
                                (snd (flash_erase_block (la_block la) (flash e0))))))
                       (calls e0 ++ [FlashReadSector 0 0 sizeof_file_sector0_header;
                                     FlashEraseBlock (la_block la);
                                     FlashWriteSector (fit sizeof_file_sector0_header hdr) 0 0;
                                     FlashWriteSpare (fit sizeof_spare sp) 0;
                                     FlashCommit])).
  { unfold e', mount_check_allocation. fold la.
    destruct (Z.gtb_spec (la_timestamp la) 0) as [_|]; [|lia].
    unfold bind at 1.
    destruct (flog_open_sector (la_block la) 0 e) as [r0 e0'] eqn:E0.
    cbn [snd] in e0. subst e0.
    unfold bind at 1, do_flash_read_sector at 1, driver at 1.
    fold found. cbn [sector0_buffer set_sector0_buffer].
    rewrite Hblit.
    destruct (Z.eqb_spec (get_field file_sector0_file_id found) (la_file_id la));
      [contradiction|].
    cbn [negb].
    unfold bind at 1, do_flash_erase_block at 1, driver at 1. cbn [flash flogfs calls].
    destruct (flash_erase_block (la_block la) (flash e0')) as [re fe] eqn:Ee.
    unfold bind at 1.
    pose proof (flog_open_page_after_open_sector (la_block la) e fe
                  ((calls e0' ++ [FlashReadSector 0 0 sizeof_file_sector0_header])
                     ++ [FlashEraseBlock (la_block la)])) as Hhit.
    rewrite E0 in Hhit. cbn [snd] in Hhit. rewrite Hhit.
    unfold bind, do_flash_write_sector, do_flash_write_spare, do_flash_commit,
      driver, modify_fs, ret.
    cbn. fold hdr sp. rewrite <- !app_assoc. reflexivity. }
  rewrite He'. cbn [calls flash flogfs t set_t].
  repeat split.
  - apply length_fit.
  - rewrite get_field_fit by apply file_sector0_age_in.
    unfold hdr. rewrite get_set_other by (apply or_comm, file_sector0_disjoint).
    rewrite get_set_same. apply Z.mod_small. exact Hage.
  - rewrite get_field_fit by apply file_sector0_file_id_in.
    unfold hdr. rewrite get_set_same. apply Z.mod_small. exact Hid.
  - apply length_fit.
  - rewrite get_field_fit by apply file_spare_type_id_in.
    unfold sp. rewrite get_set_same. apply Z.mod_small, block_type_file_range.
  - rewrite get_field_fit by apply file_spare_nbytes_in.
    unfold sp. rewrite get_set_other by apply file_spare_type_id_nbytes.
    rewrite get_set_other by apply file_spare_nothing_nbytes.
    rewrite get_set_same. apply Z.mod_0_l.
    apply Z.pow_nonzero; lia.
  - intros Hsmall. unfold wrap32. apply Z.mod_small. lia.
Qed.

End AllocationRecovery.

(** ** Views of the environment that the functions leave alone *)

Section Keeps.
Context {cfg : Config} {F : Type} {drv : FlashDriver F} {X : Type}.
Variable proj : @env F -> X.

Lemma keeps_ret {A} (a : A) : keeps proj (ret a).
Proof. intros e. reflexivity. Qed.

Lemma keeps_bind {A B} (m : M A) (k : A -> M B) :
  keeps proj m -> (forall a, keeps proj (k a)) -> keeps proj (bind m k).
Proof.
  intros Hm Hk e. unfold bind. destruct (m e) as [a e1] eqn:E.
  rewrite Hk. specialize (Hm e). now rewrite E in Hm.
Qed.

Lemma keeps_get_fs : keeps proj get_fs.
Proof. intros e. reflexivity. Qed.
End Keeps.

Create HintDb keeps discriminated.

Ltac unfold_driver :=
  unfold do_flash_init, do_flash_lock, do_flash_unlock, do_flash_open_page,
    do_flash_close_page, do_flash_block_is_bad, do_flash_erase_block,
    do_flash_read_sector, do_flash_read_spare, do_flash_write_sector,
    do_flash_write_spare, do_flash_commit, do_flash_debug_warn,
    do_flash_debug_error.

Ltac keeps_step :=
  first
    [ apply keeps_ret
    | apply keeps_get_fs
    | solve [auto with keeps]
    | progress unfold_driver
    | progress cbv zeta
    | match goal with
      | |- keeps _ (if ?c then _ else _) => destruct c
      | |- keeps _ (match ?x with _ => _ end) => destruct x
      end
    | apply keeps_bind; [| intros ?] ].

Ltac keeps_tac := repeat keeps_step.

Section KeepsFields.
Context {cfg : Config} {F : Type} {drv : FlashDriver F}.

(** The driver never touches [flogfs]. *)
Lemma keeps_fs_driver {X A} (g : flogfs_t -> X) (c : call) (op : F -> A * F) :
  keeps (fun e : @env F => g (flogfs e)) (driver c op).
Proof. intros e. unfold driver. now destruct (op (flash e)). Qed.

Lemma keeps_fs_modify {X} (g : flogfs_t -> X) (u : flogfs_t -> flogfs_t) :
  (forall fs, g (u fs) = g fs) -> keeps (fun e : @env F => g (flogfs e)) (modify_fs u).
Proof. intros H e. apply H. Qed.

Lemma keeps_fs_lock {X} (g : flogfs_t -> X) :
  (forall b fs, g (set_lock b fs) = g fs) ->
  keeps (fun e : @env F => g (flogfs e)) fs_lock /\ keeps (fun e : @env F => g (flogfs e)) fs_unlock.
Proof. intros H. split; intros e; apply H. Qed.
End KeepsFields.

#[export] Hint Extern 1 (keeps _ (driver _ _)) => apply keeps_fs_driver : keeps.
#[export] Hint Extern 1 (keeps _ (modify_fs _)) =>
  apply keeps_fs_modify; intros; reflexivity : keeps.
#[export] Hint Extern 1 (keeps _ fs_lock) =>
  apply keeps_fs_lock; intros; reflexivity : keeps.
#[export] Hint Extern 1 (keeps _ fs_unlock) =>
  apply keeps_fs_lock; intros; reflexivity : keeps.


Section Persistent.
Context {cfg : Config} {F : Type} {drv : FlashDriver F}.

Local Notation "'PERSISTENT'" := (fun e : @env F => persistent (flogfs e)).
(* every field but the lock *)
Local Notation "'BUT_LOCK'" := (fun e : @env F => set_lock false (flogfs e)).

Lemma persistent_flog_open_page b p : keeps PERSISTENT (flog_open_page b p).
Proof. unfold flog_open_page. keeps_tac. Qed.
Hint Resolve persistent_flog_open_page : keeps.

Lemma persistent_flog_open_sector b s : keeps PERSISTENT (flog_open_sector b s).
Proof. unfold flog_open_sector. auto with keeps. Qed.
Hint Resolve persistent_flog_open_sector : keeps.

Lemma persistent_iterator_init b : keeps PERSISTENT (flog_inode_iterator_init b).
Proof. unfold flog_inode_iterator_init, read_next_block. keeps_tac. Qed.

Lemma persistent_iterator_next it : keeps PERSISTENT (flog_inode_iterator_next it).
Proof. unfold flog_inode_iterator_next, read_next_block. keeps_tac. Qed.
Hint Resolve persistent_iterator_init persistent_iterator_next : keeps.

Lemma persistent_scan_blocks n i L : keeps PERSISTENT (mount_scan_blocks n i L).
Proof.
  revert i L. induction n; intros i L; simpl.
  - keeps_tac.
  - apply keeps_bind; [|auto]. unfold mount_scan_block. keeps_tac.
Qed.

Lemma persistent_inode_walk fuel it L : keeps PERSISTENT (mount_inode_walk fuel it L).
Proof.
  revert it L. induction fuel; intros it L; simpl; keeps_tac.
Qed.

Lemma persistent_check_allocation L : keeps PERSISTENT (mount_check_allocation L).
Proof. unfold mount_check_allocation. keeps_tac. Qed.

Lemma persistent_check_deletion L : keeps PERSISTENT (mount_check_deletion L).
Proof. unfold mount_check_deletion. keeps_tac. Qed.
Hint Resolve persistent_scan_blocks persistent_inode_walk
  persistent_check_allocation persistent_check_deletion : keeps.

Lemma persistent_mount fuel stack : keeps PERSISTENT (flogfs_mount fuel stack).
Proof. unfold flogfs_mount, mount_success, mount_failure. keeps_tac. Qed.

Lemma persistent_open_read_loop fuel name it file buf spare :
  keeps PERSISTENT (open_read_loop fuel name it file buf spare).
Proof.
  revert it buf. induction fuel; intros it buf; simpl; unfold open_read_position; keeps_tac.
Qed.
Hint Resolve persistent_open_read_loop : keeps.

Lemma persistent_open_read fuel file name buf spare :
  keeps PERSISTENT (flogfs_open_read fuel file name buf spare).
Proof. unfold flogfs_open_read. keeps_tac. Qed.

Lemma but_lock_format_erase_loop n i : keeps BUT_LOCK (format_erase_loop n i).
Proof. revert i. induction n; intros i; simpl; keeps_tac. Qed.
Hint Resolve but_lock_format_erase_loop : keeps.

Lemma but_lock_format buf : keeps BUT_LOCK (flogfs_format buf).
Proof. unfold flogfs_format. keeps_tac. Qed.

Lemma but_lock_scan_blocks n i L : keeps BUT_LOCK (mount_scan_blocks n i L).
Proof.
  revert i L. induction n; intros i L; simpl.
  - keeps_tac.
  - apply keeps_bind; [|auto]. unfold mount_scan_block. keeps_tac.
Qed.
End Persistent.

(** ** The exits of the public operations *)

Section Exits.
Context {cfg : Config} {F : Type} {drv : FlashDriver F}.

Lemma flash_lock_held_app h l1 l2 :
  flash_lock_held h (l1 ++ l2) = flash_lock_held (flash_lock_held h l1) l2.
Proof. unfold flash_lock_held. apply fold_left_app. Qed.

Lemma set_lock_same fs : set_lock (lock fs) fs = fs.
Proof. now destruct fs. Qed.

Lemma unlocked_exit_free (e' : @env F) : unlocked_exit e' -> locks_free e'.
Proof.
  intros (Hl & l & [H|H]); split; auto; rewrite H, flash_lock_held_app; reflexivity.
Qed.

Lemma mount_success_exit r e e' : mount_success e = (r, e') -> unlocked_exit e'.
Proof.
  unfold mount_success, bind, do_flash_unlock, driver, fs_unlock, ret. simpl.
  intros H. inversion H; subst. split; [reflexivity|].
  exists (calls e). left. simpl. now rewrite <- app_assoc.
Qed.

Lemma mount_failure_exit r e e' : mount_failure e = (r, e') -> unlocked_exit e'.
Proof.
  unfold mount_failure, bind, do_flash_unlock, driver, fs_unlock, ret. simpl.
  intros H. inversion H; subst. split; [reflexivity|].
  exists (calls e). left. simpl. now rewrite <- app_assoc.
Qed.

Lemma flogfs_mount_exit fuel stack e r e' :
  flogfs_mount fuel stack e = (Some r, e') -> unlocked_exit e'.
Proof.
  unfold flogfs_mount. intros H. do 3 inv_bind H.
  destruct (inode0_idx a1 =? FLOG_BLOCK_IDX_INVALID).
  - do 2 inv_bind H. inv_ret H. eapply mount_failure_exit; eauto.
  - do 2 inv_bind H. destruct a3 as [L'|].
    + do 2 inv_bind H. destruct (fst a4); inv_bind H; inv_ret H.
      * eapply mount_success_exit; eauto.
      * eapply mount_failure_exit; eauto.
    + inv_ret H. discriminate.
Qed.

Lemma format_erase_loop_exit n i e r e' :
  format_erase_loop n i e = (Some r, e') -> unlocked_exit e'.
Proof.
  revert i e. induction n; intros i e H; cbn [format_erase_loop] in H.
  - inv_ret H. discriminate.
  - do 2 inv_bind H. destruct a0; cbn [negb] in H.
    + eapply IHn; eauto.
    + inv_bind H. destruct (result_eqb FLOG_FAILURE a0).
      * unfold bind, fs_unlock, do_flash_unlock, driver, ret in H. simpl in H.
        inversion H; subst. split; [reflexivity|].
        exists (calls e2). right. simpl. now rewrite <- app_assoc.
      * eapply IHn; eauto.
Qed.

Lemma flogfs_format_failure_exit buf e e' :
  flogfs_format buf e = (FLOG_FAILURE, e') -> unlocked_exit e'.
Proof.
  unfold flogfs_format. intros H. do 2 inv_bind H. destruct a0 as [r|].
  - inv_ret H. eapply format_erase_loop_exit; eauto.
  - repeat inv_bind H. apply ret_inv in H. destruct H; discriminate.
Qed.

Lemma open_read_tail (out : option flog_read_file_t) (e : @env F) res e' :
  match out with
  | None => ret None
  | Some file' =>
      bind do_flash_unlock (fun _ =>
      bind fs_unlock (fun _ => ret (Some (FLOG_FAILURE, file'))))
  end e = (Some res, e') ->
  fst res = FLOG_FAILURE /\ unlocked_exit e'.
Proof.
  destruct out as [f'|]; intros H.
  - unfold bind, do_flash_unlock, driver, fs_unlock, ret in H. simpl in H.
    inversion H; subst. split; [reflexivity|]. split; [reflexivity|].
    exists (calls e). left. simpl. now rewrite <- app_assoc.
  - inv_ret H. discriminate.
Qed.

Lemma flogfs_open_read_exit fuel file name buf spare e out e' :
  flogfs_open_read fuel file name buf spare e = (Some out, e') ->
  e' = e \/ unlocked_exit e'.
Proof.
  unfold flogfs_open_read. intros H.
  destruct (FLOG_MAX_FNAME_LEN <=? strlen name)%nat.
  - inv_ret H. auto.
  - do 4 inv_bind H. right. eapply open_read_tail; eauto.
Qed.

(** [flogfs_open_read] has no path that returns [FLOG_SUCCESS]: both the
    [break] and the [goto failure] of its loop end in
    [return FLOG_FAILURE] (line 552). *)
Lemma flogfs_open_read_never_succeeds fuel file name buf spare e r file' e' :
  flogfs_open_read fuel file name buf spare e = (Some (r, file'), e') ->
  r = FLOG_FAILURE.
Proof.
  unfold flogfs_open_read. intros H.
  destruct (FLOG_MAX_FNAME_LEN <=? strlen name)%nat.
  - inv_ret H. congruence.
  - do 4 inv_bind H. apply open_read_tail in H. apply H.
Qed.

(** [flogfs_init] resets its fields first and then returns whatever
    [flash_init] returns. *)
Lemma flogfs_init_resets_first (e : @env F) :
  fst (flogfs_init e) = fst (flash_init (flash e))
  /\ state (flogfs (snd (flogfs_init e))) = FLOG_STATE_RESET
  /\ max_file_id (flogfs (snd (flogfs_init e))) = 0
  /\ max_block_sequence (flogfs (snd (flogfs_init e))) = 0
  /\ page_open (flogfs (snd (flogfs_init e))) = 0.
Proof.
  unfold flogfs_init, bind, modify_fs, do_flash_init, driver. cbn [flogfs flash calls].
  destruct (flash_init (flash e)) as [r f]. repeat split.
Qed.

Local Notation "'OUTSIDE_CACHE'" := (fun e : @env F => outside_cache (flogfs e)).

Lemma outside_cache_flog_open_page b p : keeps OUTSIDE_CACHE (flog_open_page b p).
Proof. unfold flog_open_page. keeps_tac. Qed.
Hint Resolve outside_cache_flog_open_page : keeps.

Lemma outside_cache_flog_open_sector b s : keeps OUTSIDE_CACHE (flog_open_sector b s).
Proof. unfold flog_open_sector. auto with keeps. Qed.
Hint Resolve outside_cache_flog_open_sector : keeps.

Lemma outside_cache_iterator_init b : keeps OUTSIDE_CACHE (flog_inode_iterator_init b).
Proof. unfold flog_inode_iterator_init, read_next_block. keeps_tac. Qed.

Lemma outside_cache_iterator_next it : keeps OUTSIDE_CACHE (flog_inode_iterator_next it).
Proof. unfold flog_inode_iterator_next, read_next_block. keeps_tac. Qed.
Hint Resolve outside_cache_iterator_init outside_cache_iterator_next : keeps.

Lemma outside_cache_open_read_loop fuel name it file buf spare :
  keeps OUTSIDE_CACHE (open_read_loop fuel name it file buf spare).
Proof.
  revert it buf. induction fuel; intros it buf; simpl; unfold open_read_position; keeps_tac.
Qed.
Hint Resolve outside_cache_open_read_loop : keeps.

(** [flogfs_open_read] assigns no field of [flogfs] but those of the page
    cache (and the lock, which it releases). *)
Lemma outside_cache_open_read fuel file name buf spare :
  keeps OUTSIDE_CACHE (flogfs_open_read fuel file name buf spare).
Proof. unfold flogfs_open_read. keeps_tac. Qed.

(** A [flogfs_mount] whose census finds no inode table 0 has touched no
    field of [flogfs] but the lock: the census calls the driver directly. *)
Lemma mount_without_inode0_keeps_state fuel stack (e : @env F) :
  inode0_idx (fst (mount_census stack e)) = FLOG_BLOCK_IDX_INVALID ->
  set_lock false (flogfs (snd (flogfs_mount fuel stack e))) = set_lock false (flogfs e).
Proof.
  intros Hnone. unfold mount_census in Hnone.
  destruct (flogfs_mount fuel stack e) as [res e'] eqn:Hrun. cbn [snd].
  unfold flogfs_mount in Hrun.
  run_bind Hrun as u0 e0 Hlock. run_bind Hrun as u1 e1 Hflock.
  run_bind Hrun as L1 e2 Hscan.
  rewrite Hlock in Hnone. cbn [snd] in Hnone. rewrite Hflock in Hnone. cbn [snd] in Hnone.
  rewrite Hscan in Hnone. cbn [fst] in Hnone. rewrite Hnone in Hrun.
  change (FLOG_BLOCK_IDX_INVALID =? FLOG_BLOCK_IDX_INVALID) with true in Hrun.
  cbv iota in Hrun.
  unfold fs_lock in Hlock. inversion Hlock; subst u0 e0; clear Hlock.
  inv_driver Hflock.
  kept (but_lock_scan_blocks (Z.to_nat FS_NUM_BLOCKS) 0 (mount_init_locals stack)) Hscan.
  cbn [flogfs] in Hk.
  unfold bind, do_flash_debug_error, mount_failure, bind, do_flash_unlock, driver,
    fs_unlock, ret in Hrun.
  cbn in Hrun. inversion Hrun; subst res e'; clear Hrun. cbn [flogfs].
  transitivity (set_lock false (flogfs e2)); [now destruct (flogfs e2)|].
  rewrite Hk. now destruct (flogfs e).
Qed.

(** C6, as the code has it.  Let an operation be entered with both locks
    free and return [FLOG_FAILURE]; then both locks are free again, and:
    [flogfs_format] has left every field of [flogfs] at its entry value;
    [flogfs_mount] has left every field outside [max_file_id], [t] and the
    page cache at its entry value, and every field if its census found no
    inode table 0; [flogfs_open_read] has left every field outside the page
    cache at its entry value.  [flogfs_init], which takes no lock, returns
    [FLOG_FAILURE] only when [flash_init] does, and has by then reset
    [state], [max_file_id], [max_block_sequence] and [page_open], leaving the
    other fields as they were. *)
Theorem failure_keeps_persistent_fields (e : env) :
  locks_free e ->
  (forall buf e',
      flogfs_format buf e = (FLOG_FAILURE, e') ->
      flogfs e' = flogfs e /\ locks_free e')
  /\ (forall fuel stack e',
         flogfs_mount fuel stack e = (Some FLOG_FAILURE, e') ->
         locks_free e'
         /\ persistent (flogfs e') = persistent (flogfs e)
         /\ (inode0_idx (fst (mount_census stack e)) = FLOG_BLOCK_IDX_INVALID ->
             flogfs e' = flogfs e))
  /\ (forall fuel file name buf spare file' e',
         flogfs_open_read fuel file name buf spare e
         = (Some (FLOG_FAILURE, file'), e') ->
         outside_cache (flogfs e') = outside_cache (flogfs e) /\ locks_free e')
  /\ (forall e',
         flogfs_init e = (FLOG_FAILURE, e') ->
         fst (flash_init (flash e)) = FLOG_FAILURE
         /\ state (flogfs e') = FLOG_STATE_RESET
         /\ max_file_id (flogfs e') = 0
         /\ max_block_sequence (flogfs e') = 0
         /\ page_open (flogfs e') = 0
         /\ outside_init (flogfs e') = outside_init (flogfs e)
         /\ locks_free e').
Proof.
  intros Hfree. split; [|split; [|split]].
  - intros buf e' H. pose proof (but_lock_format buf e) as K. rewrite H in K. simpl in K.
    apply flogfs_format_failure_exit in H. split; [|now apply unlocked_exit_free].
    destruct H as [Hl _]. destruct Hfree as [Hl0 _].
    rewrite <- (set_lock_same (flogfs e')), <- (set_lock_same (flogfs e)).
    now rewrite Hl, Hl0.
  - intros fuel stack e' H.
    pose proof (flogfs_mount_exit _ _ _ _ _ H) as Hexit.
    split; [now apply unlocked_exit_free|]. split.
    + pose proof (persistent_mount fuel stack e) as K. now rewrite H in K.
    + intros Hnone.
      pose proof (mount_without_inode0_keeps_state fuel stack e Hnone) as K.
      rewrite H in K. cbn [snd] in K.
      destruct Hexit as [Hl _]. destruct Hfree as [Hl0 _].
      rewrite <- (set_lock_same (flogfs e')), <- (set_lock_same (flogfs e)).
      now rewrite Hl, Hl0.
  - intros fuel file name buf spare file' e' H. split.
    + pose proof (outside_cache_open_read fuel file name buf spare e) as K.
      now rewrite H in K.
    + apply flogfs_open_read_exit in H. destruct H as [->|H]; [apply Hfree|].
      now apply unlocked_exit_free.
  - intros e' H. unfold flogfs_init, bind, modify_fs, do_flash_init, driver in H.
    cbn [flogfs flash calls] in H.
    destruct (flash_init (flash e)) as [r f]. inversion H; subst. cbn [flogfs calls fst].
    repeat split.
    + apply Hfree.
    + destruct Hfree as [Hl Hf]. cbn [calls]. rewrite flash_lock_held_app, Hf. reflexivity.
Qed.

End Exits.

(** ** Which passes of [flogfs_mount] write to the medium *)

Section Writes.
Context {cfg : Config} {F : Type} {drv : FlashDriver F}.

Lemma keeps_writes_driver {A} (c : call) (op : F -> A * F) :
  is_write_call c = false ->
  keeps (fun e : @env F => filter is_write_call (calls e)) (driver c op).
Proof.
  intros H e. unfold driver. destruct (op (flash e)). cbn [snd calls].
  rewrite filter_app. cbn [filter]. rewrite H. apply app_nil_r.
Qed.

Lemma keeps_writes_fs (u : flogfs_t -> flogfs_t) :
  keeps (fun e : @env F => filter is_write_call (calls e)) (modify_fs u)
  /\ keeps (fun e : @env F => filter is_write_call (calls e)) fs_lock
  /\ keeps (fun e : @env F => filter is_write_call (calls e)) fs_unlock.
Proof.
  repeat split; intros e; cbn [snd calls fs_lock fs_unlock];
    rewrite ?filter_app; cbn [filter is_write_call]; auto using app_nil_r.
Qed.

End Writes.

#[export] Hint Extern 2 (keeps (fun e => filter is_write_call (calls e)) (driver _ _)) =>
  apply keeps_writes_driver; reflexivity : keeps.
#[export] Hint Extern 2 (keeps (fun e => filter is_write_call (calls e)) (modify_fs _)) =>
  apply keeps_writes_fs : keeps.
#[export] Hint Extern 2 (keeps (fun e => filter is_write_call (calls e)) fs_lock) =>
  apply (keeps_writes_fs (fun x => x)) : keeps.
#[export] Hint Extern 2 (keeps (fun e => filter is_write_call (calls e)) fs_unlock) =>
  apply (keeps_writes_fs (fun x => x)) : keeps.

Section ReadOnlyPasses.
Context {cfg : Config} {F : Type} {drv : FlashDriver F}.

Local Notation "'WRITES'" := (fun e : @env F => filter is_write_call (calls e)).

Lemma no_write_flog_open_page b p : keeps WRITES (flog_open_page b p).
Proof. unfold flog_open_page. keeps_tac. Qed.
Hint Resolve no_write_flog_open_page : keeps.

Lemma no_write_iterator_init b : keeps WRITES (flog_inode_iterator_init b).
Proof. unfold flog_inode_iterator_init, read_next_block. keeps_tac. Qed.

Lemma no_write_iterator_next it : keeps WRITES (flog_inode_iterator_next it).
Proof. unfold flog_inode_iterator_next, read_next_block. keeps_tac. Qed.
Hint Resolve no_write_iterator_init no_write_iterator_next : keeps.

(** The census loop, the inode walk and the deletion check of
    [flogfs_mount] make no erase, write or commit call, whatever the medium
    holds: the one place where [flogfs_mount] writes is the repair of the last
    allocation. *)
Lemma no_write_scan_blocks n i L : keeps WRITES (mount_scan_blocks n i L).
Proof.
  revert i L. induction n; intros i L; simpl.
  - keeps_tac.
  - apply keeps_bind; [|auto]. unfold mount_scan_block. keeps_tac.
Qed.

Lemma no_write_inode_walk fuel it L : keeps WRITES (mount_inode_walk fuel it L).
Proof.
  revert it L. induction fuel; intros it L; simpl; unfold flog_open_sector; keeps_tac.
Qed.

Lemma no_write_check_deletion L : keeps WRITES (mount_check_deletion L).
Proof. unfold mount_check_deletion, flog_open_sector. keeps_tac. Qed.

(** The cursor [flogfs_open_read] leaves in the handle for an entry it
    accepts: sector 0 behind the file header when the spare of sector 0 counts
    bytes, sector 1 from its start otherwise, with the byte count of that
    sector's spare. *)
Lemma open_read_position_cursor `{!LayoutOk} file buf spare (e : @env F) :
  let block := get_field alloc_first_block buf in
  let e0 := snd (flog_open_sector block 0 e) in
  let sp0 := fit sizeof_spare (flash_read_spare 0 (flash e0)) in
  let e1 := snd (flog_open_sector block 1
                   (mkEnv (flogfs e0) (flash e0) (calls e0 ++ [FlashReadSpare 0]))) in
  let sp1 := fit sizeof_spare (flash_read_spare 1 (flash e1)) in
  fst (open_read_position file buf spare e)
  = if get_field file_spare_nbytes sp0 =? 0
    then mkReadFile (get_field alloc_file_id buf) block 1 0
           (get_field file_spare_nbytes sp1)
    else mkReadFile (get_field alloc_file_id buf) block 0
           (Z.of_nat sizeof_file_sector0_header) (get_field file_spare_nbytes sp0).
Proof.
  intros block e0 sp0 e1 sp1. unfold open_read_position. fold block.
  unfold bind at 1. subst e0 sp0 e1 sp1.
  destruct (flog_open_sector block 0 e) as [r0 e0]. cbn [snd].
  unfold bind at 1, do_flash_read_spare at 1, driver at 1.
  rewrite get_field_blit by (rewrite length_fit; apply file_spare_nbytes_in).
  destruct (get_field file_spare_nbytes
              (fit sizeof_spare (flash_read_spare 0 (flash e0))) =? 0); cbn [negb].
  - unfold bind at 1.
    destruct (flog_open_sector block 1 _) as [r1 e1]. cbn [snd].
    unfold bind, do_flash_read_spare, driver, ret. cbn [fst].
    now rewrite get_field_blit by (rewrite length_fit; apply file_spare_nbytes_in).
  - reflexivity.
Qed.

End ReadOnlyPasses.


(** ** The functions on the NAND simulation *)

Section OnNand.
Context {cfg : Config}.

Lemma fit_exact n (l : list byte) : length l = n -> fit n l = l.
Proof.
  intros H. unfold fit. rewrite firstn_app, H, Nat.sub_diag, firstn_O, app_nil_r.
  rewrite <- H. apply firstn_all.
Qed.

Lemma length_read_bytes c off n : length (Nand.read_bytes c off n) = n.
Proof. unfold Nand.read_bytes. now rewrite length_map, length_seq. Qed.

Lemma length_cells f b p s n : length (cells f b p s n) = n.
Proof.
  unfold cells. destruct (Nand.in_range b p).
  - apply length_read_bytes.
  - apply repeat_length.
Qed.

Lemma nth_read_bytes c off n i :
  (i < n)%nat -> nth i (Nand.read_bytes c off n) Byte.x00 = c (off + i)%nat.
Proof.
  intros H. unfold Nand.read_bytes.
  rewrite nth_indep with (d' := c 0%nat) by (rewrite length_map, length_seq; lia).
  rewrite map_nth. now rewrite seq_nth.
Qed.

(** Reading from the page the driver holds. *)
Lemma nand_read_sector (e : @env Nand.nand) b p s n :
  Nand.opened (flash e) = open_target b p ->
  do_flash_read_sector s 0 n e
  = (cells (flash e) b p s n,
     mkEnv (flogfs e) (flash e) (calls e ++ [FlashReadSector s 0 n])).
Proof.
  intros H. unfold do_flash_read_sector, driver. cbn [flash_read_sector Nand.driver].
  f_equal. unfold Nand.read_sector, cells. rewrite H. unfold open_target.
  destruct (Nand.in_range b p).
  - apply fit_exact, length_read_bytes.
  - apply fit_exact, repeat_length.
Qed.

Lemma nand_read_spare (e : @env Nand.nand) b p s :
  Nand.opened (flash e) = open_target b p ->
  do_flash_read_spare s e
  = (spare_cells (flash e) b p s,
     mkEnv (flogfs e) (flash e) (calls e ++ [FlashReadSpare s])).
Proof.
  intros H. unfold do_flash_read_spare, driver. cbn [flash_read_spare Nand.driver].
  f_equal. unfold Nand.read_spare, spare_cells. rewrite H. unfold open_target.
  destruct (Nand.in_range b p).
  - apply fit_exact, length_read_bytes.
  - apply fit_exact, repeat_length.
Qed.

Lemma nand_open_page (e : @env Nand.nand) b p :
  do_flash_open_page b p e
  = (if Nand.in_range b p then FLOG_SUCCESS else FLOG_FAILURE,
     mkEnv (flogfs e) (Nand.set_opened (open_target b p) (flash e))
       (calls e ++ [FlashOpenPage b p])).
Proof.
  unfold do_flash_open_page, driver. cbn [flash_open_page Nand.driver].
  unfold Nand.open_page, open_target. now destruct (Nand.in_range b p).
Qed.

Lemma nand_flog_open_page (e : @env Nand.nand) b p :
  coherent e \/ ~ page_is_open b p (flogfs e) ->
  walk_state e (max_file_id (flogfs e)) (snd (flog_open_page b p e))
  /\ Nand.opened (flash (snd (flog_open_page b p e))) = open_target b p.
Proof.
  intros H. unfold flog_open_page, bind, get_fs, ret.
  destruct (negb (page_open (flogfs e) =? 0)
            && (current_open_block (flogfs e) =? b)
            && (current_open_page (flogfs e) =? p)) eqn:E.
  - apply andb_prop in E as [E Hp]. apply andb_prop in E as [Ho Hb].
    apply negb_true_iff, Z.eqb_neq in Ho. apply Z.eqb_eq in Hb, Hp.
    simpl. destruct H as [H|H].
    + split; [repeat split; auto|]. rewrite (H Ho). now subst.
    + exfalso. apply H. unfold page_is_open. auto.
  - rewrite nand_open_page. unfold modify_fs. simpl.
    split; [repeat split|reflexivity].
Qed.


Lemma cells_medium f f' b p s n : medium f = medium f' -> cells f b p s n = cells f' b p s n.
Proof. unfold medium, cells. intros H. inversion H as [[Hd Hs Hb]]. now rewrite Hd. Qed.

Lemma chain_file_ids_medium fuel f f' :
  medium f = medium f' ->
  forall b nb s, chain_file_ids fuel f b nb s = chain_file_ids fuel f' b nb s.
Proof.
  intros H. induction fuel; intros b nb s; cbn [chain_file_ids]; auto.
  unfold entry_file_id, inode_tail_link.
  rewrite !(cells_medium f f') by assumption. now rewrite !IHfuel.
Qed.

Lemma walk_state_trans e id e1 id' e2 :
  walk_state e id e1 -> walk_state e1 id' e2 -> walk_state e id' e2.
Proof.
  intros (Hm & _ & _) (Hm' & Hid & Hc). repeat split; auto. congruence.
Qed.

Lemma nand_iterator_next (e : @env Nand.nand) iter :
  coherent e ->
  walk_state e (max_file_id (flogfs e)) (snd (flog_inode_iterator_next iter e))
  /\ fst (flog_inode_iterator_next iter e)
     = if wrap16 (iter_sector iter + 2) >=? FS_PAGES_PER_BLOCK * FS_SECTORS_PER_PAGE
       then mkIter (iter_next_block iter)
              (inode_tail_link (flash e) (iter_next_block iter))
              (wrap32 (iter_inode_idx iter + 1)) (wrap16 FS_SECTORS_PER_PAGE)
       else mkIter (iter_block iter) (iter_next_block iter)
              (wrap32 (iter_inode_idx iter + 1)) (wrap16 (iter_sector iter + 2)).
Proof.
  intros Hc. destruct (flog_inode_iterator_next iter e) as [it' e'] eqn:Hrun.
  cbn [fst snd]. unfold flog_inode_iterator_next in Hrun.
  destruct (wrap16 (iter_sector iter + 2) >=? FS_PAGES_PER_BLOCK * FS_SECTORS_PER_PAGE).
  - inv_bind Hrun.
    destruct (nand_flog_open_page e (iter_next_block iter) 0 (or_introl Hc))
      as [(Hmed & Hid & Hc1) Ho].
    rewrite Hm in Hmed, Hid, Hc1, Ho. cbn [snd] in Hmed, Hid, Hc1, Ho.
    inv_bind Hrun. unfold read_next_block in Hm0. inv_bind Hm0.
    rewrite (nand_read_sector e0 _ _ _ _ Ho) in Hm1.
    inversion Hm1; subst. inv_ret Hm0. inv_ret Hrun.
    split; [repeat split; auto|].
    unfold inode_tail_link. now rewrite (cells_medium _ _ _ _ _ _ Hmed).
  - inv_ret Hrun. split; [|reflexivity]. repeat split; auto.
Qed.

Lemma last_cons_default {A} (a d : A) l : last (a :: l) d = last l a.
Proof.
  revert a d. induction l as [|b l IH]; intros a d; [reflexivity|].
  change (last (a :: b :: l) d) with (last (b :: l) d). rewrite IH.
  symmetry. apply IH.
Qed.

(** The inode walk of [flogfs_mount], run on the simulation, visits the
    entries [chain_file_ids] lists and leaves the id of the last one in
    [max_file_id]. *)
Lemma nand_inode_walk `{!LayoutOk} `{!GeometryOk} fuel :
  forall iter L (e : @env Nand.nand),
    coherent e
    \/ ~ page_is_open (iter_block iter) (iter_sector iter / FS_SECTORS_PER_PAGE) (flogfs e) ->
    match chain_file_ids fuel (flash e) (iter_block iter) (iter_next_block iter)
            (iter_sector iter) with
    | Some ids =>
        exists L' e',
          mount_inode_walk fuel iter L e = (Some L', e')
          /\ walk_state e (last ids (max_file_id (flogfs e))) e'
          /\ (ids = [] -> last_allocation L' = last_allocation L
                         /\ last_deletion L' = last_deletion L)
    | None => fst (mount_inode_walk fuel iter L e) = None
    end.
Proof.
  induction fuel as [|fuel IH]; intros iter L e Hready; [reflexivity|].
  destruct (mount_inode_walk (S fuel) iter L e) as [res e'] eqn:Hrun.
  cbn [chain_file_ids]. cbn [mount_inode_walk] in Hrun.
  inv_bind Hrun. unfold flog_open_sector in Hm.
  destruct (nand_flog_open_page e _ _ Hready) as [(Hm1 & Hid1 & Hc1) Ho1].
  rewrite Hm in Hm1, Hid1, Hc1, Ho1. cbn [snd] in Hm1, Hid1, Hc1, Ho1.
  inv_bind Hrun. rewrite (nand_read_sector e0 _ _ _ _ Ho1) in Hm0.
  inversion Hm0; subst a0 e1; clear Hm0.
  cbn [sector_buffer set_sector_buffer] in Hrun.
  rewrite get_field_blit in Hrun by (rewrite length_cells; apply alloc_file_id_in).
  rewrite (cells_medium _ _ _ _ _ _ Hm1) in Hrun.
  fold (entry_file_id (flash e) (iter_block iter) (iter_sector iter)) in Hrun.
  set (id := entry_file_id (flash e) (iter_block iter) (iter_sector iter)) in *.
  destruct (id =? FLOG_FILE_ID_INVALID).
  - inv_ret Hrun. eexists _, _. split; [reflexivity|].
    split; [|intros _; split; reflexivity]. repeat split; auto.
  - inv_bind Hrun. unfold flog_open_sector in Hm0.
    set (e2 := mkEnv (flogfs e0) (flash e0) _) in *.
    assert (Hc2 : coherent e2) by exact Hc1.
    destruct (nand_flog_open_page e2 (iter_block iter)
                (wrap16 (iter_sector iter + 1) / FS_SECTORS_PER_PAGE) (or_introl Hc2))
      as [(Hm3 & Hid3 & Hc3) Ho3].
    rewrite Hm0 in Hm3, Hid3, Hc3, Ho3. cbn [snd] in Hm3, Hid3, Hc3, Ho3.
    inv_bind Hrun. rewrite (nand_read_sector e1 _ _ _ _ Ho3) in Hm2.
    inversion Hm2; subst a1 e3; clear Hm2.
    inv_bind Hrun. unfold modify_fs in Hm2. inversion Hm2; subst a1 e3; clear Hm2.
    cbn [flogfs flash calls sector_buffer set_sector0_buffer] in Hrun.
    rewrite get_field_blit in Hrun by (rewrite length_cells; apply alloc_file_id_in).
    fold (entry_file_id (flash e) (iter_block iter) (iter_sector iter)) in Hrun.
    fold id in Hrun.
    set (e5 := mkEnv (set_max_file_id id (flogfs e1)) (flash e1) _) in *.
    assert (Hc5 : coherent e5) by exact Hc3.
    assert (Hm5 : medium (flash e5) = medium (flash e)).
    { unfold e5. cbn [flash]. rewrite Hm3. unfold e2. cbn [flash]. exact Hm1. }
    inv_bind Hrun.
    destruct (nand_iterator_next e5 iter Hc5) as [(Hm6 & Hid6 & Hc6) Hit].
    rewrite Hm2 in Hm6, Hid6, Hc6, Hit. cbn [fst snd] in Hm6, Hid6, Hc6, Hit.
    assert (Hmm : medium (flash e3) = medium (flash e)) by congruence.
    match type of Hrun with
    | mount_inode_walk _ _ ?L5 _ = _ => specialize (IH a1 L5 e3 (or_introl Hc6))
    end.
    rewrite Hrun in IH. rewrite (chain_file_ids_medium fuel _ _ Hmm) in IH.
    assert (Hchain :
              (if wrap16 (iter_sector iter + 2) >=? FS_PAGES_PER_BLOCK * FS_SECTORS_PER_PAGE
               then chain_file_ids fuel (flash e) (iter_next_block iter)
                      (inode_tail_link (flash e) (iter_next_block iter))
                      (wrap16 FS_SECTORS_PER_PAGE)
               else chain_file_ids fuel (flash e) (iter_block iter)
                      (iter_next_block iter) (wrap16 (iter_sector iter + 2)))
              = chain_file_ids fuel (flash e) (iter_block a1) (iter_next_block a1)
                  (iter_sector a1)).
    { rewrite Hit.
      destruct (wrap16 (iter_sector iter + 2) >=? FS_PAGES_PER_BLOCK * FS_SECTORS_PER_PAGE);
        cbn [iter_block iter_next_block iter_sector]; [|reflexivity].
      unfold inode_tail_link. now rewrite (cells_medium _ _ _ _ _ _ Hm5). }
    rewrite Hchain.
    destruct (chain_file_ids fuel (flash e) (iter_block a1) (iter_next_block a1)
                (iter_sector a1)) as [ids|]; cbn [option_map].
    + destruct IH as (L' & e'' & Hwalk & (Hm' & Hid' & Hc') & _).
      inversion Hwalk; subst res e''.
      exists L', e'. split; [reflexivity|]. split; [|discriminate].
      repeat split; auto.
      * congruence.
      * rewrite Hid'. rewrite last_cons_default. f_equal. exact Hid6.
    + exact IH.
Qed.

End OnNand.

(** ** What the read-only calls leave of the medium *)

Section MediumKept.
Context {cfg : Config}.

(** The simulated driver changes no cell unless asked to erase or write. *)
Lemma keeps_medium_driver {A} (c : call) (op : Nand.nand -> A * Nand.nand) :
  (forall f, medium (snd (op f)) = medium f) ->
  keeps (fun e : @env Nand.nand => medium (flash e)) (driver c op).
Proof.
  intros H e. unfold driver. specialize (H (flash e)).
  now destruct (op (flash e)).
Qed.

Lemma keeps_medium_fs (m : flogfs_t -> flogfs_t) :
  keeps (fun e : @env Nand.nand => medium (flash e)) (modify_fs m)
  /\ keeps (fun e : @env Nand.nand => medium (flash e)) fs_lock
  /\ keeps (fun e : @env Nand.nand => medium (flash e)) fs_unlock.
Proof. repeat split. Qed.

Lemma medium_open_page b p f : medium (snd (Nand.open_page b p f)) = medium f.
Proof. unfold Nand.open_page. now destruct (Nand.in_range b p). Qed.

End MediumKept.

#[export] Hint Extern 2 (keeps (fun e => medium (flash e)) (driver _ _)) =>
  apply keeps_medium_driver; intros; cbn; solve [reflexivity | apply medium_open_page]
  : keeps.
#[export] Hint Extern 2 (keeps (fun e => medium (flash e)) (modify_fs _)) =>
  apply keeps_medium_fs : keeps.
#[export] Hint Extern 2 (keeps (fun e => medium (flash e)) fs_lock) =>
  apply (keeps_medium_fs (fun x => x)) : keeps.
#[export] Hint Extern 2 (keeps (fun e => medium (flash e)) fs_unlock) =>
  apply (keeps_medium_fs (fun x => x)) : keeps.

(** ** [flogfs_mount]: the maximum file id *)

Section MaxFileId.
Context {cfg : Config}.

Local Notation "'MEDIUM'" := (fun e : @env Nand.nand => medium (flash e)).
Local Notation "'MAX_FILE_ID'" := (fun e : @env Nand.nand => max_file_id (flogfs e)).

Lemma medium_flog_open_page b p : keeps MEDIUM (flog_open_page b p).
Proof. unfold flog_open_page. keeps_tac. Qed.
Hint Resolve medium_flog_open_page : keeps.

Lemma medium_iterator_init b : keeps MEDIUM (flog_inode_iterator_init b).
Proof. unfold flog_inode_iterator_init, read_next_block. keeps_tac. Qed.

Lemma medium_scan_blocks n i L : keeps MEDIUM (mount_scan_blocks n i L).
Proof.
  revert i L. induction n; intros i L; simpl.
  - keeps_tac.
  - apply keeps_bind; [|auto]. unfold mount_scan_block. keeps_tac.
Qed.

Lemma max_file_id_flog_open_page b p : keeps MAX_FILE_ID (flog_open_page b p).
Proof. unfold flog_open_page. keeps_tac. Qed.
Hint Resolve max_file_id_flog_open_page : keeps.

Lemma max_file_id_iterator_init b : keeps MAX_FILE_ID (flog_inode_iterator_init b).
Proof. unfold flog_inode_iterator_init, read_next_block. keeps_tac. Qed.

Lemma max_file_id_scan_blocks n i L : keeps MAX_FILE_ID (mount_scan_blocks n i L).
Proof.
  revert i L. induction n; intros i L; simpl.
  - keeps_tac.
  - apply keeps_bind; [|auto]. unfold mount_scan_block. keeps_tac.
Qed.

Lemma max_file_id_check_allocation L : keeps MAX_FILE_ID (mount_check_allocation L).
Proof. unfold mount_check_allocation, flog_open_sector. keeps_tac. Qed.

Lemma max_file_id_check_deletion L : keeps MAX_FILE_ID (mount_check_deletion L).
Proof. unfold mount_check_deletion, flog_open_sector. keeps_tac. Qed.

Lemma max_file_id_mount_success : keeps MAX_FILE_ID mount_success.
Proof. unfold mount_success. keeps_tac. Qed.

(** In a strictly increasing list the last element is the largest. *)
Lemma last_is_largest (ids : list Z) :
  StronglySorted Z.lt ids ->
  forall d id, In id ids -> id <= last ids d /\ In (last ids d) ids.
Proof.
  induction 1 as [|a l Hs IH Hall]; intros d id Hin; [contradiction|].
  rewrite last_cons_default. destruct l as [|b l].
  - destruct Hin as [->|[]]. simpl. split; [lia|auto].
  - assert (Hb : In b (b :: l)) by now left.
    destruct (IH a b Hb) as [_ Hlast].
    split; [|now right].
    destruct Hin as [->|Hin].
    + rewrite Forall_forall in Hall. specialize (Hall _ Hlast). lia.
    + apply (IH a id Hin).
Qed.

(** The iterator the walk starts from: at entry [FS_SECTORS_PER_PAGE] of the
    inode0 block, which is on page 1 while the cache holds page 0. *)
Lemma mount_first_iter_ready `{!GeometryOk} b (e : @env Nand.nand) :
  let it := fst (flog_inode_iterator_init b e) in
  let e1 := snd (flog_inode_iterator_init b e) in
  iter_block it = b /\ iter_sector it = wrap16 FS_SECTORS_PER_PAGE
  /\ ~ page_is_open (iter_block it) (iter_sector it / FS_SECTORS_PER_PAGE) (flogfs e1).
Proof.
  unfold flog_inode_iterator_init, bind, read_next_block, bind,
    do_flash_read_sector, driver, ret.
  pose proof (flog_open_page_opens b 0 e) as [(_ & _ & Hp) _].
  destruct (flog_open_page b 0 e) as [r e1]. cbn [fst snd flogfs] in *.
  repeat split. cbn [iter_block iter_sector].
  intros (_ & _ & Hp'). rewrite Hp in Hp'.
  pose proof sectors_range as Hr.
  unfold wrap16 in Hp'. rewrite Z.mod_small in Hp' by lia.
  rewrite Z.div_same in Hp' by lia. discriminate.
Qed.

End MaxFileId.

(** ** [flogfs_format] followed by [flogfs_mount] *)

Section FormatMount.
Context {cfg : Config}.

Lemma in_range_block `{!GeometryOk} i : 0 <= i < FS_NUM_BLOCKS -> Nand.in_range i 0 = true.
Proof.
  intros Hr. pose proof pages_pos. unfold Nand.in_range.
  repeat (apply andb_true_intro; split); try apply Z.leb_le; try apply Z.ltb_lt; lia.
Qed.

Lemma nand_block_is_bad (e : @env Nand.nand) :
  do_flash_block_is_bad e
  = (Nand.block_is_bad (flash e),
     mkEnv (flogfs e) (flash e) (calls e ++ [FlashBlockIsBad])).
Proof. reflexivity. Qed.

(** The erase loop of [flogfs_format] on the simulation: it never fails and
    leaves every good block it has visited erased. *)
Lemma nand_format_erase_loop `{!GeometryOk} n :
  forall i (e : @env Nand.nand),
    0 <= i -> i + Z.of_nat n <= FS_NUM_BLOCKS ->
    erased_upto (flash e) i ->
    exists e',
      format_erase_loop n i e = (None, e')
      /\ erased_upto (flash e') (i + Z.of_nat n)
      /\ Nand.bad (flash e') = Nand.bad (flash e)
      /\ flogfs e' = flogfs e.
Proof.
  induction n as [|n IH]; intros i e Hi Hn Her.
  - exists e. cbn [Z.of_nat]. rewrite Z.add_0_r.
    split; [reflexivity|]. split; [assumption|]. split; reflexivity.
  - cbn [format_erase_loop]. unfold bind at 1. rewrite nand_open_page.
    unfold bind at 1. rewrite nand_block_is_bad. cbn [flash flogfs calls].
    unfold Nand.block_is_bad, open_target. rewrite in_range_block by lia.
    cbn [Nand.opened Nand.set_opened Nand.bad].
    destruct (Nand.bad (flash e) i) eqn:Hbad; cbn [negb].
    + match goal with
      | |- context [format_erase_loop n (i + 1) ?e1] =>
          destruct (IH (i + 1) e1) as (e' & Hrun & Her' & Hb' & Hf'); try lia
      end.
      { unfold erased_upto. cbn [flash Nand.data Nand.spare Nand.bad Nand.set_opened].
        intros b p s k Hb Hg. assert (b = i \/ b < i) as [->|Hlt] by lia.
        - congruence.
        - apply Her; auto. lia. }
      exists e'. split; [exact Hrun|].
      replace (i + Z.of_nat (S n)) with (i + 1 + Z.of_nat n) by lia.
      split; [assumption|]. split; assumption.
    + unfold bind at 1, do_flash_erase_block at 1, driver at 1.
      cbn [flash flogfs calls flash_erase_block Nand.driver].
      unfold Nand.erase_block. cbn [Nand.bad Nand.set_opened].
      rewrite in_range_block by lia. rewrite Hbad. cbn [negb andb result_eqb].
      match goal with
      | |- context [format_erase_loop n (i + 1) ?e1] =>
          destruct (IH (i + 1) e1) as (e' & Hrun & Her' & Hb' & Hf'); try lia
      end.
      { unfold erased_upto. cbn [flash Nand.data Nand.spare Nand.bad Nand.set_opened].
        intros b p s k Hb Hg. destruct (Z.eqb_spec b i) as [->|Hne].
        - split; reflexivity.
        - apply Her; auto. lia. }
      exists e'. split; [exact Hrun|].
      replace (i + Z.of_nat (S n)) with (i + 1 + Z.of_nat n) by lia.
      split; [assumption|]. split; assumption.
Qed.


Lemma read_program (c : nat -> byte) (src : list byte) :
  (forall k, c k = Byte.xff) ->
  Nand.read_bytes (Nand.program c 0 src) 0 (length src) = src.
Proof.
  intros Hc. apply nth_ext with (d := Byte.x00) (d' := Byte.x00).
  - apply length_read_bytes.
  - intros i Hi. rewrite length_read_bytes in Hi.
    rewrite nth_read_bytes by assumption. unfold Nand.program. cbn [Nat.add].
    destruct (Nat.leb_spec 0 i); [|lia].
    destruct (Nat.ltb_spec i (length src)); [|lia]. cbn [andb].
    rewrite Hc, band_xff_l, Nat.sub_0_r. now apply nth_indep.
Qed.

Lemma sector_in_page_0 : Nand.sector_in_page 0 = 0.
Proof. unfold Nand.sector_in_page. apply Zmod_0_l. Qed.

Lemma triple_eqb b p s :
  (b =? 0) && (p =? 0) && (s =? 0) = true -> (b, p, s) = (0, 0, 0).
Proof.
  intros H. apply andb_prop in H as [H Hs]. apply andb_prop in H as [Hb Hp].
  apply Z.eqb_eq in Hb, Hp, Hs. now subst.
Qed.

(** [flogfs_format] on the simulation, block 0 being good. *)
Lemma nand_format `{!LayoutOk} `{!GeometryOk} buf fs (f : Nand.nand) cs :
  Nand.bad f 0 = false ->
  exists e',
    flogfs_format buf (mkEnv fs f cs) = (FLOG_SUCCESS, e')
    /\ formatted_medium (flash e').
Proof.
  intros Hgood. pose proof num_blocks_pos as HN.
  unfold flogfs_format. unfold bind at 1, fs_lock at 1. cbn [flogfs flash calls].
  unfold bind at 1.
  match goal with
  | |- context [format_erase_loop _ 0 ?e1] =>
      destruct (nand_format_erase_loop (Z.to_nat FS_NUM_BLOCKS) 0 e1)
        as (e2 & Hrun & Her & Hbad & _)
  end.
  { lia. }
  { rewrite Z2Nat.id; lia. }
  { intros b p s k Hb. lia. }
  rewrite Z2Nat.id in Her by lia. cbn [Z.add] in Her.
  rewrite Hrun.
  unfold bind at 1. rewrite nand_open_page.
  unfold bind, do_flash_write_sector, do_flash_write_spare, do_flash_commit,
    do_flash_close_page, do_flash_unlock, driver, fs_unlock, ret.
  cbn [flogfs flash calls flash_write_sector flash_write_spare flash_commit
         flash_close_page flash_unlock Nand.driver].
  eexists. split; [reflexivity|].
  cbn [flash] in Hbad.
  assert (Hg2 : Nand.bad (flash e2) 0 = false) by (rewrite Hbad; exact Hgood).
  unfold open_target. rewrite in_range_block by lia.
  unfold Nand.write_spare, Nand.write_sector.
  cbn [Nand.opened Nand.set_opened Nand.set_locked Nand.data Nand.spare Nand.bad flash].
  rewrite sector_in_page_0. change (Z.to_nat 0) with 0%nat.
  constructor.
  - exact Hg2.
  - intros b p s i Hb Hg Hne.
    cbn [Nand.data Nand.spare Nand.bad Nand.set_opened Nand.set_locked] in Hg |- *.
    destruct ((b =? 0) && (p =? 0) && (s =? 0)) eqn:E.
    + apply triple_eqb in E. contradiction.
    + now apply Her.
  - intros b p s i Hb Hg Hne.
    cbn [Nand.data Nand.spare Nand.bad Nand.set_opened Nand.set_locked] in Hg |- *.
    destruct ((b =? 0) && (p =? 0) && (s =? 0)) eqn:E.
    + apply triple_eqb in E. contradiction.
    + now apply Her.
  - cbn [Nand.data Nand.spare Nand.bad Nand.set_opened Nand.set_locked].
    cbn [Z.eqb andb].
    match goal with
    | |- context [Nand.program _ 0 (fit sizeof_spare ?b)] => set (sp := b)
    end.
    replace sizeof_spare with (length (fit sizeof_spare sp)) at 2 by apply length_fit.
    rewrite read_program by (intros k; apply Her; [lia|exact Hg2]).
    rewrite get_field_fit by apply inode_spare0_type_id_in.
    unfold sp. rewrite get_set_same. apply Z.mod_small, block_type_inode_range.
  - cbn [Nand.data Nand.spare Nand.bad Nand.set_opened Nand.set_locked].
    cbn [Z.eqb andb].
    match goal with
    | |- context [Nand.program _ 0 (fit sizeof_spare ?b)] => set (sp := b)
    end.
    replace sizeof_spare with (length (fit sizeof_spare sp)) at 2 by apply length_fit.
    rewrite read_program by (intros k; apply Her; [lia|exact Hg2]).
    rewrite get_field_fit by apply inode_spare0_inode_index_in.
    unfold sp. rewrite get_set_other by apply inode_spare0_disjoint.
    rewrite get_set_same. apply Z.mod_0_l. apply Z.pow_nonzero; lia.
Qed.


Lemma formatted_medium_medium f f' :
  medium f = medium f' -> formatted_medium f -> formatted_medium f'.
Proof.
  unfold medium. intros H [H0 Hd Hs Ht Hi]. inversion H as [[Ed Es Eb]].
  constructor; rewrite <- ?Ed, <- ?Es, <- ?Eb; assumption.
Qed.

Lemma read_bytes_erased (c : nat -> byte) off n :
  (forall k, c k = Byte.xff) -> Nand.read_bytes c off n = repeat Byte.xff n.
Proof.
  intros H. unfold Nand.read_bytes. revert off. induction n; intros off; simpl; auto.
  now rewrite H, IHn.
Qed.

Lemma get_field_erased f n :
  field_in f n -> get_field f (repeat Byte.xff n) = all_ones (f_width f).
Proof.
  intros H. apply get_field_ones. intros i Hi. unfold field_in in H.
  apply nth_repeat_lt. lia.
Qed.

Lemma cells_erased f b p s n :
  (forall k, Nand.data f b p (Nand.sector_in_page s) k = Byte.xff) ->
  cells f b p s n = repeat Byte.xff n.
Proof.
  intros H. unfold cells. destruct (Nand.in_range b p); [|reflexivity].
  now apply read_bytes_erased.
Qed.

Local Notation "'MEDIUM'" := (fun e : @env Nand.nand => medium (flash e)).

Lemma medium_scan_block i L : keeps MEDIUM (mount_scan_block i L).
Proof. unfold mount_scan_block. keeps_tac. Qed.

Lemma candidates_update_max_block_age age L :
  last_allocation (update_max_block_age age L) = last_allocation L
  /\ last_deletion (update_max_block_age age L) = last_deletion L
  /\ inode0_idx (update_max_block_age age L) = inode0_idx L.
Proof. unfold update_max_block_age. now destruct (age >? max_block_age L). Qed.

(** The census of one block of a formatted medium: block 0 is found as
    inode0, no other block changes the candidates. *)
Lemma nand_scan_block_formatted `{!LayoutOk} `{!GeometryOk} `{!ErasedOk}
      i L (e : @env Nand.nand) :
  formatted_medium (flash e) ->
  0 <= i < FS_NUM_BLOCKS ->
  let L' := fst (mount_scan_block i L e) in
  last_allocation L' = last_allocation L
  /\ last_deletion L' = last_deletion L
  /\ inode0_idx L' = if i =? 0 then 0 else inode0_idx L.
Proof.
  intros Hf Hi. destruct (mount_scan_block i L e) as [L' e'] eqn:Hrun. cbn [fst].
  unfold mount_scan_block in Hrun.
  unfold bind at 1 in Hrun. rewrite nand_open_page in Hrun.
  rewrite in_range_block in Hrun by lia.
  cbn [result_is_zero result_eqb] in Hrun.
  unfold bind at 1 in Hrun. rewrite nand_block_is_bad in Hrun.
  cbn [flash flogfs calls] in Hrun.
  unfold Nand.block_is_bad, open_target in Hrun. rewrite in_range_block in Hrun by lia.
  cbn [Nand.opened Nand.set_opened Nand.bad] in Hrun.
  destruct (Nand.bad (flash e) i) eqn:Hbad.
  { inv_ret Hrun. repeat split.
    destruct (Z.eqb_spec i 0) as [->|]; [|reflexivity].
    rewrite (fm_block0_good _ Hf) in Hbad. discriminate. }
  unfold bind at 1 in Hrun.
  match type of Hrun with
  | context [do_flash_read_spare 0 ?e1] =>
      rewrite (nand_read_spare e1 i 0 0) in Hrun
        by (unfold open_target; rewrite in_range_block by lia; reflexivity)
  end.
  cbn [flash flogfs calls spare_buffer set_spare_buffer] in Hrun.
  unfold spare_cells in Hrun. rewrite in_range_block in Hrun by lia.
  rewrite sector_in_page_0 in Hrun. cbn [Nand.spare Nand.set_opened] in Hrun.
  rewrite get_field_blit in Hrun
    by (rewrite length_read_bytes; apply inode_spare0_type_id_in).
  destruct (Z.eqb_spec i 0) as [->|Hne].
  - rewrite (fm_type_id _ Hf), Z.eqb_refl in Hrun.
    unfold bind at 1 in Hrun.
    match type of Hrun with
    | context [do_flash_read_sector FLOG_INODE_INVALIDATION_SECTOR 0 _ ?e1] =>
        rewrite (nand_read_sector e1 0 0) in Hrun
          by (unfold open_target; rewrite in_range_block by lia; reflexivity)
    end.
    unfold bind at 1 in Hrun.
    match type of Hrun with
    | context [do_flash_read_sector 0 0 sizeof_inode_sector0 ?e1] =>
        rewrite (nand_read_sector e1 0 0) in Hrun
          by (unfold open_target; rewrite in_range_block by lia; reflexivity)
    end.
    cbn [flash flogfs calls spare_buffer set_sector0_buffer] in Hrun.
    rewrite (cells_erased _ 0 0 FLOG_INODE_INVALIDATION_SECTOR) in Hrun.
    2:{ intros k. cbn [Nand.data Nand.set_opened].
        apply (fm_data _ Hf); [lia|apply (fm_block0_good _ Hf)|].
        intros E. inversion E as [E']. unfold Nand.sector_in_page in E'.
        now apply inode_invalidation_apart. }
    rewrite le_decode_ones in Hrun.
    change (all_ones sizeof_timestamp =? 4294967295) with true in Hrun.
    cbv iota in Hrun.
    cbn [spare_buffer sector0_buffer set_sector0_buffer set_spare_buffer] in Hrun.
    rewrite get_field_blit in Hrun
      by (rewrite length_read_bytes; apply inode_spare0_inode_index_in).
    rewrite (fm_inode_index _ Hf) in Hrun. cbn [Z.eqb] in Hrun.
    inv_ret Hrun.
    match goal with
    | |- context [update_max_block_age ?a ?L1] =>
        destruct (candidates_update_max_block_age a L1) as (-> & -> & ->)
    end.
    repeat split.
  - rewrite read_bytes_erased in Hrun
      by (intros k; apply (fm_spare _ Hf); [lia|assumption|congruence]).
    rewrite get_field_erased in Hrun by apply inode_spare0_type_id_in.
    destruct (Z.eqb_spec (all_ones (f_width inode_spare0_type_id)) FLOG_BLOCK_TYPE_INODE)
      as [E|_]; [symmetry in E; now apply erased_not_inode in E|].
    destruct (Z.eqb_spec (all_ones (f_width inode_spare0_type_id)) FLOG_BLOCK_TYPE_FILE)
      as [E|_]; [symmetry in E; now apply erased_not_file in E|].
    destruct (all_ones (f_width inode_spare0_type_id) =? FLOG_BLOCK_TYPE_UNALLOCATED);
      inv_ret Hrun; repeat split.
Qed.


(** The census loop on a formatted medium. *)
Lemma nand_scan_blocks_formatted `{!LayoutOk} `{!GeometryOk} `{!ErasedOk} n :
  forall i L (e : @env Nand.nand),
    formatted_medium (flash e) ->
    0 <= i -> i + Z.of_nat n <= FS_NUM_BLOCKS ->
    let L' := fst (mount_scan_blocks n i L e) in
    last_allocation L' = last_allocation L
    /\ last_deletion L' = last_deletion L
    /\ inode0_idx L' = if (i =? 0) && negb (Nat.eqb n 0) then 0 else inode0_idx L.
Proof.
  induction n as [|n IH]; intros i L e Hf Hi Hn.
  - cbn. rewrite andb_false_r. repeat split.
  - cbn [mount_scan_blocks Nat.eqb negb]. rewrite andb_true_r. unfold bind.
    pose proof (nand_scan_block_formatted i L e Hf) as Hstep.
    pose proof (medium_scan_block i L e) as Hmed.
    destruct (mount_scan_block i L e) as [L1 e1]. cbn [fst snd] in Hstep, Hmed.
    destruct Hstep as (Hla & Hld & Hino); [lia|].
    assert (Hf1 : formatted_medium (flash e1)).
    { eapply formatted_medium_medium; [symmetry; exact Hmed|exact Hf]. }
    specialize (IH (i + 1) L1 e1 Hf1). cbv zeta in IH.
    destruct IH as (Hla' & Hld' & Hino'); [lia|lia|].
    cbv zeta. rewrite Hla', Hld', Hino', Hla, Hld, Hino.
    destruct (Z.eqb_spec (i + 1) 0); [lia|]. cbn [andb].
    repeat split.
Qed.

Lemma first_entry_erased `{!LayoutOk} `{!GeometryOk} (f : Nand.nand) :
  formatted_medium f ->
  entry_file_id f 0 (wrap16 FS_SECTORS_PER_PAGE) = FLOG_FILE_ID_INVALID.
Proof.
  intros Hf. pose proof sectors_range as Hs. pose proof num_blocks_pos as Hn.
  unfold entry_file_id, wrap16. rewrite Z.mod_small by lia.
  rewrite Z.div_same by lia.
  rewrite cells_erased.
  - now rewrite get_field_erased by apply alloc_file_id_in.
  - intros k. apply (fm_data _ Hf); [lia|apply (fm_block0_good _ Hf)|congruence].
Qed.

(** C3, as the code has it.  On a medium whose block 0 is good, whatever the
    other blocks, the cells and the filesystem state hold, [flogfs_format]
    returns [FLOG_SUCCESS] and the [flogfs_mount] that follows returns
    [FLOG_SUCCESS] too, once it is allowed to visit one inode entry. *)
Theorem format_then_mount_succeeds `{!LayoutOk} `{!GeometryOk} `{!ErasedOk}
        (f : Nand.nand) (fs : flogfs_t) (cs : list call)
        (buf : list byte) (stack : mount_locals) (fuel : nat) :
  Nand.bad f 0 = false ->
  (0 < fuel)%nat ->
  fst (flogfs_format buf (mkEnv fs f cs)) = FLOG_SUCCESS
  /\ fst (flogfs_mount fuel stack (snd (flogfs_format buf (mkEnv fs f cs))))
     = Some FLOG_SUCCESS.
Proof.
  intros Hgood Hfuel.
  destruct (nand_format buf fs f cs Hgood) as (e1 & Hformat & Hf1).
  rewrite Hformat. cbn [fst snd]. split; [reflexivity|].
  pose proof num_blocks_pos as HN.
  destruct (flogfs_mount fuel stack e1) as [res e'] eqn:Hrun. cbn [fst].
  unfold flogfs_mount in Hrun.
  inv_bind Hrun. inv_bind Hrun. inv_bind Hrun.
  assert (Hmed0 : medium (flash e0) = medium (flash e1)).
  { unfold do_flash_lock, driver in Hm0. cbn in Hm0. inversion Hm0; subst.
    unfold fs_lock in Hm. inversion Hm; subst. reflexivity. }
  assert (Hf0 : formatted_medium (flash e0)).
  { eapply formatted_medium_medium; [symmetry; exact Hmed0|exact Hf1]. }
  pose proof (nand_scan_blocks_formatted (Z.to_nat FS_NUM_BLOCKS) 0
                (mount_init_locals stack) e0 Hf0) as Hscan.
  pose proof (medium_scan_blocks (Z.to_nat FS_NUM_BLOCKS) 0
                (mount_init_locals stack) e0) as Hmed2.
  rewrite Hm1 in Hscan, Hmed2. cbn [fst snd] in Hscan, Hmed2.
  destruct Hscan as (Hla & Hld & Hino); [lia|rewrite Z2Nat.id; lia|].
  assert (Hn0 : Nat.eqb (Z.to_nat FS_NUM_BLOCKS) 0 = false) by (apply Nat.eqb_neq; lia).
  rewrite Hn0 in Hino. cbn in Hino. rewrite Hino in Hrun.
  change (0 =? FLOG_BLOCK_IDX_INVALID) with false in Hrun. cbv iota in Hrun.
  inv_bind Hrun.
  pose proof (mount_first_iter_ready 0 e2) as Hready.
  pose proof (medium_iterator_init 0 e2) as Hmed3.
  rewrite Hm2 in Hready, Hmed3. cbn [fst snd] in Hready, Hmed3.
  destruct Hready as (Hb & Hs & Hready).
  inv_bind Hrun.
  pose proof (nand_inode_walk fuel a2 a1 e3 (or_intror Hready)) as Hwalk.
  rewrite Hm3 in Hwalk. rewrite Hb, Hs in Hwalk.
  assert (Hf3 : formatted_medium (flash e3)).
  { eapply formatted_medium_medium; [|exact Hf0]. congruence. }
  destruct fuel as [|fuel]; [lia|]. cbn [chain_file_ids] in Hwalk.
  rewrite (first_entry_erased _ Hf3), Z.eqb_refl in Hwalk.
  destruct Hwalk as (L' & e5 & Heq & _ & Hcand). inversion Heq; subst a3 e5.
  destruct (Hcand eq_refl) as [Hla' Hld'].
  inv_bind Hrun. unfold mount_check_allocation in Hm4.
  rewrite Hla', Hla in Hm4. cbn in Hm4. inv_ret Hm4.
  inv_bind Hrun. unfold mount_check_deletion in Hm4.
  rewrite Hld', Hld in Hm4. cbn in Hm4. inv_ret Hm4. cbn [fst] in Hrun.
  inv_bind Hrun. inv_ret Hrun.
  unfold mount_success in Hm4. do 2 inv_bind Hm4. inv_ret Hm4. reflexivity.
Qed.

End FormatMount.

(** ** Runs on the small geometry *)

Section Runs.
Import Small.
Import Media.

(** C1 (the code at a live file).  On the medium that holds the live file
    "log", after a successful mount, [flogfs_open_read] finds the entry and
    positions the cursor at sector 0, offset [sizeof(flog_file_sector0_header_t)],
    with the 3 bytes of that sector, and then returns [FLOG_FAILURE].  (The
    [id] of the handle is all-ones: the four-byte read of line 515 lands on
    the union that holds the allocation record.) *)
Example open_read_live_file_returns_failure :
  fst (flogfs_mount 5 stack0 (start fs0 with_file)) = Some FLOG_SUCCESS
  /\ fst (flogfs_open_read 5 file0 log_name [] []
            (snd (flogfs_mount 5 stack0 (start fs0 with_file))))
     = Some (FLOG_FAILURE, mkReadFile 4294967295 1 0 8 3).
Proof. split; vm_compute; reflexivity. Qed.

(** C2 (the code at a mount that succeeds).  Mounting the medium with one
    file from the zero-initialised state succeeds; the census has counted
    two free blocks and the walk has seen file id 1 and allocation time 1,
    yet [num_files], [num_free_blocks] and [t] are still 0: only
    [max_file_id] has been stored. *)
Example mount_success_publishes_nothing :
  fst (flogfs_mount 5 stack0 (start fs0 with_file)) = Some FLOG_SUCCESS
  /\ m_num_free_blocks
       (fst (mount_scan_blocks (Z.to_nat FS_NUM_BLOCKS) 0 (mount_init_locals stack0)
               (start fs0 with_file))) = 2
  /\ max_file_id (flogfs (snd (flogfs_mount 5 stack0 (start fs0 with_file)))) = 1
  /\ num_files (flogfs (snd (flogfs_mount 5 stack0 (start fs0 with_file)))) = 0
  /\ num_free_blocks (flogfs (snd (flogfs_mount 5 stack0 (start fs0 with_file)))) = 0
  /\ t (flogfs (snd (flogfs_mount 5 stack0 (start fs0 with_file)))) = 0.
Proof. repeat split; vm_compute; reflexivity. Qed.

(** C5 (the code at a stalled deletion).  The inode entry of file 1 is
    invalidated, its block 1 still carries the file and has no invalidation
    mark.  [flogfs_mount] makes no erase, write or commit call and returns
    [FLOG_FAILURE]. *)
Example mount_stalled_deletion_is_not_finished :
  fst (flogfs_mount 5 stack0 (start fs0 with_deleted_file)) = Some FLOG_FAILURE
  /\ filter is_write_call
       (calls (snd (flogfs_mount 5 stack0 (start fs0 with_deleted_file)))) = [].
Proof. split; vm_compute; reflexivity. Qed.

(** C6 (counterexample).  Three runs that return [FLOG_FAILURE] with a
    changed state.  [flogfs_init] on a chip that does not answer, entered in
    the state a successful mount has left, resets [max_file_id] from 1 to 0.
    [flogfs_open_read] of "log" on the formatted medium leaves [page_open] at
    1 where it was 0.  [flogfs_mount] of the medium with the stalled
    deletion, in the layout in which line 445 stays inside its union, fails
    after it has changed [max_file_id] from 0 to 1. *)
Example failure_changes_state :
  fst (@flogfs_init Nand.nand Unpowered.driver
         (snd (flogfs_mount 5 stack0 (start fs0 with_file)))) = FLOG_FAILURE
  /\ max_file_id (flogfs (snd (flogfs_mount 5 stack0 (start fs0 with_file)))) = 1
  /\ max_file_id
       (flogfs (snd (@flogfs_init Nand.nand Unpowered.driver
                       (snd (flogfs_mount 5 stack0 (start fs0 with_file)))))) = 0
  /\ fst (flogfs_open_read 5 file0 log_name [] [] (start fs0 formatted))
     = Some (FLOG_FAILURE, file0)
  /\ page_open (flogfs (start fs0 formatted)) = 0
  /\ page_open
       (flogfs (snd (flogfs_open_read 5 file0 log_name [] [] (start fs0 formatted)))) = 1
  /\ @line_445_overruns Roomy.cfg = false
  /\ fst (@flogfs_mount Roomy.cfg Nand.nand (@Nand.driver Roomy.cfg) 5 stack0
            (start fs0 Roomy.with_deleted_file)) = Some FLOG_FAILURE
  /\ max_file_id (flogfs (start fs0 Roomy.with_deleted_file)) = 0
  /\ max_file_id
       (flogfs (snd (@flogfs_mount Roomy.cfg Nand.nand (@Nand.driver Roomy.cfg) 5 stack0
                       (start fs0 Roomy.with_deleted_file)))) = 1.
Proof. repeat split; vm_compute; reflexivity. Qed.

(** C7 (counterexample).  Two mounts that succeed with a [max_file_id] that
    is not the largest file id of the medium.  The formatted medium holds no
    file, and [max_file_id] stays at the 7 it was entered with.  The medium
    with the files 1 to 7, entered with page 0 of block 0 in the page cache,
    is mounted with [max_file_id] = 6: the census has left the driver on
    page 0 of block 3, the cache hit of line 116 keeps it there, and the link
    of the inode chain is read from the tail sector of block 3. *)
Example mount_max_file_id_needs_fresh_state :
  fst (flogfs_mount 5 stack0 (start (set_max_file_id 7 fs0) formatted))
  = Some FLOG_SUCCESS
  /\ chain_file_ids 5 formatted 0 (inode_tail_link formatted 0)
       (wrap16 FS_SECTORS_PER_PAGE) = Some []
  /\ max_file_id
       (flogfs (snd (flogfs_mount 5 stack0 (start (set_max_file_id 7 fs0) formatted))))
     = 7
  /\ page_open (flogfs (page0_open seven_files)) = 1
  /\ current_open_block (flogfs (page0_open seven_files)) = 0
  /\ current_open_page (flogfs (page0_open seven_files)) = 0
  /\ Nand.opened (flash (page0_open seven_files)) = Some (0, 0)
  /\ fst (flogfs_mount 10 stack0 (page0_open seven_files)) = Some FLOG_SUCCESS
  /\ chain_file_ids 10 seven_files 0 (inode_tail_link seven_files 0)
       (wrap16 FS_SECTORS_PER_PAGE) = Some [1; 2; 3; 4; 5; 6; 7]
  /\ max_file_id (flogfs (snd (flogfs_mount 10 stack0 (page0_open seven_files)))) = 6.
Proof. repeat split; vm_compute; reflexivity. Qed.

(** C3 (counterexample).  Block 0 is bad, blocks 1 to 3 are good:
    [flogfs_format] succeeds and the [flogfs_mount] that follows fails. *)
Example format_mount_fails_when_block0_is_bad :
  Nand.bad (Nand.blank (fun b => b =? 0)) 1 = false
  /\ fst (flogfs_format [] (start fs0 (Nand.blank (fun b => b =? 0)))) = FLOG_SUCCESS
  /\ fst (flogfs_mount 5 stack0
            (snd (flogfs_format [] (start fs0 (Nand.blank (fun b => b =? 0))))))
     = Some FLOG_FAILURE.
Proof. repeat split; vm_compute; reflexivity. Qed.

End Runs.

(** ** The statements at concrete inputs *)

#[global] Instance small_layout_ok : @LayoutOk Small.cfg.
Proof.
  constructor; unfold field_in, disjoint, sizeof_block_age, sizeof_file_id;
    cbn; unfold sizeof_block_age, sizeof_file_id; lia.
Defined.

#[global] Instance small_geometry_ok : @GeometryOk Small.cfg.
Proof. constructor; cbn; lia. Defined.

#[global] Instance small_erased_ok : @ErasedOk Small.cfg.
Proof. constructor; cbn; discriminate. Defined.

Section Witnesses.
Import Small.

(** C9 on the small geometry: page 1 of block 0 is open after
    [flog_open_sector(0, 4)], and opening it again changes nothing. *)
Lemma flog_open_page_cached_witness :
  page_is_open 0 1 (flogfs (snd (flog_open_sector 0 4 (start fs0 formatted))))
  /\ flog_open_page 0 1 (snd (flog_open_sector 0 4 (start fs0 formatted)))
     = (FLOG_SUCCESS, snd (flog_open_sector 0 4 (start fs0 formatted))).
Proof.
  assert (H : page_is_open 0 1
                (flogfs (snd (flog_open_sector 0 4 (start fs0 formatted))))).
  { vm_compute. repeat split. discriminate. }
  split; [exact H|].
  exact (proj1 (proj2 (flog_open_page_cached 0 1 4
                         (snd (flog_open_sector 0 4 (start fs0 formatted))))) H).
Defined.

(** C8 on the small geometry (16 sectors per block): from sector 14 the
    iterator leaves block 0 for the block its link names, block 3, whose own
    link is unwritten. *)
Lemma flog_inode_iterator_next_witness :
  FS_PAGES_PER_BLOCK * FS_SECTORS_PER_PAGE <= wrap16 (14 + 2)
  /\ fst (flog_inode_iterator_next (mkIter 0 3 5 14) (start fs0 formatted))
     = mkIter 3 65535 6 4.
Proof.
  assert (H : FS_PAGES_PER_BLOCK * FS_SECTORS_PER_PAGE <= wrap16 (14 + 2))
    by (vm_compute; discriminate).
  split; [exact H|].
  pose proof (proj2 (proj2 (proj2
    (flog_inode_iterator_next_spec (mkIter 0 3 5 14) (start fs0 formatted)))) H) as E.
  cbv zeta in E. rewrite E. vm_compute. reflexivity.
Defined.

(** C10 on the small geometry: a name of eight characters. *)
Lemma flogfs_open_read_name_too_long_witness :
  (FLOG_MAX_FNAME_LEN <= strlen (repeat Byte.x61 8))%nat
  /\ flogfs_open_read 5 file0 (repeat Byte.x61 8) [] [] (start fs0 with_file)
     = (Some (FLOG_FAILURE, file0), start fs0 with_file).
Proof.
  assert (H : (FLOG_MAX_FNAME_LEN <= strlen (repeat Byte.x61 8))%nat)
    by (vm_compute; lia).
  split; [exact H|].
  exact (flogfs_open_read_name_too_long 5 file0 (repeat Byte.x61 8) [] []
           (start fs0 with_file) H).
Defined.

Lemma run_result {A B} (p : A * B) (a : A) : fst p = a -> p = (a, snd p).
Proof. destruct p. simpl. now intros ->. Defined.

(** C3 on the small geometry: block 2 is bad, block 0 is good. *)
Lemma format_then_mount_succeeds_witness :
  fst (flogfs_format [] (start fs0 (Nand.blank (fun b => b =? 2)))) = FLOG_SUCCESS
  /\ fst (flogfs_mount 1 stack0
            (snd (flogfs_format [] (start fs0 (Nand.blank (fun b => b =? 2))))))
     = Some FLOG_SUCCESS.
Proof.
  apply (format_then_mount_succeeds (Nand.blank (fun b => b =? 2)) fs0 [] [] stack0 1).
  - reflexivity.
  - lia.
Defined.

End Witnesses.

(** * Further properties *)

Section Filters.
Context {cfg : Config} {F : Type} {drv : FlashDriver F}.
Variable sel : call -> bool.

Lemma keeps_filter_driver {A} (c : call) (op : F -> A * F) :
  sel c = false ->
  keeps (fun e : @env F => filter sel (calls e)) (driver c op).
Proof.
  intros H e. unfold driver. destruct (op (flash e)). cbn [snd calls].
  rewrite filter_app. cbn [filter]. rewrite H. apply app_nil_r.
Qed.

Lemma keeps_filter_modify (u : flogfs_t -> flogfs_t) :
  keeps (fun e : @env F => filter sel (calls e)) (modify_fs u).
Proof. intros e. reflexivity. Qed.

End Filters.

#[export] Hint Extern 3 (keeps (fun e => filter _ (calls e)) (driver _ _)) =>
  apply keeps_filter_driver; reflexivity : keeps.
#[export] Hint Extern 3 (keeps (fun e => filter _ (calls e)) (modify_fs _)) =>
  apply keeps_filter_modify : keeps.

Section LockCalls.
Context {cfg : Config} {F : Type} {drv : FlashDriver F}.

Local Notation "'LOCKS'" := (fun e : @env F => filter is_lock_call (calls e)).

Lemma locks_flog_open_page b p : keeps LOCKS (flog_open_page b p).
Proof. unfold flog_open_page. keeps_tac. Qed.
Hint Resolve locks_flog_open_page : keeps.

Lemma locks_flog_open_sector b s : keeps LOCKS (flog_open_sector b s).
Proof. unfold flog_open_sector. auto with keeps. Qed.
Hint Resolve locks_flog_open_sector : keeps.

Lemma locks_iterator_init b : keeps LOCKS (flog_inode_iterator_init b).
Proof. unfold flog_inode_iterator_init, read_next_block. keeps_tac. Qed.

Lemma locks_iterator_next it : keeps LOCKS (flog_inode_iterator_next it).
Proof. unfold flog_inode_iterator_next, read_next_block. keeps_tac. Qed.
Hint Resolve locks_iterator_init locks_iterator_next : keeps.

Lemma locks_scan_blocks n i L : keeps LOCKS (mount_scan_blocks n i L).
Proof.
  revert i L. induction n; intros i L; simpl.
  - keeps_tac.
  - apply keeps_bind; [|auto]. unfold mount_scan_block. keeps_tac.
Qed.

Lemma locks_inode_walk fuel it L : keeps LOCKS (mount_inode_walk fuel it L).
Proof. revert it L. induction fuel; intros it L; simpl; keeps_tac. Qed.

Lemma locks_check_allocation L : keeps LOCKS (mount_check_allocation L).
Proof. unfold mount_check_allocation. keeps_tac. Qed.

Lemma locks_check_deletion L : keeps LOCKS (mount_check_deletion L).
Proof. unfold mount_check_deletion. keeps_tac. Qed.

Lemma locks_open_read_loop fuel name it file buf spare :
  keeps LOCKS (open_read_loop fuel name it file buf spare).
Proof.
  revert it buf. induction fuel; intros it buf; simpl; unfold open_read_position; keeps_tac.
Qed.

Lemma locks_mount_exit (e : @env F) :
  LOCKS (snd (mount_success e)) = LOCKS e ++ [FlashUnlock; FsUnlock]
  /\ LOCKS (snd (mount_failure e)) = LOCKS e ++ [FlashUnlock; FsUnlock].
Proof.
  unfold mount_success, mount_failure, bind, do_flash_unlock, driver, fs_unlock, ret.
  cbn [snd calls]. rewrite !filter_app. cbn. now rewrite <- app_assoc.
Qed.

(** X6.  [flogfs_mount] takes the FS lock, then the flash lock, and releases
    them in the opposite order, once each, on every path that returns. *)
Theorem flogfs_mount_lock_calls fuel stack (e : @env F) r e' :
  flogfs_mount fuel stack e = (Some r, e') ->
  filter is_lock_call (calls e')
  = filter is_lock_call (calls e) ++ [FsLock; FlashLock; FlashUnlock; FsUnlock]
  /\ lock (flogfs e') = false.
Proof.
  intros H. split; [|apply flogfs_mount_exit in H; apply H].
  unfold flogfs_mount in H. do 3 inv_bind H.
  assert (K2 : LOCKS e2 = LOCKS e ++ [FsLock; FlashLock]).
  { kept (locks_scan_blocks (Z.to_nat FS_NUM_BLOCKS) 0 (mount_init_locals stack)) Hm1.
    rewrite Hk. unfold do_flash_lock, driver in Hm0. cbn in Hm0. inversion Hm0; subst.
    unfold fs_lock in Hm. inversion Hm; subst. cbn [calls].
    rewrite !filter_app. cbn. now rewrite <- app_assoc. }
  assert (Hexit : forall (ex : @env F) rx ex',
             LOCKS ex = LOCKS e2 ->
             (mount_success ex = (rx, ex') \/ mount_failure ex = (rx, ex')) ->
             LOCKS ex' = LOCKS e ++ [FsLock; FlashLock; FlashUnlock; FsUnlock]).
  { intros ex rx ex' Hx Hrun. destruct (locks_mount_exit ex) as [Hs Hf].
    destruct Hrun as [Hrun|Hrun]; rewrite Hrun in *; cbn [snd] in *;
      [rewrite Hs|rewrite Hf]; rewrite Hx, K2, <- app_assoc; reflexivity. }
  destruct (inode0_idx a1 =? FLOG_BLOCK_IDX_INVALID).
  - do 2 inv_bind H. inv_ret H. eapply Hexit; [|right; exact Hm3].
    unfold do_flash_debug_error, driver in Hm2. cbn in Hm2. inversion Hm2; subst.
    cbn [calls]. rewrite filter_app. cbn. apply app_nil_r.
  - do 2 inv_bind H. destruct a3 as [L'|]; [|inv_ret H; discriminate].
    do 2 inv_bind H.
    kept (locks_iterator_init (inode0_idx a1)) Hm2.
    kept (locks_inode_walk fuel a2 a1) Hm3.
    kept (locks_check_allocation L') Hm4.
    kept (locks_check_deletion a3) Hm5.
    destruct (fst a4); inv_bind H; inv_ret H.
    + eapply Hexit; [|left; exact Hm6]. congruence.
    + eapply Hexit; [|right; exact Hm6]. congruence.
Qed.

Lemma locks_format_erase_loop n : forall i (e : @env F) res e',
  format_erase_loop n i e = (res, e') ->
  LOCKS e' = LOCKS e ++ match res with
                        | Some _ => [FsUnlock; FlashUnlock]
                        | None => []
                        end.
Proof.
  induction n as [|n IH]; intros i e res e' H; cbn [format_erase_loop] in H.
  - inv_ret H. now rewrite app_nil_r.
  - do 2 inv_bind H. inv_driver Hm. inv_driver Hm0. cbn [flash calls flogfs] in H.
    destruct (flash_block_is_bad _); cbn [negb] in H.
    + rewrite (IH _ _ _ _ H). cbn [calls]. rewrite !filter_app. cbn.
      now rewrite !app_nil_r.
    + inv_bind H. inv_driver Hm. cbn [flash calls flogfs] in H.
      destruct (result_eqb FLOG_FAILURE _).
      * unfold bind, fs_unlock, do_flash_unlock, driver, ret in H. cbn in H.
        inversion H; subst. cbn [calls]. rewrite !filter_app. cbn.
        rewrite !app_nil_r, <- app_assoc. reflexivity.
      * rewrite (IH _ _ _ _ H). cbn [calls]. rewrite !filter_app. cbn.
        now rewrite !app_nil_r.
Qed.

Lemma locks_format buf (e : @env F) :
  LOCKS (snd (flogfs_format buf e)) = LOCKS e ++ [FsLock; FsUnlock; FlashUnlock].
Proof.
  destruct (flogfs_format buf e) as [r e'] eqn:H. cbn [snd].
  unfold flogfs_format in H. do 2 inv_bind H.
  unfold fs_lock in Hm. inversion Hm; subst a e0.
  apply locks_format_erase_loop in Hm0. cbn [calls] in Hm0.
  rewrite filter_app in Hm0. cbn in Hm0.
  destruct a0 as [r'|].
  - inv_ret H. rewrite Hm0, <- app_assoc. reflexivity.
  - unfold bind, do_flash_open_page, do_flash_write_sector, do_flash_write_spare,
      do_flash_commit, do_flash_close_page, do_flash_unlock, driver, fs_unlock, ret in H.
    destruct (flash_open_page 0 0 (flash e1)) as [r0 f0]. cbn in H.
    inversion H; subst. cbn [calls].
    rewrite !filter_app, Hm0. cbn. rewrite !app_nil_r, <- !app_assoc. reflexivity.
Qed.

(** X7.  [flogfs_format] and [flogfs_open_read] never call [flash_lock], and both
    call [flash_unlock] on their way out. *)
Theorem flash_unlock_without_flash_lock (e : @env F) :
  (forall buf,
      filter is_lock_call (calls (snd (flogfs_format buf e)))
      = filter is_lock_call (calls e) ++ [FsLock; FsUnlock; FlashUnlock])
  /\ (forall fuel file name buf spare out e',
         (strlen name < FLOG_MAX_FNAME_LEN)%nat ->
         flogfs_open_read fuel file name buf spare e = (Some out, e') ->
         filter is_lock_call (calls e')
         = filter is_lock_call (calls e) ++ [FsLock; FlashUnlock; FsUnlock]).
Proof.
  split; [intros buf; apply locks_format|].
  intros fuel file name buf spare out e' Hlen H. unfold flogfs_open_read in H.
  destruct (Nat.leb_spec FLOG_MAX_FNAME_LEN (strlen name)); [lia|].
  do 4 inv_bind H.
  kept (locks_iterator_init (inode0 a0)) Hm1.
  kept (locks_open_read_loop fuel name a1 file buf spare) Hm2.
  unfold get_fs in Hm0. inversion Hm0; subst a0 e1.
  unfold fs_lock in Hm. inversion Hm; subst a e0. cbn [calls flogfs] in *.
  destruct a2 as [file'|]; [|inv_ret H; discriminate].
  unfold bind, do_flash_unlock, driver, fs_unlock, ret in H. cbn in H.
  inversion H; subst. cbn [calls].
  rewrite !filter_app. rewrite Hk0, Hk, filter_app. cbn.
  rewrite <- !app_assoc. reflexivity.
Qed.

End LockCalls.

Section OpenReadNever.
Context {cfg : Config} {F : Type} {drv : FlashDriver F}.

Local Notation "'WRITES'" := (fun e : @env F => filter is_write_call (calls e)).

Hint Resolve no_write_flog_open_page no_write_iterator_init no_write_iterator_next : keeps.

Lemma no_write_open_read_loop fuel name it file buf spare :
  keeps WRITES (open_read_loop fuel name it file buf spare).
Proof.
  revert it buf. induction fuel; intros it buf; simpl;
    unfold open_read_position, flog_open_sector; keeps_tac.
Qed.
Hint Resolve no_write_open_read_loop : keeps.

Lemma no_write_open_read fuel file name buf spare :
  keeps WRITES (flogfs_open_read fuel file name buf spare).
Proof. unfold flogfs_open_read. keeps_tac. Qed.

(** X1.  [flogfs_open_read] asks the driver for no erase, write or commit, and no
    run of it returns [FLOG_SUCCESS]. *)
Theorem flogfs_open_read_reads_and_fails fuel file name buf spare (e : @env F) :
  filter is_write_call (calls (snd (flogfs_open_read fuel file name buf spare e)))
  = filter is_write_call (calls e)
  /\ forall file',
      fst (flogfs_open_read fuel file name buf spare e) <> Some (FLOG_SUCCESS, file').
Proof.
  split; [apply no_write_open_read|].
  intros file' H.
  destruct (flogfs_open_read fuel file name buf spare e) as [res e'] eqn:Hrun.
  cbn [fst] in H. subst res.
  apply flogfs_open_read_never_succeeds in Hrun. discriminate.
Qed.

End OpenReadNever.

Section MountWrites.
Context {cfg : Config} {F : Type} {drv : FlashDriver F}.

Local Notation "'WRITES'" := (fun e : @env F => filter is_write_call (calls e)).
Local Notation "'CLOCK'" := (fun e : @env F => t (flogfs e)).

Lemma clock_flog_open_page b p : keeps CLOCK (flog_open_page b p).
Proof. unfold flog_open_page. keeps_tac. Qed.
Hint Resolve clock_flog_open_page : keeps.

Lemma clock_iterator_init b : keeps CLOCK (flog_inode_iterator_init b).
Proof. unfold flog_inode_iterator_init, read_next_block. keeps_tac. Qed.

Lemma clock_iterator_next it : keeps CLOCK (flog_inode_iterator_next it).
Proof. unfold flog_inode_iterator_next, read_next_block. keeps_tac. Qed.
Hint Resolve clock_iterator_init clock_iterator_next : keeps.

Lemma clock_scan_blocks n i L : keeps CLOCK (mount_scan_blocks n i L).
Proof.
  revert i L. induction n; intros i L; simpl.
  - keeps_tac.
  - apply keeps_bind; [|auto]. unfold mount_scan_block. keeps_tac.
Qed.

Lemma clock_inode_walk fuel it L : keeps CLOCK (mount_inode_walk fuel it L).
Proof.
  revert it L. induction fuel; intros it L; simpl; unfold flog_open_sector; keeps_tac.
Qed.

Lemma clock_check_deletion L : keeps CLOCK (mount_check_deletion L).
Proof. unfold mount_check_deletion, flog_open_sector. keeps_tac. Qed.

Lemma clock_mount_exit : keeps CLOCK mount_success /\ keeps CLOCK mount_failure.
Proof. unfold mount_success, mount_failure. split; keeps_tac. Qed.

Lemma no_write_mount_exit : keeps WRITES mount_success /\ keeps WRITES mount_failure.
Proof. unfold mount_success, mount_failure. split; keeps_tac. Qed.

(** What the recovery pass of the last allocation does to the medium and
    the clock: nothing, or the one repair. *)
Lemma check_allocation_writes L (e : @env F) :
  let la := last_allocation L in
  let e' := snd (mount_check_allocation L e) in
  (WRITES e' = WRITES e /\ CLOCK e' = CLOCK e)
  \/ (exists hdr sp,
         WRITES e' = WRITES e ++ [FlashEraseBlock (la_block la);
                                  FlashWriteSector hdr 0 0;
                                  FlashWriteSpare sp 0;
                                  FlashCommit]
         /\ length hdr = sizeof_file_sector0_header
         /\ length sp = sizeof_spare
         /\ CLOCK e' = wrap32 (la_timestamp la + 1)).
Proof.
  intros la e'. subst e'.
  destruct (mount_check_allocation L e) as [L' e'] eqn:H. cbn [snd].
  unfold mount_check_allocation in H. fold la in H.
  destruct (la_timestamp la >? 0); [|inv_ret H; left; split; reflexivity].
  do 2 inv_bind H. unfold flog_open_sector in Hm.
  kept (no_write_flog_open_page (la_block la) (0 / FS_SECTORS_PER_PAGE)) Hm.
  kept (clock_flog_open_page (la_block la) (0 / FS_SECTORS_PER_PAGE)) Hm.
  inv_driver Hm0. cbn [sector0_buffer set_sector0_buffer] in H.
  destruct (negb _).
  - right. do 2 inv_bind H. inv_driver Hm0.
    kept (no_write_flog_open_page (la_block la) 0) Hm1.
    kept (clock_flog_open_page (la_block la) 0) Hm1.
    cbn [flogfs flash calls] in Hk1, Hk2.
    inv_bind H. inv_driver Hm0. inv_bind H. inv_driver Hm0.
    inv_bind H. inv_driver Hm0. inv_bind H.
    unfold modify_fs in Hm0. inversion Hm0; subst; clear Hm0. inv_ret H.
    cbn [flogfs flash calls t set_t].
    eexists _, _. split; [|split; [apply length_fit|split; [apply length_fit|reflexivity]]].
    rewrite !filter_app. cbn [filter is_write_call]. rewrite Hk1.
    rewrite !filter_app. cbn [filter is_write_call]. rewrite Hk.
    rewrite !app_nil_r, <- !app_assoc. reflexivity.
  - inv_ret H. left. cbn [flogfs flash calls]. split; [|exact Hk0].
    rewrite filter_app. cbn. now rewrite app_nil_r.
Qed.

Hint Resolve no_write_iterator_init : keeps.


End MountWrites.

(** ** [flogfs_mount]: the repair of the last allocation *)

Section OnlyReads.
Context {cfg : Config} {F : Type} {drv : FlashDriver F}.

Lemma only_reads_ret {A} (a : A) : only_reads (ret a : @M F A).
Proof. intros e. exists []. split; [symmetry; apply app_nil_r|reflexivity]. Qed.

Lemma only_reads_bind {A B} (m : @M F A) (k : A -> @M F B) :
  only_reads m -> (forall a, only_reads (k a)) -> only_reads (bind m k).
Proof.
  intros Hm Hk e. unfold bind. destruct (Hm e) as (r1 & H1 & W1).
  destruct (m e) as [a e1]. cbn [snd] in H1.
  destruct (Hk a e1) as (r2 & H2 & W2).
  exists (r1 ++ r2). split.
  - rewrite H2, H1. now rewrite app_assoc.
  - rewrite filter_app, W1, W2. reflexivity.
Qed.

Lemma only_reads_get_fs : only_reads (get_fs : @M F flogfs_t).
Proof. intros e. exists []. split; [symmetry; apply app_nil_r|reflexivity]. Qed.

Lemma only_reads_modify (u : flogfs_t -> flogfs_t) : only_reads (modify_fs u : @M F unit).
Proof. intros e. exists []. split; [symmetry; apply app_nil_r|reflexivity]. Qed.

Lemma only_reads_driver {A} (c : call) (op : F -> A * F) :
  is_write_call c = false -> only_reads (driver c op).
Proof.
  intros H e. unfold driver. destruct (op (flash e)). exists [c].
  split; [reflexivity|]. cbn [filter]. now rewrite H.
Qed.

Lemma only_reads_fs_lock :
  only_reads (fs_lock : @M F unit) /\ only_reads (fs_unlock : @M F unit).
Proof. split; intros e; eexists [_]; split; reflexivity. Qed.

End OnlyReads.

Create HintDb only_reads discriminated.

#[export] Hint Resolve only_reads_ret only_reads_get_fs only_reads_modify : only_reads.
#[export] Hint Extern 1 (only_reads fs_lock) => apply only_reads_fs_lock : only_reads.
#[export] Hint Extern 1 (only_reads fs_unlock) => apply only_reads_fs_lock : only_reads.
#[export] Hint Extern 2 (only_reads (driver _ _)) =>
  apply only_reads_driver; reflexivity : only_reads.

Ltac only_reads_step :=
  first
    [ solve [auto with only_reads]
    | progress unfold_driver
    | progress cbv zeta
    | match goal with
      | |- only_reads (if ?c then _ else _) => destruct c
      | |- only_reads (match ?x with _ => _ end) => destruct x
      end
    | apply only_reads_bind; [| intros ?] ].

Ltac only_reads_tac := repeat only_reads_step.

Section AllocationRepair.
Context {cfg : Config} {F : Type} {drv : FlashDriver F}.

Local Notation "'CLOCK'" := (fun e : @env F => t (flogfs e)).

Lemma only_reads_flog_open_page b p : only_reads (flog_open_page b p).
Proof. unfold flog_open_page. only_reads_tac. Qed.
Hint Resolve only_reads_flog_open_page : only_reads.

Lemma only_reads_check_deletion L : only_reads (mount_check_deletion L).
Proof. unfold mount_check_deletion, flog_open_sector. only_reads_tac. Qed.

Lemma only_reads_mount_exit : only_reads mount_success /\ only_reads mount_failure.
Proof. unfold mount_success, mount_failure. split; only_reads_tac. Qed.

(** [flogfs_mount] from line 418 on, when inode table 0 was found and the
    walk has met the end marker. *)
Lemma flogfs_mount_behind_walk fuel stack (e : @env F) L :
  inode0_idx (fst (mount_census stack e)) <> FLOG_BLOCK_IDX_INVALID ->
  fst (mount_walked fuel stack e) = Some L ->
  flogfs_mount fuel stack e
  = bind (mount_check_allocation L) (fun L1 =>
      bind (mount_check_deletion L1) (fun chk =>
        if fst chk
        then bind mount_success (fun r => ret (Some r))
        else bind mount_failure (fun r => ret (Some r))))
      (snd (mount_walked fuel stack e)).
Proof.
  intros Hfound Hwalk. unfold mount_walked, mount_first_iter in *.
  unfold flogfs_mount. unfold mount_census in *.
  unfold bind at 1. unfold bind at 1. unfold bind at 1.
  destruct (fs_lock e) as [u0 e0]. cbn [snd] in *.
  destruct (do_flash_lock e0) as [u1 e1]. cbn [snd] in *.
  destruct (mount_scan_blocks (Z.to_nat FS_NUM_BLOCKS) 0 (mount_init_locals stack) e1)
    as [L1 e2]. cbn [fst snd] in *.
  destruct (Z.eqb_spec (inode0_idx L1) FLOG_BLOCK_IDX_INVALID) as [E|_]; [contradiction|].
  unfold bind at 1.
  destruct (flog_inode_iterator_init (inode0_idx L1) e2) as [it e3]. cbn [fst snd] in *.
  unfold bind at 1.
  destruct (mount_inode_walk fuel it L1 e3) as [w e4]. cbn [fst snd] in *.
  subst w. reflexivity.
Qed.

(** C4.  Whenever [flogfs_mount] has found inode table 0 and walked the inode
    chain to its end marker, the last-allocation candidate [la] it holds then
    exists (its timestamp is above 0), and reading sector 0 of the
    candidate's target block yields a file id other than the candidate's,
    the calls of [flogfs_mount] behind the opening of that sector are: the
    read of sector 0, the erase of the target block, the write to sector 0 of
    a header holding the announced age and the candidate's file id, the
    write of a spare with type FILE and [nbytes] 0, the commit, and then
    calls that neither erase, write nor commit; [flogfs_mount] returns, and
    the clock [t] is the candidate's timestamp plus one ([uint32_t]
    addition, which is the plain sum whenever that fits). *)
Theorem flogfs_mount_repairs_allocation fuel stack (e : @env F) L :
  let walked := mount_walked fuel stack e in
  let la := last_allocation L in
  let e0 := snd (flog_open_sector (la_block la) 0 (snd walked)) in
  let found := fit sizeof_file_sector0_header
                 (flash_read_sector 0 0 sizeof_file_sector0_header (flash e0)) in
  let e' := snd (flogfs_mount fuel stack e) in
  LayoutOk ->
  inode0_idx (fst (mount_census stack e)) <> FLOG_BLOCK_IDX_INVALID ->
  fst walked = Some L ->
  la_timestamp la > 0 ->
  get_field file_sector0_file_id found <> la_file_id la ->
  exists (header spare : list byte) (rest : list call) (r : flog_result_t),
    fst (flogfs_mount fuel stack e) = Some r
    /\ length header = sizeof_file_sector0_header
    /\ get_field file_sector0_age header = la_age la
    /\ get_field file_sector0_file_id header = la_file_id la
    /\ length spare = sizeof_spare
    /\ get_field file_spare_type_id spare = FLOG_BLOCK_TYPE_FILE
    /\ get_field file_spare_nbytes spare = 0
    /\ calls e' = calls e0 ++ [FlashReadSector 0 0 sizeof_file_sector0_header;
                               FlashEraseBlock (la_block la);
                               FlashWriteSector header 0 0;
                               FlashWriteSpare spare 0;
                               FlashCommit] ++ rest
    /\ filter is_write_call rest = []
    /\ t (flogfs e') = wrap32 (la_timestamp la + 1)
    /\ (la_timestamp la + 1 < 2 ^ 32 -> t (flogfs e') = la_timestamp la + 1).
Proof.
  intros walked la e0 found e' OK Hfound Hwalk Hts Hne.
  assert (Hrange : candidate_in_range L).
  { apply (mount_candidate_in_range fuel stack e L (snd walked)).
    fold (mount_walked fuel stack e). fold walked. now apply run_result. }
  destruct (mount_check_allocation_repairs L (snd walked) OK Hrange Hts Hne)
    as (header & spare & Hlh & Hage & Hid & Hls & Hty & Hnb & Hcalls & _ & Ht & _).
  fold la e0 in Hcalls. fold la in Ht.
  subst e'. destruct (flogfs_mount fuel stack e) as [res e'] eqn:Hmount. cbn [fst snd].
  rewrite (flogfs_mount_behind_walk fuel stack e L Hfound Hwalk) in Hmount.
  fold walked in Hmount.
  run_bind Hmount as L1 e5 Halloc. run_bind Hmount as chk e6 Hdel.
  rewrite Halloc in Hcalls, Ht. cbn [snd] in Hcalls, Ht.
  destruct (only_reads_check_deletion L1 e5) as (rest1 & Hc6 & Hw6).
  kept (clock_check_deletion L1) Hdel. rewrite Hdel in Hc6. cbn [snd] in Hc6.
  destruct only_reads_mount_exit as [Rs Rf]. destruct clock_mount_exit as [Cs Cf].
  assert (Hend : exists r rest2,
             res = Some r /\ calls e' = calls e6 ++ rest2
             /\ filter is_write_call rest2 = [] /\ t (flogfs e') = t (flogfs e6)).
  { destruct (fst chk); run_bind Hmount as r e7 Hexit; inv_ret Hmount.
    - destruct (Rs e6) as (rest2 & H2 & W2). kept Cs Hexit.
      rewrite Hexit in H2. exists r, rest2. repeat split; assumption.
    - destruct (Rf e6) as (rest2 & H2 & W2). kept Cf Hexit.
      rewrite Hexit in H2. exists r, rest2. repeat split; assumption. }
  destruct Hend as (r & rest2 & Hres & Hc7 & Hw7 & Ht7).
  assert (Hclock : t (flogfs e') = wrap32 (la_timestamp la + 1)) by congruence.
  exists header, spare, (rest1 ++ rest2), r.
  split; [exact Hres|]. do 6 (split; [assumption|]).
  split; [rewrite Hc7, Hc6, Hcalls; now rewrite <- !app_assoc|].
  split; [rewrite filter_app, Hw6, Hw7; reflexivity|].
  split; [exact Hclock|].
  intros Hsmall. rewrite Hclock. unfold wrap32. apply Z.mod_small. lia.
Qed.

End AllocationRepair.

Section FormatFailure.
Context {cfg : Config} {F : Type} {drv : FlashDriver F}.

Lemma format_erase_loop_failure n : forall i (e : @env F) r e',
  format_erase_loop n i e = (Some r, e') ->
  r = FLOG_FAILURE
  /\ exists k l,
      i <= k < i + Z.of_nat n
      /\ calls e' = calls e ++ l ++ [FlashEraseBlock k; FsUnlock; FlashUnlock]
      /\ forallb (erase_pass_call k) l = true
      /\ flogfs e' = set_lock false (flogfs e).
Proof.
  induction n as [|n IH]; intros i e r e' H; cbn [format_erase_loop] in H.
  - inv_ret H. discriminate.
  - run_bind H as r0 e0 Hopen. run_bind H as bad e1 Hbad.
    inv_driver Hopen. inv_driver Hbad. cbn [flash calls flogfs] in H.
    destruct (flash_block_is_bad _); cbn [negb] in H.
    + apply IH in H. destruct H as (-> & k & l & Hk & Hc & Hl & Hfs).
      split; [reflexivity|].
      exists k, ([FlashOpenPage i 0; FlashBlockIsBad] ++ l).
      split; [lia|]. split; [|split].
      * rewrite Hc. cbn [calls]. rewrite <- !app_assoc. reflexivity.
      * cbn [app forallb erase_pass_call]. rewrite Hl, Z.eqb_refl.
        replace (i <=? k) with true by (symmetry; apply Z.leb_le; lia). reflexivity.
      * exact Hfs.
    + run_bind H as r1 e2 Herase. inv_driver Herase. cbn [flash calls flogfs] in H.
      destruct (result_eqb FLOG_FAILURE _).
      * unfold bind, fs_unlock, do_flash_unlock, driver, ret in H. cbn in H.
        inversion H; subst. split; [reflexivity|].
        exists i, [FlashOpenPage i 0; FlashBlockIsBad].
        split; [lia|]. split; [|split].
        -- cbn [calls]. rewrite <- !app_assoc. reflexivity.
        -- cbn. now rewrite Z.leb_refl.
        -- reflexivity.
      * apply IH in H. destruct H as (-> & k & l & Hk & Hc & Hl & Hfs).
        split; [reflexivity|].
        exists k, ([FlashOpenPage i 0; FlashBlockIsBad; FlashEraseBlock i] ++ l).
        split; [lia|]. split; [|split].
        -- rewrite Hc. cbn [calls]. rewrite <- !app_assoc. reflexivity.
        -- cbn [app forallb erase_pass_call]. rewrite Hl, Z.eqb_refl.
           replace (i <=? k) with true by (symmetry; apply Z.leb_le; lia).
           replace (i <? k) with true by (symmetry; apply Z.ltb_lt; lia). reflexivity.
        -- exact Hfs.
Qed.

(** X13.  When [flash_erase_block] fails for a block [k], [flogfs_format] returns
    [FLOG_FAILURE] at once: up to then it has opened page 0 of the blocks up
    to [k], asked for their bad-block marks and erased blocks before [k]; it
    has written no sector and no spare; it releases the FS lock, calls
    [flash_unlock] and changes no other field of [flogfs]. *)
Theorem flogfs_format_stops_at_failed_erase buf (e : @env F) e' :
  flogfs_format buf e = (FLOG_FAILURE, e') ->
  exists k l,
    0 <= k < FS_NUM_BLOCKS
    /\ calls e' = calls e ++ [FsLock] ++ l ++ [FlashEraseBlock k; FsUnlock; FlashUnlock]
    /\ forallb (erase_pass_call k) l = true
    /\ flogfs e' = set_lock false (flogfs e).
Proof.
  intros H. unfold flogfs_format in H.
  run_bind H as u e0 Hlock. run_bind H as early e1 Hloop.
  unfold fs_lock in Hlock. inversion Hlock; subst u e0; clear Hlock.
  destruct early as [r|].
  - inv_ret H. apply format_erase_loop_failure in Hloop.
    destruct Hloop as (_ & k & l & Hk & Hc & Hl & Hfs).
    exists k, l. cbn [calls flogfs] in Hc, Hfs. split; [lia|].
    split; [|split; [exact Hl|]].
    + rewrite Hc, <- !app_assoc. reflexivity.
    + rewrite Hfs. now destruct (flogfs e).
  - exfalso. repeat (apply bind_inv in H; destruct H as (? & ? & _ & H)).
    apply ret_inv in H. destruct H. discriminate.
Qed.

End FormatFailure.

Section CacheMiss.
Context {cfg : Config} {F : Type} {drv : FlashDriver F}.

Lemma flog_open_page_miss (block page : Z) (e : @env F) :
  ~ page_is_open block page (flogfs e) ->
  flog_open_page block page e
  = (fst (flash_open_page block page (flash e)),
     mkEnv (set_cache (fst (flash_open_page block page (flash e))) block page (flogfs e))
       (snd (flash_open_page block page (flash e)))
       (calls e ++ [FlashOpenPage block page])).
Proof.
  intros Hno. unfold flog_open_page, bind, get_fs, ret.
  destruct (negb (page_open (flogfs e) =? 0)
            && (current_open_block (flogfs e) =? block)
            && (current_open_page (flogfs e) =? page)) eqn:E.
  - exfalso. apply Hno.
    apply andb_prop in E as [E Hp]. apply andb_prop in E as [Ho Hb].
    apply negb_true_iff, Z.eqb_neq in Ho. apply Z.eqb_eq in Hb, Hp.
    unfold page_is_open. auto.
  - unfold do_flash_open_page, driver, modify_fs.
    destruct (flash_open_page block page (flash e)) as [r f]. reflexivity.
Qed.

(** X18.  [flog_close_sector] only clears [page_open]: it makes no driver call, in
    particular no [flash_close_page].  After it, and after [flogfs_init],
    [flog_open_page] calls [flash_open_page] for whatever page is asked,
    also for the one the cache named, and records block, page and the
    driver's result, be it success or failure. *)
Theorem flog_open_page_after_invalidation (block page : Z) (e : @env F) :
  let reopened (e0 : @env F) :=
    let r := fst (flash_open_page block page (flash e0)) in
    (r, mkEnv (set_cache r block page (flogfs e0))
          (snd (flash_open_page block page (flash e0)))
          (calls e0 ++ [FlashOpenPage block page])) in
  flog_close_sector e = (tt, mkEnv (set_page_open 0 (flogfs e)) (flash e) (calls e))
  /\ flog_open_page block page (snd (flog_close_sector e))
     = reopened (snd (flog_close_sector e))
  /\ flog_open_page block page (snd (flogfs_init e))
     = reopened (snd (flogfs_init e)).
Proof.
  intros reopened. split; [reflexivity|]. split.
  - apply flog_open_page_miss. intros (Ho & _). now apply Ho.
  - apply flog_open_page_miss. intros (Ho & _).
    destruct (flogfs_init_resets_first e) as (_ & _ & _ & _ & Hp). now apply Ho.
Qed.

End CacheMiss.

Section OpenReadHandle.
Context {cfg : Config} {F : Type} {drv : FlashDriver F}.

Lemma open_read_position_handle file buf spare (e : @env F) :
  get_field inval_timestamp buf = FLOG_TIMESTAMP_INVALID ->
  positioned file (fst (open_read_position file buf spare e)).
Proof.
  intros Hinv. right.
  assert (Hid : off_alloc_file_id = off_inval_timestamp ->
                get_field alloc_file_id buf = FLOG_FILE_ID_INVALID).
  { intros Hoff. unfold alloc_file_id. rewrite Hoff. exact Hinv. }
  destruct (open_read_position file buf spare e) as [file' e'] eqn:H. cbn [fst].
  unfold open_read_position in H.
  run_bind H as r0 e0 Hopen. run_bind H as sp e1 Hspare.
  destruct (get_field file_spare_nbytes (blit sp spare) =? 0) eqn:E; cbn [negb] in H.
  - run_bind H as r1 e2 Hopen1. run_bind H as sp1 e3 Hspare1. inv_ret H.
    cbn. split; [|exact Hid]. right. split; reflexivity.
  - inv_ret H. cbn. split; [|exact Hid]. left.
    repeat split. now apply Z.eqb_neq.
Qed.

Lemma open_read_loop_handle fuel name : forall it file buf spare (e : @env F) file' e',
  open_read_loop fuel name it file buf spare e = (Some file', e') ->
  positioned file file'.
Proof.
  induction fuel as [|fuel IH]; intros it file buf spare e file' e' H.
  - inv_ret H. discriminate.
  - cbn [open_read_loop] in H.
    run_bind H as r0 e0 Hopen. run_bind H as d e1 Hread.
    destruct (get_field alloc_file_id (blit d buf) =? FLOG_FILE_ID_INVALID).
    { run_bind H as u e2 Hwarn. apply ret_inv in H. destruct H as [Hf _].
      inversion Hf; subst. now left. }
    destruct (negb (strncmp_eq name (alloc_filename (blit d buf)) FLOG_MAX_FNAME_LEN)).
    { run_bind H as it' e2 Hnext. eapply IH; eauto. }
    run_bind H as r1 e2 Hopen1. run_bind H as d1 e3 Hread1.
    destruct (get_field inval_timestamp (blit d1 (blit d buf)) =? FLOG_TIMESTAMP_INVALID) eqn:E;
      cbn [negb] in H.
    + run_bind H as f1 e4 Hpos. apply ret_inv in H. destruct H as [Hf _].
      inversion Hf; subst.
      pose proof (open_read_position_handle file (blit d1 (blit d buf)) spare e3) as P.
      rewrite Hpos in P. apply P. now apply Z.eqb_eq.
    + run_bind H as it' e4 Hnext. eapply IH; eauto.
Qed.

(** X2.  Whenever [flogfs_open_read] returns, the handle is either untouched or
    holds a cursor at the start of the file data: sector 0 behind the file
    header when that sector counts bytes, sector 1 from its start otherwise.
    The file id in such a cursor is the all-ones sentinel whenever [file_id]
    and the invalidation timestamp sit at the same offset of their
    records. *)
Theorem flogfs_open_read_handle fuel file name buf spare (e : @env F) r file' e' :
  flogfs_open_read fuel file name buf spare e = (Some (r, file'), e') ->
  positioned file file'.
Proof.
  unfold flogfs_open_read. intros H.
  destruct (FLOG_MAX_FNAME_LEN <=? strlen name)%nat.
  - apply ret_inv in H. destruct H as [Hf _]. inversion Hf; subst. now left.
  - run_bind H as u e0 Hlock. run_bind H as fs e1 Hfs. run_bind H as it e2 Hinit.
    run_bind H as out e3 Hloop. destruct out as [f1|].
    + apply open_read_loop_handle in Hloop.
      unfold bind, do_flash_unlock, driver, fs_unlock, ret in H. cbn in H.
      inversion H; subst. exact Hloop.
    + inv_ret H. discriminate.
Qed.

End OpenReadHandle.

Section IteratorInvariant.
Context {cfg : Config} {F : Type} {drv : FlashDriver F}.

Lemma iterator_init_value b (e : @env F) :
  fst (flog_inode_iterator_init b e)
  = mkIter b (iter_next_block (fst (flog_inode_iterator_init b e))) 0
      (wrap16 FS_SECTORS_PER_PAGE).
Proof.
  unfold flog_inode_iterator_init, bind, read_next_block, bind, do_flash_read_sector,
    driver, ret.
  destruct (flog_open_page b 0 e) as [r e1]. reflexivity.
Qed.

Lemma iterator_next_value it (e : @env F) :
  let it' := fst (flog_inode_iterator_next it e) in
  iter_inode_idx it' = wrap32 (iter_inode_idx it + 1)
  /\ iter_sector it'
     = if wrap16 (iter_sector it + 2) >=? FS_PAGES_PER_BLOCK * FS_SECTORS_PER_PAGE
       then wrap16 FS_SECTORS_PER_PAGE
       else wrap16 (iter_sector it + 2).
Proof.
  unfold flog_inode_iterator_next.
  destruct (wrap16 (iter_sector it + 2) >=? FS_PAGES_PER_BLOCK * FS_SECTORS_PER_PAGE).
  - unfold bind, read_next_block, bind, do_flash_read_sector, driver, ret.
    destruct (flog_open_page (iter_next_block it) 0 e) as [r e1]. split; reflexivity.
  - split; reflexivity.
Qed.

Lemma even_pair_same_page s n :
  0 < n -> n mod 2 = 0 -> 0 <= s -> s mod 2 = 0 -> (s + 1) / n = s / n.
Proof.
  intros Hn Hne Hs Hse.
  symmetry. apply Z.div_unique with (r := s mod n + 1); [|].
  - left. pose proof (Z.mod_pos_bound s n Hn) as Hb.
    assert (s mod n <> n - 1).
    { intros E.
      pose proof (Z.div_mod s n ltac:(lia)) as D.
      pose proof (Z.div_mod n 2 ltac:(lia)) as Dn.
      pose proof (Z.div_mod s 2 ltac:(lia)) as Ds.
      rewrite Hne in Dn. rewrite Hse in Ds. rewrite E in D.
      (* s = n * q + n - 1 with n, s even: contradiction *)
      assert (Hodd : (n * (s / n) + (n - 1)) mod 2 = 1).
      { replace (n * (s / n) + (n - 1)) with (1 + (n / 2 * (s / n + 1) - 1) * 2) by lia.
        rewrite Z.mod_add by lia. reflexivity. }
      rewrite <- D in Hodd. lia. }
    lia.
  - pose proof (Z.div_mod s n ltac:(lia)). lia.
Qed.

(** X16.  With an even number of sectors per page the iterator only ever points at
    an even sector behind page 0 whose successor lies in the same page of the
    same block: [flog_inode_iterator_init] starts there and
    [flog_inode_iterator_next] stays there.  The invalidation record of an
    entry is therefore read through the page that was opened for its
    allocation record, without another [flash_open_page]. *)
Theorem iterator_stays_in_block (b : Z) (it : flog_inode_iterator_t) (e : @env F) :
  entry_geometry ->
  iter_in_block (fst (flog_inode_iterator_init b e))
  /\ (iter_in_block it -> iter_in_block (fst (flog_inode_iterator_next it e)))
  /\ (iter_in_block it ->
      wrap16 (iter_sector it + 1) = iter_sector it + 1
      /\ (iter_sector it + 1) / FS_SECTORS_PER_PAGE
         = iter_sector it / FS_SECTORS_PER_PAGE
      /\ 1 <= iter_sector it / FS_SECTORS_PER_PAGE < FS_PAGES_PER_BLOCK)
  /\ (iter_in_block it ->
      forall (f : F) (cs : list call),
        let e1 := snd (flog_open_sector (iter_block it) (iter_sector it) e) in
        flog_open_sector (iter_block it) (wrap16 (iter_sector it + 1))
          (mkEnv (flogfs e1) f cs)
        = (page_open_result (flogfs e1), mkEnv (flogfs e1) f cs)).
Proof.
  intros (Hspp & Heven & Hppb & Hfit).
  assert (Hspp2 : 2 <= FS_SECTORS_PER_PAGE).
  { pose proof (Z.div_mod FS_SECTORS_PER_PAGE 2 ltac:(lia)). lia. }
  assert (Hblock : (FS_PAGES_PER_BLOCK * FS_SECTORS_PER_PAGE) mod 2 = 0).
  { rewrite <- Z.mul_mod_idemp_r, Heven, Z.mul_0_r by lia. reflexivity. }
  assert (Hw : wrap16 FS_SECTORS_PER_PAGE = FS_SECTORS_PER_PAGE).
  { unfold wrap16. apply Z.mod_small. nia. }
  assert (Hstart : FS_SECTORS_PER_PAGE + 1 < FS_PAGES_PER_BLOCK * FS_SECTORS_PER_PAGE) by nia.
  assert (Hpair : iter_in_block it ->
                  wrap16 (iter_sector it + 1) = iter_sector it + 1
                  /\ (iter_sector it + 1) / FS_SECTORS_PER_PAGE
                     = iter_sector it / FS_SECTORS_PER_PAGE
                  /\ 1 <= iter_sector it / FS_SECTORS_PER_PAGE < FS_PAGES_PER_BLOCK).
  { intros (Hlo & Hhi & Hpar). split; [|split].
    - unfold wrap16. apply Z.mod_small. lia.
    - apply even_pair_same_page; lia.
    - split.
      + apply Z.div_le_lower_bound; lia.
      + apply Z.div_lt_upper_bound; lia. }
  split; [|split; [|split; [exact Hpair|]]].
  - rewrite iterator_init_value. unfold iter_in_block. cbn [iter_sector].
    rewrite Hw. repeat split; [lia|exact Hstart|exact Heven].
  - intros (Hlo & Hhi & Hpar).
    destruct (iterator_next_value it e) as [_ Hs]. unfold iter_in_block. rewrite Hs.
    assert (Hw2 : wrap16 (iter_sector it + 2) = iter_sector it + 2).
    { unfold wrap16. apply Z.mod_small. lia. }
    rewrite Hw2, Hw.
    assert (Hpar2 : (iter_sector it + 2) mod 2 = 0).
    { replace (iter_sector it + 2) with (iter_sector it + 1 * 2) by lia.
      now rewrite Z.mod_add by lia. }
    destruct (Z.geb_spec (iter_sector it + 2) (FS_PAGES_PER_BLOCK * FS_SECTORS_PER_PAGE)).
    + repeat split; [lia|exact Hstart|exact Heven].
    + repeat split; [lia| |exact Hpar2].
      pose proof (Z.div_mod (iter_sector it + 2) 2 ltac:(lia)) as D1.
      pose proof (Z.div_mod (FS_PAGES_PER_BLOCK * FS_SECTORS_PER_PAGE) 2 ltac:(lia)) as D2.
      lia.
  - intros Hin f cs e1. destruct (Hpair Hin) as (Hw1 & Hdiv & _).
    unfold flog_open_sector. rewrite Hw1, Hdiv.
    apply (flog_open_page_hit (iter_block it) (iter_sector it / FS_SECTORS_PER_PAGE)
             (mkEnv (flogfs e1) f cs)).
    cbn [flogfs]. unfold e1, flog_open_sector. apply flog_open_page_opens.
Qed.

Lemma entries_per_block_double :
  entry_geometry ->
  1 <= entries_per_block
  /\ FS_PAGES_PER_BLOCK * FS_SECTORS_PER_PAGE = FS_SECTORS_PER_PAGE + 2 * entries_per_block.
Proof.
  intros (Hspp & Heven & Hppb & Hfit). unfold entries_per_block.
  pose proof (Z.div_mod FS_SECTORS_PER_PAGE 2 ltac:(lia)) as D.
  rewrite Heven in D.
  assert (E : (FS_PAGES_PER_BLOCK - 1) * FS_SECTORS_PER_PAGE
              = (FS_PAGES_PER_BLOCK - 1) * (FS_SECTORS_PER_PAGE / 2) * 2) by lia.
  rewrite E, Z.div_mul by lia. split; nia.
Qed.

(** X17.  The entry numbered [inode_idx] sits at sector
    [FS_SECTORS_PER_PAGE + 2 * (inode_idx mod n)] of its block, [n] being the
    [(FS_PAGES_PER_BLOCK - 1) * FS_SECTORS_PER_PAGE / 2] entries an inode
    block holds: [flog_inode_iterator_init] starts that way and
    [flog_inode_iterator_next] keeps it so as long as [inode_idx] does not
    wrap around. *)
Theorem iterator_index_gives_sector (b : Z) (it : flog_inode_iterator_t) (e : @env F) :
  entry_geometry ->
  iter_at_index (fst (flog_inode_iterator_init b e))
  /\ (0 <= iter_inode_idx it -> iter_inode_idx it + 1 < 2 ^ 32 ->
      iter_at_index it ->
      iter_at_index (fst (flog_inode_iterator_next it e))).
Proof.
  intros Hg. destruct (entries_per_block_double Hg) as [Hn Hblock].
  destruct Hg as (Hspp & Heven & Hppb & Hfit).
  assert (Hw : wrap16 FS_SECTORS_PER_PAGE = FS_SECTORS_PER_PAGE).
  { unfold wrap16. apply Z.mod_small. nia. }
  split.
  - rewrite iterator_init_value. unfold iter_at_index. cbn [iter_sector iter_inode_idx].
    rewrite Hw, Z.mod_0_l by (clear - Hn; lia). now rewrite Z.mul_0_r, Z.add_0_r.
  - intros Hidx0 Hidx Hat. unfold iter_at_index in *.
    destruct (iterator_next_value it e) as [Hi Hs]. rewrite Hi, Hs, Hw.
    unfold wrap32. rewrite (Z.mod_small (iter_inode_idx it + 1)) by lia.
    assert (Hpos : 0 < entries_per_block) by lia.
    assert (Hnz : entries_per_block <> 0) by lia.
    pose proof (Z.mod_pos_bound (iter_inode_idx it) entries_per_block Hpos) as Hm.
    pose proof (Z.div_mod (iter_inode_idx it) entries_per_block Hnz) as D.
    set (m := iter_inode_idx it mod entries_per_block) in *.
    set (q := iter_inode_idx it / entries_per_block) in *.
    assert (Hw2 : wrap16 (iter_sector it + 2) = iter_sector it + 2).
    { unfold wrap16. apply Z.mod_small. lia. }
    rewrite Hw2, Hblock, Hat.
    destruct (Z.geb_spec (FS_SECTORS_PER_PAGE + 2 * m + 2)
                (FS_SECTORS_PER_PAGE + 2 * entries_per_block)).
    + assert (m = entries_per_block - 1) by lia.
      replace ((iter_inode_idx it + 1) mod entries_per_block) with 0; [lia|].
      apply Z.mod_unique with (q := q + 1); lia.
    + replace ((iter_inode_idx it + 1) mod entries_per_block) with (m + 1); [lia|].
      apply Z.mod_unique with (q := q); lia.
Qed.

End IteratorInvariant.

Section NandFormat.
Context {cfg : Config}.

Lemma of_Z_mod z : of_Z (z mod 256) = of_Z z.
Proof. unfold of_Z. now rewrite Z.mod_mod by lia. Qed.

Lemma band_idempotent a b : band (band a b) b = band a b.
Proof.
  unfold band. rewrite unsigned_of_Z.
  rewrite <- (of_Z_mod (Z.land _ (unsigned b))), <- (of_Z_mod (Z.land (unsigned a) _)).
  f_equal. change 256 with (2 ^ 8). rewrite <- !Z.land_ones by lia.
  apply Z.bits_inj. intros n. rewrite !Z.land_spec.
  destruct (Z.testbit (unsigned a) n), (Z.testbit (unsigned b) n),
    (Z.testbit (Z.ones 8) n); reflexivity.
Qed.

Lemma program_ext c c' off src k :
  c k = c' k -> Nand.program c off src k = Nand.program c' off src k.
Proof. intros H. unfold Nand.program. now rewrite H. Qed.

Lemma program_idempotent c off src k :
  Nand.program (Nand.program c off src) off src k = Nand.program c off src k.
Proof.
  unfold Nand.program.
  destruct ((off <=? k) && (k <? off + length src))%nat; [|reflexivity].
  apply band_idempotent.
Qed.

(** The erase loop of [flogfs_format] on the simulation: it runs to its end
    and erases exactly the good blocks it visits. *)
Lemma nand_format_erase_loop_cells `{!GeometryOk} n :
  forall i (e : @env Nand.nand),
    0 <= i -> i + Z.of_nat n <= FS_NUM_BLOCKS ->
    exists e',
      format_erase_loop n i e = (None, e')
      /\ Nand.bad (flash e') = Nand.bad (flash e)
      /\ Nand.locked (flash e') = Nand.locked (flash e)
      /\ flogfs e' = flogfs e
      /\ forall b p s k,
          let wiped := (i <=? b) && (b <? i + Z.of_nat n) && negb (Nand.bad (flash e) b) in
          Nand.data (flash e') b p s k
          = (if wiped then Byte.xff else Nand.data (flash e) b p s k)
          /\ Nand.spare (flash e') b p s k
             = (if wiped then Byte.xff else Nand.spare (flash e) b p s k).
Proof.
  induction n as [|n IH]; intros i e Hi Hn.
  - exists e. split; [reflexivity|]. repeat split.
    + replace (b <? i + Z.of_nat 0) with (b <? i) by (f_equal; lia).
      destruct (Z.leb_spec i b), (Z.ltb_spec b i); try lia; reflexivity.
    + replace (b <? i + Z.of_nat 0) with (b <? i) by (f_equal; lia).
      destruct (Z.leb_spec i b), (Z.ltb_spec b i); try lia; reflexivity.
  - cbn [format_erase_loop]. unfold bind at 1. rewrite nand_open_page.
    unfold bind at 1. rewrite nand_block_is_bad. cbn [flash flogfs calls].
    unfold Nand.block_is_bad, open_target. rewrite in_range_block by lia.
    cbn [Nand.opened Nand.set_opened Nand.bad].
    destruct (Nand.bad (flash e) i) eqn:Hbad; cbn [negb].
    + match goal with
      | |- context [format_erase_loop n (i + 1) ?e1] =>
          destruct (IH (i + 1) e1) as (e' & Hrun & Hb' & Hl' & Hf' & Hcells); try lia
      end.
      exists e'. split; [exact Hrun|]. split; [exact Hb'|]. split; [exact Hl'|].
      split; [exact Hf'|].
      intros b p s k. specialize (Hcells b p s k).
      cbn [flash Nand.data Nand.spare Nand.bad Nand.set_opened] in Hcells. cbv zeta in *.
      replace (i + Z.of_nat (S n)) with (i + 1 + Z.of_nat n) by lia.
      destruct (Z.eqb_spec b i) as [->|Hne].
      * rewrite Hbad in *. rewrite !andb_false_r in *. exact Hcells.
      * replace (i <=? b) with (i + 1 <=? b); [exact Hcells|].
        destruct (Z.leb_spec (i + 1) b), (Z.leb_spec i b); try lia; reflexivity.
    + unfold bind at 1, do_flash_erase_block at 1, driver at 1.
      cbn [flash flogfs calls flash_erase_block Nand.driver].
      unfold Nand.erase_block. cbn [Nand.bad Nand.set_opened].
      rewrite in_range_block by lia. rewrite Hbad. cbn [negb andb result_eqb].
      match goal with
      | |- context [format_erase_loop n (i + 1) ?e1] =>
          destruct (IH (i + 1) e1) as (e' & Hrun & Hb' & Hl' & Hf' & Hcells); try lia
      end.
      exists e'. split; [exact Hrun|]. split; [exact Hb'|]. split; [exact Hl'|].
      split; [exact Hf'|].
      intros b p s k. specialize (Hcells b p s k).
      cbn [flash Nand.data Nand.spare Nand.bad Nand.set_opened] in Hcells. cbv zeta in *.
      replace (i + Z.of_nat (S n)) with (i + 1 + Z.of_nat n) by lia.
      destruct (Z.eqb_spec b i) as [->|Hne].
      * rewrite Hbad in *. cbn [negb] in *. rewrite !andb_true_r in *.
        replace (i <=? i) with true by (symmetry; apply Z.leb_le; lia).
        replace (i <? i + 1 + Z.of_nat n) with true by (symmetry; apply Z.ltb_lt; lia).
        cbn [andb]. destruct ((i + 1 <=? i) && (i <? i + 1 + Z.of_nat n));
          split; try apply Hcells; reflexivity.
      * replace (i <=? b) with (i + 1 <=? b); [exact Hcells|].
        destruct (Z.leb_spec (i + 1) b), (Z.leb_spec i b); try lia; reflexivity.
Qed.

(** [flogfs_format] on the simulation, whatever the medium holds. *)
Lemma nand_format_run `{!GeometryOk} buf fs (f : Nand.nand) cs :
  exists e',
    flogfs_format buf (mkEnv fs f cs) = (FLOG_SUCCESS, e')
    /\ flogfs e' = set_lock false fs
    /\ Nand.bad (flash e') = Nand.bad f
    /\ Nand.opened (flash e') = None
    /\ Nand.locked (flash e') = false
    /\ (forall b p s k,
           (b, p, s) <> (0, 0, 0) ->
           Nand.data (flash e') b p s k
           = (if good_block f b then Byte.xff else Nand.data f b p s k)
           /\ Nand.spare (flash e') b p s k
              = (if good_block f b then Byte.xff else Nand.spare f b p s k))
    /\ (forall k,
           Nand.data (flash e') 0 0 0 k
           = Nand.program (if good_block f 0 then Nand.erased else Nand.data f 0 0 0)
               0 (format_main_buffer buf) k
           /\ Nand.spare (flash e') 0 0 0 k
              = Nand.program (if good_block f 0 then Nand.erased else Nand.spare f 0 0 0)
                  0 (format_spare_buffer buf) k).
Proof.
  pose proof num_blocks_pos as HN.
  unfold flogfs_format. unfold bind at 1, fs_lock at 1. cbn [flogfs flash calls].
  unfold bind at 1.
  match goal with
  | |- context [format_erase_loop _ 0 ?e1] =>
      destruct (nand_format_erase_loop_cells (Z.to_nat FS_NUM_BLOCKS) 0 e1)
        as (e2 & Hrun & Hbad & Hlocked & Hfs & Hcells)
  end.
  { lia. }
  { rewrite Z2Nat.id; lia. }
  rewrite Z2Nat.id in Hcells by lia. cbn [Z.add flash flogfs] in Hcells, Hbad, Hfs.
  fold (good_block f) in Hcells.
  assert (Hwiped : forall b p s k,
             Nand.data (flash e2) b p s k
             = (if good_block f b then Byte.xff else Nand.data f b p s k)
             /\ Nand.spare (flash e2) b p s k
                = (if good_block f b then Byte.xff else Nand.spare f b p s k)).
  { intros b p s k. exact (Hcells b p s k). }
  clear Hcells.
  rewrite Hrun.
  unfold bind at 1. rewrite nand_open_page.
  unfold bind, do_flash_write_sector, do_flash_write_spare, do_flash_commit,
    do_flash_close_page, do_flash_unlock, driver, fs_unlock, ret.
  cbn [flogfs flash calls flash_write_sector flash_write_spare flash_commit
         flash_close_page flash_unlock Nand.driver].
  eexists. split; [reflexivity|].
  unfold open_target. rewrite in_range_block by lia.
  unfold Nand.write_spare, Nand.write_sector.
  cbn [Nand.opened Nand.set_opened Nand.set_locked Nand.data Nand.spare Nand.bad
         Nand.locked flash flogfs].
  change (Z.to_nat 0) with 0%nat.
  split; [now rewrite Hfs|]. split; [exact Hbad|]. split; [reflexivity|].
  split; [reflexivity|]. split.
  - intros b p s k Hne. rewrite (@sector_in_page_0 cfg).
    destruct ((b =? 0) && (p =? 0) && (s =? 0)) eqn:E.
    + apply triple_eqb in E. contradiction.
    + apply Hwiped.
  - intros k. rewrite (@sector_in_page_0 cfg). cbn [Z.eqb andb].
    fold (format_main_buffer buf) (format_spare_buffer buf).
    destruct (Hwiped 0 0 0 k) as [Hd Hs]. split.
    + apply program_ext. rewrite Hd. unfold Nand.erased. now destruct (good_block f 0).
    + apply program_ext. rewrite Hs. unfold Nand.erased. now destruct (good_block f 0).
Qed.

(** X14.  On the simulation [flogfs_format] always succeeds.  It erases every
    good block and leaves the bad blocks as they are, save one thing: sector 0
    of page 0 of block 0 and its spare are programmed with the inode-0 header
    whether block 0 is good or bad.  It ends with no page open, the flash lock
    released, and no field of [flogfs] changed but the FS lock. *)
Theorem nand_format_effect `{!GeometryOk} buf fs (f : Nand.nand) cs :
  let run := flogfs_format buf (mkEnv fs f cs) in
  fst run = FLOG_SUCCESS
  /\ flogfs (snd run) = set_lock false fs
  /\ Nand.bad (flash (snd run)) = Nand.bad f
  /\ Nand.opened (flash (snd run)) = None
  /\ Nand.locked (flash (snd run)) = false
  /\ (forall b p s k,
         (b, p, s) <> (0, 0, 0) ->
         Nand.data (flash (snd run)) b p s k
         = (if good_block f b then Byte.xff else Nand.data f b p s k)
         /\ Nand.spare (flash (snd run)) b p s k
            = (if good_block f b then Byte.xff else Nand.spare f b p s k))
  /\ (forall k,
         Nand.data (flash (snd run)) 0 0 0 k
         = Nand.program (if good_block f 0 then Nand.erased else Nand.data f 0 0 0)
             0 (format_main_buffer buf) k
         /\ Nand.spare (flash (snd run)) 0 0 0 k
            = Nand.program (if good_block f 0 then Nand.erased else Nand.spare f 0 0 0)
                0 (format_spare_buffer buf) k).
Proof.
  intros run. subst run.
  destruct (nand_format_run buf fs f cs) as (e' & Hrun & Hrest).
  rewrite Hrun. cbn [fst snd]. split; [reflexivity|exact Hrest].
Qed.

(** X15.  Formatting twice is formatting once: on the simulation a second
    [flogfs_format] (entered with the same stack content) leaves every cell,
    every bad-block mark and every field of [flogfs] as the first one left
    them. *)
Theorem nand_format_twice `{!GeometryOk} buf fs (f : Nand.nand) cs :
  let e1 := snd (flogfs_format buf (mkEnv fs f cs)) in
  let e2 := snd (flogfs_format buf e1) in
  fst (flogfs_format buf e1) = FLOG_SUCCESS
  /\ flogfs e2 = flogfs e1
  /\ Nand.bad (flash e2) = Nand.bad (flash e1)
  /\ Nand.opened (flash e2) = Nand.opened (flash e1)
  /\ Nand.locked (flash e2) = Nand.locked (flash e1)
  /\ forall b p s k,
      Nand.data (flash e2) b p s k = Nand.data (flash e1) b p s k
      /\ Nand.spare (flash e2) b p s k = Nand.spare (flash e1) b p s k.
Proof.
  intros e1 e2. subst e2 e1.
  destruct (nand_format_run buf fs f cs)
    as (e1 & Hrun1 & Hfs1 & Hbad1 & Hop1 & Hlk1 & Hrest1 & Hzero1).
  rewrite Hrun1. cbn [snd].
  destruct e1 as [fs1 f1 cs1]. cbn [flogfs flash] in *.
  destruct (nand_format_run buf fs1 f1 cs1)
    as (e2 & Hrun2 & Hfs2 & Hbad2 & Hop2 & Hlk2 & Hrest2 & Hzero2).
  rewrite Hrun2. cbn [fst snd].
  assert (Hgood : forall b, good_block f1 b = good_block f b).
  { intros b. unfold good_block. now rewrite Hbad1. }
  split; [reflexivity|]. split.
  { rewrite Hfs2, Hfs1. now destruct fs. }
  split; [congruence|]. split; [congruence|]. split; [congruence|].
  intros b p s k.
  assert (Hcase : (b, p, s) = (0, 0, 0) \/ (b, p, s) <> (0, 0, 0)).
  { destruct (Z.eq_dec b 0), (Z.eq_dec p 0), (Z.eq_dec s 0); subst; auto;
      right; congruence. }
  destruct Hcase as [E|Hne].
  - inversion E; subst b p s.
    destruct (Hzero2 k) as [Hd2 Hs2]. destruct (Hzero1 k) as [Hd1 Hs1].
    rewrite Hd2, Hs2, Hd1, Hs1, Hgood.
    destruct (good_block f 0); [split; reflexivity|].
    split.
    + rewrite (program_ext _ (Nand.program (Nand.data f 0 0 0) 0 (format_main_buffer buf)))
        by apply Hzero1.
      apply program_idempotent.
    + rewrite (program_ext _ (Nand.program (Nand.spare f 0 0 0) 0 (format_spare_buffer buf)))
        by apply Hzero1.
      apply program_idempotent.
  - destruct (Hrest2 b p s k Hne) as [Hd2 Hs2]. destruct (Hrest1 b p s k Hne) as [Hd1 Hs1].
    rewrite Hd2, Hs2, Hd1, Hs1, Hgood.
    destruct (good_block f b); split; reflexivity.
Qed.

End NandFormat.

Section NandCensus.
Context {cfg : Config}.

Lemma spare_cells_medium f f' b p s :
  medium f = medium f' -> spare_cells f b p s = spare_cells f' b p s.
Proof. unfold medium, spare_cells. intros H. inversion H as [[Hd Hs Hb]]. now rewrite Hs. Qed.

Lemma is_inode0_block_medium f f' i :
  medium f = medium f' -> is_inode0_block f i = is_inode0_block f' i.
Proof.
  intros H. unfold is_inode0_block.
  rewrite (spare_cells_medium f f') by exact H.
  rewrite (cells_medium f f') by exact H.
  unfold medium in H. inversion H as [[Hd Hs Hb]]. now rewrite Hb.
Qed.

(** The census of one block: [inode0_idx] becomes this block if it presents
    itself as inode table 0, and stays as it is otherwise. *)
Lemma nand_scan_block_inode0 `{!LayoutOk} `{!GeometryOk} i L (e : @env Nand.nand) :
  0 <= i < FS_NUM_BLOCKS ->
  inode0_idx (fst (mount_scan_block i L e))
  = if is_inode0_block (flash e) i then wrap16 i else inode0_idx L.
Proof.
  intros Hi. destruct (mount_scan_block i L e) as [L' e'] eqn:Hrun. cbn [fst].
  unfold is_inode0_block.
  unfold mount_scan_block in Hrun.
  unfold bind at 1 in Hrun. rewrite nand_open_page in Hrun.
  rewrite in_range_block in Hrun by lia.
  cbn [result_is_zero result_eqb] in Hrun.
  unfold bind at 1 in Hrun. rewrite nand_block_is_bad in Hrun.
  cbn [flash flogfs calls] in Hrun.
  unfold Nand.block_is_bad, open_target in Hrun. rewrite in_range_block in Hrun by lia.
  cbn [Nand.opened Nand.set_opened Nand.bad] in Hrun.
  destruct (Nand.bad (flash e) i) eqn:Hbad; cbn [negb andb].
  { inv_ret Hrun. reflexivity. }
  unfold bind at 1 in Hrun.
  match type of Hrun with
  | context [do_flash_read_spare 0 ?e1] =>
      rewrite (nand_read_spare e1 i 0 0) in Hrun
        by (unfold open_target; rewrite in_range_block by lia; reflexivity)
  end.
  cbn [flash flogfs calls spare_buffer set_spare_buffer] in Hrun.
  assert (Hlen : forall f1, length (spare_cells f1 i 0 0) = sizeof_spare).
  { intros f1. unfold spare_cells. rewrite in_range_block by lia.
    apply length_read_bytes. }
  rewrite !get_field_blit in Hrun
    by (rewrite Hlen; first [apply inode_spare0_type_id_in
                            |apply inode_spare0_inode_index_in]).
  match type of Hrun with
  | context [spare_cells ?f1 i 0 0] =>
      replace (spare_cells f1 i 0 0) with (spare_cells (flash e) i 0 0) in Hrun
        by (apply spare_cells_medium; reflexivity)
  end.
  destruct (get_field inode_spare0_type_id (spare_cells (flash e) i 0 0)
            =? FLOG_BLOCK_TYPE_INODE); cbn [andb].
  - unfold bind at 1 in Hrun.
    match type of Hrun with
    | context [do_flash_read_sector FLOG_INODE_INVALIDATION_SECTOR 0 _ ?e1] =>
        rewrite (nand_read_sector e1 i 0) in Hrun
          by (unfold open_target; rewrite in_range_block by lia; reflexivity)
    end.
    unfold bind at 1 in Hrun.
    match type of Hrun with
    | context [do_flash_read_sector 0 0 sizeof_inode_sector0 ?e1] =>
        rewrite (nand_read_sector e1 i 0) in Hrun
          by (unfold open_target; rewrite in_range_block by lia; reflexivity)
    end.
    cbn [flash flogfs calls spare_buffer set_sector0_buffer] in Hrun.
    match type of Hrun with
    | context [cells ?f1 i 0 FLOG_INODE_INVALIDATION_SECTOR sizeof_timestamp] =>
        replace (cells f1 i 0 FLOG_INODE_INVALIDATION_SECTOR sizeof_timestamp)
          with (cells (flash e) i 0 FLOG_INODE_INVALIDATION_SECTOR sizeof_timestamp) in Hrun
          by (apply cells_medium; reflexivity)
    end.
    inv_ret Hrun.
    match goal with
    | |- context [update_max_block_age ?a ?L1] =>
        destruct (candidates_update_max_block_age a L1) as (_ & _ & ->)
    end.
    destruct (le_decode _ =? 4294967295); cbn [andb]; [|reflexivity].
    cbn [spare_buffer set_sector0_buffer set_spare_buffer].
    rewrite get_field_blit by (rewrite Hlen; apply inode_spare0_inode_index_in).
    destruct (_ =? 0); reflexivity.
  - destruct (_ =? FLOG_BLOCK_TYPE_FILE).
    { do 2 inv_bind Hrun. inv_ret Hrun.
      match goal with
      | |- context [update_max_block_age ?a ?L1] =>
          destruct (candidates_update_max_block_age a L1) as (_ & _ & ->)
      end.
      destruct (_ =? 4294967295); [reflexivity|]. destruct (_ >? _); reflexivity. }
    destruct (_ =? FLOG_BLOCK_TYPE_UNALLOCATED); inv_ret Hrun; reflexivity.
Qed.

Lemma nand_scan_blocks_inode0 `{!LayoutOk} `{!GeometryOk} n :
  forall i L (e : @env Nand.nand),
    0 <= i -> i + Z.of_nat n <= FS_NUM_BLOCKS ->
    let found := inode0_idx (fst (mount_scan_blocks n i L e)) in
    (found = inode0_idx L
     /\ forall j, i <= j < i + Z.of_nat n -> is_inode0_block (flash e) j = false)
    \/ (exists k,
           i <= k < i + Z.of_nat n
           /\ is_inode0_block (flash e) k = true
           /\ (forall j, k < j < i + Z.of_nat n -> is_inode0_block (flash e) j = false)
           /\ found = wrap16 k).
Proof.
  induction n as [|n IH]; intros i L e Hi Hn found.
  - left. split; [reflexivity|]. intros j Hj. lia.
  - subst found. cbn [mount_scan_blocks]. unfold bind.
    pose proof (nand_scan_block_inode0 i L e) as Hstep.
    pose proof (medium_scan_block i L e) as Hmed.
    destruct (mount_scan_block i L e) as [L1 e1]. cbn [fst snd] in Hstep, Hmed.
    specialize (Hstep ltac:(lia)).
    specialize (IH (i + 1) L1 e1 ltac:(lia) ltac:(lia)). cbv zeta in IH.
    assert (Hsame : forall j, is_inode0_block (flash e1) j = is_inode0_block (flash e) j).
    { intros j. now apply is_inode0_block_medium. }
    destruct IH as [(Hf & Hnone)|(k & Hk & Hyes & Hlater & Hf)].
    + rewrite Hf, Hstep.
      destruct (is_inode0_block (flash e) i) eqn:Hhere.
      * right. exists i. split; [lia|]. split; [exact Hhere|]. split; [|reflexivity].
        intros j Hj. rewrite <- Hsame. apply Hnone. lia.
      * left. split; [reflexivity|]. intros j Hj.
        assert (j = i \/ i + 1 <= j) as [->|Hgt] by lia; [exact Hhere|].
        rewrite <- Hsame. apply Hnone. lia.
    + right. exists k. split; [lia|]. split; [now rewrite <- Hsame|].
      split; [|exact Hf]. intros j Hj. rewrite <- Hsame. apply Hlater. lia.
Qed.

(** X8.  Which block the census of [flogfs_mount] takes for inode table 0: the
    highest-numbered good block that presents itself as such; with no such
    block [inode0_idx] stays invalid (and [flogfs_mount] fails). *)
Theorem mount_census_finds_last_inode0 `{!LayoutOk} `{!GeometryOk}
        stack (e : @env Nand.nand) :
  let found := inode0_idx (fst (mount_census stack e)) in
  (found = FLOG_BLOCK_IDX_INVALID
   /\ forall j, 0 <= j < FS_NUM_BLOCKS -> is_inode0_block (flash e) j = false)
  \/ (exists k,
         0 <= k < FS_NUM_BLOCKS
         /\ is_inode0_block (flash e) k = true
         /\ (forall j, k < j < FS_NUM_BLOCKS -> is_inode0_block (flash e) j = false)
         /\ found = wrap16 k).
Proof.
  intros found. subst found. pose proof num_blocks_pos as HN.
  unfold mount_census.
  match goal with
  | |- context [mount_scan_blocks ?n 0 ?L ?ex] =>
      pose proof (nand_scan_blocks_inode0 n 0 L ex) as Hscan
  end.
  rewrite Z2Nat.id in Hscan by lia. cbn [Z.add] in Hscan.
  specialize (Hscan ltac:(lia) ltac:(lia)). cbv zeta in Hscan.
  exact Hscan.
Qed.

End NandCensus.

(** ** [flogfs_mount]: the maximum file id on the medium *)

Section MaxFileIdMedium.
Context {cfg : Config}.

(** The iterator [flogfs_mount] starts its walk from, when the page cache
    does not name page 0 of the inode0 block: its link is the one the tail
    sector of that block holds. *)
Lemma nand_iterator_init_link (b : Z) (e : @env Nand.nand) :
  ~ page_is_open b 0 (flogfs e) ->
  iter_next_block (fst (flog_inode_iterator_init b e)) = inode_tail_link (flash e) b.
Proof.
  intros Hcache.
  destruct (flog_inode_iterator_init b e) as [it e'] eqn:Hinit. cbn [fst].
  unfold flog_inode_iterator_init in Hinit.
  run_bind Hinit as r0 e1 Hopen.
  destruct (nand_flog_open_page e b 0 (or_intror Hcache)) as [(Hmed & _ & _) Ho].
  rewrite Hopen in Hmed, Ho. cbn [snd] in Hmed, Ho.
  run_bind Hinit as nb e2 Htail. unfold read_next_block in Htail.
  run_bind Htail as d e3 Hread.
  rewrite (nand_read_sector e1 _ _ _ _ Ho) in Hread.
  inversion Hread; subst d e3; clear Hread. inv_ret Htail. inv_ret Hinit.
  cbn [iter_next_block]. unfold inode_tail_link.
  now rewrite (cells_medium _ _ _ _ _ _ Hmed).
Qed.

(** C7, as the code has it.  Let block [k] be the inode table 0 of the
    medium (the highest-numbered block that presents itself as such), let
    the invalid block index be no block, and let [flogfs_mount] be entered
    with a page cache that does not name page 0 of block [k] (for instance
    with [page_open] = 0, as [flogfs_init] leaves it).  When [flogfs_mount]
    returns, the inode chain of the medium (from block [k], along the links
    its tail sectors hold) has an end marker, and [max_file_id] is the file id
    of the last entry before it, live or deleted; with no entry at all it
    is the value [max_file_id] had at entry.  With file ids strictly
    increasing along the chain, it is the largest id among the entries. *)
Theorem mount_max_file_id `{!LayoutOk} `{!GeometryOk}
        (fuel : nat) (stack : mount_locals) (e e' : @env Nand.nand)
        (r : flog_result_t) (k : Z) :
  FS_NUM_BLOCKS <= FLOG_BLOCK_IDX_INVALID ->
  0 <= k < FS_NUM_BLOCKS ->
  is_inode0_block (flash e) k = true ->
  (forall j, k < j < FS_NUM_BLOCKS -> is_inode0_block (flash e) j = false) ->
  ~ page_is_open k 0 (flogfs e) ->
  flogfs_mount fuel stack e = (Some r, e') ->
  exists ids,
    chain_file_ids fuel (flash e) k (inode_tail_link (flash e) k)
      (wrap16 FS_SECTORS_PER_PAGE) = Some ids
    /\ max_file_id (flogfs e') = last ids (max_file_id (flogfs e))
    /\ (StronglySorted Z.lt ids ->
        forall id, In id ids ->
                   id <= max_file_id (flogfs e') /\ In (max_file_id (flogfs e')) ids).
Proof.
  intros Hblocks Hk Hyes Hlater Hcache Hrun. pose proof num_blocks_pos as HN.
  unfold flogfs_mount in Hrun.
  run_bind Hrun as u0 e0 Hlock. run_bind Hrun as u1 e1 Hflock.
  run_bind Hrun as L1 e2 Hscan.
  unfold fs_lock in Hlock. inversion Hlock; subst u0 e0; clear Hlock.
  inv_driver Hflock.
  (* the census: block [k], cells and state untouched *)
  assert (Hidx : inode0_idx L1 = k).
  { match type of Hscan with
    | mount_scan_blocks ?n 0 ?L ?ex = _ =>
        pose proof (nand_scan_blocks_inode0 n 0 L ex) as Hfound
    end.
    rewrite Hscan in Hfound. rewrite Z2Nat.id in Hfound by lia.
    cbn [Z.add fst] in Hfound.
    specialize (Hfound ltac:(lia) ltac:(lia)). cbv zeta in Hfound.
    destruct Hfound as [[_ Hnone]|(k' & Hk' & Hyes' & Hlater' & Hf)].
    - specialize (Hnone k Hk).
      rewrite (is_inode0_block_medium _ (flash e)) in Hnone by reflexivity. congruence.
    - rewrite (is_inode0_block_medium _ (flash e)) in Hyes' by reflexivity.
      assert (k' = k).
      { destruct (Z.lt_trichotomy k' k) as [Hlt|[Heq|Hgt]]; [|exact Heq|].
        - specialize (Hlater' k ltac:(lia)).
          rewrite (is_inode0_block_medium _ (flash e)) in Hlater' by reflexivity.
          congruence.
        - specialize (Hlater k' ltac:(lia)). congruence. }
      subst k'. rewrite Hf. unfold wrap16. apply Z.mod_small.
      unfold FLOG_BLOCK_IDX_INVALID, all_ones, sizeof_block_idx in Hblocks.
      cbn in Hblocks. lia. }
  kept (medium_scan_blocks (Z.to_nat FS_NUM_BLOCKS) 0 (mount_init_locals stack)) Hscan.
  kept (but_lock_scan_blocks (Z.to_nat FS_NUM_BLOCKS) 0 (mount_init_locals stack)) Hscan.
  kept (max_file_id_scan_blocks (Z.to_nat FS_NUM_BLOCKS) 0 (mount_init_locals stack)) Hscan.
  cbn [flogfs flash calls] in Hk0, Hk1, Hk2.
  assert (Hmed2 : medium (flash e2) = medium (flash e)) by exact Hk0.
  assert (Hid2 : max_file_id (flogfs e2) = max_file_id (flogfs e)).
  { rewrite Hk2. now destruct (flogfs e). }
  assert (Hcache2 : ~ page_is_open k 0 (flogfs e2)).
  { intros (Ho & Hb & Hp). apply Hcache.
    assert (Hfs : set_lock false (flogfs e2) = set_lock false (flogfs e)).
    { rewrite Hk1. now destruct (flogfs e). }
    assert (Hpo : page_open (flogfs e2) = page_open (flogfs e)
                  /\ current_open_block (flogfs e2) = current_open_block (flogfs e)
                  /\ current_open_page (flogfs e2) = current_open_page (flogfs e)).
    { destruct (flogfs e2), (flogfs e). cbn in *. inversion Hfs. auto. }
    destruct Hpo as (E1 & E2 & E3). unfold page_is_open. rewrite <- E1, <- E2, <- E3. auto. }
  rewrite Hidx in Hrun.
  destruct (Z.eqb_spec k FLOG_BLOCK_IDX_INVALID) as [E|_]; [lia|].
  run_bind Hrun as it e3 Hinit.
  pose proof (nand_iterator_init_link k e2 Hcache2) as Hlink.
  pose proof (mount_first_iter_ready k e2) as Hready.
  pose proof (medium_iterator_init k e2) as Hmed3.
  pose proof (max_file_id_iterator_init k e2) as Hid3.
  rewrite Hinit in Hlink, Hready, Hmed3, Hid3. cbn [fst snd] in Hlink, Hready, Hmed3, Hid3.
  destruct Hready as (Hb & Hs & Hready).
  run_bind Hrun as walked e4 Hwalk.
  pose proof (nand_inode_walk fuel it L1 e3 (or_intror Hready)) as Hw.
  rewrite Hwalk in Hw. rewrite Hb, Hs, Hlink in Hw.
  unfold inode_tail_link in Hw. rewrite (cells_medium _ _ _ _ _ _ Hmed2) in Hw.
  fold (inode_tail_link (flash e) k) in Hw.
  rewrite (chain_file_ids_medium fuel (flash e3) (flash e)) in Hw by congruence.
  destruct (chain_file_ids fuel (flash e) k (inode_tail_link (flash e) k)
              (wrap16 FS_SECTORS_PER_PAGE)) as [ids|].
  2:{ cbn [fst] in Hw. subst walked. inv_ret Hrun. discriminate. }
  destruct Hw as (L' & e5 & Heq & (_ & Hid5 & _) & _).
  inversion Heq; subst walked e5.
  run_bind Hrun as L2 e5 Halloc. run_bind Hrun as chk e6 Hdel.
  kept (max_file_id_check_allocation L') Halloc.
  kept (max_file_id_check_deletion L2) Hdel.
  assert (Hfinal : max_file_id (flogfs e') = max_file_id (flogfs e4)).
  { destruct (fst chk); run_bind Hrun as r' e7 Hexit; inv_ret Hrun.
    - kept max_file_id_mount_success Hexit. congruence.
    - unfold mount_failure, bind, do_flash_unlock, driver, fs_unlock, ret in Hexit.
      cbn in Hexit. inversion Hexit; subst. cbn.
      transitivity (max_file_id (flogfs e6)); [now destruct (flogfs e6)|congruence]. }
  exists ids. split; [reflexivity|]. split.
  - rewrite Hfinal, Hid5. now rewrite Hid3, Hid2.
  - intros Hsorted id Hin.
    rewrite Hfinal, Hid5. apply last_is_largest; assumption.
Qed.

End MaxFileIdMedium.

(** ** [flogfs_mount]: the allocation the census keeps *)

Section NandCensusAllocation.
Context {cfg : Config}.

Lemma block_offer_medium f f' i : medium f = medium f' -> block_offer f i = block_offer f' i.
Proof.
  intros H. unfold block_offer.
  rewrite (spare_cells_medium f f') by exact H.
  rewrite !(cells_medium f f') by exact H.
  unfold medium in H. inversion H as [[Hd Hs Hb]]. now rewrite Hb.
Qed.

(** The census of one block: the candidate is replaced by what the block
    announces when that carries a strictly larger timestamp. *)
Lemma nand_scan_block_allocation `{!LayoutOk} `{!GeometryOk} i L (e : @env Nand.nand) :
  tail_layout ->
  0 <= i < FS_NUM_BLOCKS ->
  last_allocation (fst (mount_scan_block i L e))
  = match block_offer (flash e) i with
    | Some o => if la_timestamp o >? la_timestamp (last_allocation L)
                then o else last_allocation L
    | None => last_allocation L
    end.
Proof.
  intros (Hnb & Hna & Hts) Hi.
  destruct (mount_scan_block i L e) as [L' e'] eqn:Hrun. cbn [fst].
  unfold block_offer.
  unfold mount_scan_block in Hrun.
  unfold bind at 1 in Hrun. rewrite nand_open_page in Hrun.
  rewrite in_range_block in Hrun by lia.
  cbn [result_is_zero result_eqb] in Hrun.
  unfold bind at 1 in Hrun. rewrite nand_block_is_bad in Hrun.
  cbn [flash flogfs calls] in Hrun.
  unfold Nand.block_is_bad, open_target in Hrun. rewrite in_range_block in Hrun by lia.
  cbn [Nand.opened Nand.set_opened Nand.bad] in Hrun.
  destruct (Nand.bad (flash e) i) eqn:Hbad.
  { inv_ret Hrun. reflexivity. }
  unfold bind at 1 in Hrun.
  match type of Hrun with
  | context [do_flash_read_spare 0 ?e1] =>
      rewrite (nand_read_spare e1 i 0 0) in Hrun
        by (unfold open_target; rewrite in_range_block by lia; reflexivity)
  end.
  cbn [flash flogfs calls spare_buffer set_spare_buffer] in Hrun.
  assert (Hlen : forall f1, length (spare_cells f1 i 0 0) = sizeof_spare).
  { intros f1. unfold spare_cells. rewrite in_range_block by lia.
    apply length_read_bytes. }
  rewrite !get_field_blit in Hrun
    by (rewrite Hlen; first [apply inode_spare0_type_id_in
                            |apply inode_spare0_inode_index_in]).
  match type of Hrun with
  | context [spare_cells ?f1 i 0 0] =>
      replace (spare_cells f1 i 0 0) with (spare_cells (flash e) i 0 0) in Hrun
        by (apply spare_cells_medium; reflexivity)
  end.
  destruct (get_field inode_spare0_type_id (spare_cells (flash e) i 0 0)
            =? FLOG_BLOCK_TYPE_INODE).
  { do 2 inv_bind Hrun. inv_ret Hrun.
    match goal with
    | |- context [update_max_block_age ?a ?L1] =>
        destruct (candidates_update_max_block_age a L1) as (-> & _ & _)
    end.
    destruct (le_decode _ =? 4294967295); [|reflexivity].
    destruct (_ =? 0); reflexivity. }
  destruct (get_field inode_spare0_type_id (spare_cells (flash e) i 0 0)
            =? FLOG_BLOCK_TYPE_FILE); cbn [negb].
  2:{ destruct (_ =? FLOG_BLOCK_TYPE_UNALLOCATED); inv_ret Hrun; reflexivity. }
  unfold bind at 1 in Hrun.
  match type of Hrun with
  | context [do_flash_read_sector FLOG_FILE_TAIL_SECTOR 0 _ ?e1] =>
      rewrite (nand_read_sector e1 i 0) in Hrun
        by (unfold open_target; rewrite in_range_block by lia; reflexivity)
  end.
  unfold bind at 1 in Hrun.
  match type of Hrun with
  | context [do_flash_read_sector 0 0 sizeof_file_sector0_header ?e1] =>
      rewrite (nand_read_sector e1 i 0) in Hrun
        by (unfold open_target; rewrite in_range_block by lia; reflexivity)
  end.
  cbn [flash flogfs calls sector_buffer sector0_buffer set_sector_buffer
         set_sector0_buffer] in Hrun.
  repeat match type of Hrun with
  | context [cells ?f1 i 0 ?s ?n] =>
      lazymatch f1 with
      | flash e => fail
      | _ => replace (cells f1 i 0 s n) with (cells (flash e) i 0 s n) in Hrun
               by (apply cells_medium; reflexivity)
      end
  end.
  rewrite !get_field_blit in Hrun
    by (rewrite length_cells; first [exact Hnb|exact Hna|exact Hts
                                    |apply file_sector0_file_id_in
                                    |apply file_sector0_age_in]).
  inv_ret Hrun.
  match goal with
  | |- context [update_max_block_age ?a ?L1] =>
      destruct (candidates_update_max_block_age a L1) as (-> & _ & _)
  end.
  destruct (get_field file_tail_timestamp _ =? 4294967295); [reflexivity|].
  cbn [last_allocation set_sector0_buffer set_sector_buffer set_spare_buffer].
  destruct (_ >? _); reflexivity.
Qed.

Lemma offer_timestamp_nonneg f i : 0 <= offer_timestamp f i.
Proof.
  unfold offer_timestamp, block_offer.
  repeat match goal with
         | |- context [if ?c then _ else _] => destruct c
         end; cbn [la_timestamp]; try lia.
  apply get_field_range.
Qed.

(** The census of the blocks from [i] on: the candidate stays, or becomes
    what one block [k] announces, with a timestamp strictly above the
    candidate's and above what every block before [k] announces, and not
    below what any block behind [k] announces. *)
Lemma nand_scan_blocks_allocation `{!LayoutOk} `{!GeometryOk} n :
  tail_layout ->
  forall i L (e : @env Nand.nand),
    0 <= i -> i + Z.of_nat n <= FS_NUM_BLOCKS ->
    0 <= la_timestamp (last_allocation L) ->
    let la := last_allocation (fst (mount_scan_blocks n i L e)) in
    (la = last_allocation L
     /\ forall j, i <= j < i + Z.of_nat n ->
                  offer_timestamp (flash e) j <= la_timestamp (last_allocation L))
    \/ (exists k,
           i <= k < i + Z.of_nat n
           /\ block_offer (flash e) k = Some la
           /\ la_timestamp (last_allocation L) < la_timestamp la
           /\ (forall j, i <= j < k -> offer_timestamp (flash e) j < la_timestamp la)
           /\ (forall j, k < j < i + Z.of_nat n ->
                         offer_timestamp (flash e) j <= la_timestamp la)).
Proof.
  intros Hlay. induction n as [|n IH]; intros i L e Hi Hn Hpos la.
  - left. split; [reflexivity|]. intros j Hj. lia.
  - subst la. cbn [mount_scan_blocks]. unfold bind.
    pose proof (nand_scan_block_allocation i L e Hlay) as Hstep.
    pose proof (medium_scan_block i L e) as Hmed.
    destruct (mount_scan_block i L e) as [L1 e1]. cbn [fst snd] in Hstep, Hmed.
    specialize (Hstep ltac:(lia)).
    assert (Hsame : forall j, block_offer (flash e1) j = block_offer (flash e) j).
    { intros j. now apply block_offer_medium. }
    assert (Hsame' : forall j, offer_timestamp (flash e1) j = offer_timestamp (flash e) j).
    { intros j. unfold offer_timestamp. now rewrite Hsame. }
    assert (Hhere : (last_allocation L1 = last_allocation L
                     /\ offer_timestamp (flash e) i <= la_timestamp (last_allocation L))
                    \/ (block_offer (flash e) i = Some (last_allocation L1)
                        /\ la_timestamp (last_allocation L)
                           < la_timestamp (last_allocation L1))).
    { rewrite Hstep. unfold offer_timestamp.
      destruct (block_offer (flash e) i) as [o|] eqn:Ho.
      - destruct (Z.gtb_spec (la_timestamp o) (la_timestamp (last_allocation L))).
        + right. split; [reflexivity|lia].
        + left. split; [reflexivity|lia].
      - left. split; [reflexivity|exact Hpos]. }
    assert (Hpos1 : 0 <= la_timestamp (last_allocation L1)).
    { destruct Hhere as [[-> _]|[_ Hup]]; lia. }
    specialize (IH (i + 1) L1 e1 ltac:(lia) ltac:(lia) Hpos1). cbv zeta in IH.
    set (la' := last_allocation (fst (mount_scan_blocks n (i + 1) L1 e1))) in *.
    destruct Hhere as [[Hkeep Hle]|[Hoffer Hlt]];
      destruct IH as [[Hsame1 Hrest]|(k & Hk & Hok & Hgt & Hbefore & Hbehind)].
    + left. split; [congruence|]. intros j Hj.
      assert (j = i \/ i + 1 <= j) as [->|Hj'] by lia; [exact Hle|].
      rewrite <- Hsame', <- Hkeep. apply Hrest. lia.
    + right. exists k. split; [lia|]. split; [now rewrite <- Hsame|].
      split; [now rewrite <- Hkeep|]. split.
      * intros j Hj. assert (j = i \/ i + 1 <= j) as [->|Hj'] by lia.
        -- rewrite Hkeep in Hgt. lia.
        -- rewrite <- Hsame'. apply Hbefore. lia.
      * intros j Hj. rewrite <- Hsame'. apply Hbehind. lia.
    + right. exists i. split; [lia|]. split; [now rewrite Hsame1|].
      split; [now rewrite Hsame1|]. split; [intros j Hj; lia|].
      intros j Hj. rewrite Hsame1, <- Hsame'. apply Hrest. lia.
    + right. exists k. split; [lia|]. split; [now rewrite <- Hsame|].
      split; [lia|]. split.
      * intros j Hj. assert (j = i \/ i + 1 <= j) as [->|Hj'] by lia.
        -- unfold offer_timestamp. rewrite Hoffer. exact Hgt.
        -- rewrite <- Hsame'. apply Hbefore. lia.
      * intros j Hj. rewrite <- Hsame'. apply Hbehind. lia.
Qed.

(** X12.  Which allocation the census of [flogfs_mount] keeps as its
    candidate: the one announced with the largest timestamp and, among
    blocks that announce this timestamp, by the lowest-numbered one (a later
    block replaces the candidate only with a strictly larger timestamp).
    With no block announcing a timestamp above 0 the candidate stays as it
    was initialised. *)
Theorem mount_census_keeps_first_newest `{!LayoutOk} `{!GeometryOk}
        stack (e : @env Nand.nand) :
  tail_layout ->
  let la := last_allocation (fst (mount_census stack e)) in
  (la = last_allocation (mount_init_locals stack)
   /\ forall j, 0 <= j < FS_NUM_BLOCKS -> offer_timestamp (flash e) j = 0)
  \/ (exists k,
         0 <= k < FS_NUM_BLOCKS
         /\ block_offer (flash e) k = Some la
         /\ 0 < la_timestamp la
         /\ (forall j, 0 <= j < k -> offer_timestamp (flash e) j < la_timestamp la)
         /\ (forall j, k < j < FS_NUM_BLOCKS ->
                       offer_timestamp (flash e) j <= la_timestamp la)).
Proof.
  intros Hlay la. subst la. pose proof num_blocks_pos as HN.
  unfold mount_census.
  set (ex := snd (do_flash_lock (snd (fs_lock e)))).
  assert (Hmed : medium (flash ex) = medium (flash e)) by reflexivity.
  assert (Hsame : forall j, block_offer (flash ex) j = block_offer (flash e) j).
  { intros j. now apply block_offer_medium. }
  assert (Hsame' : forall j, offer_timestamp (flash ex) j = offer_timestamp (flash e) j).
  { intros j. unfold offer_timestamp. now rewrite Hsame. }
  pose proof (nand_scan_blocks_allocation (Z.to_nat FS_NUM_BLOCKS) Hlay 0
                (mount_init_locals stack) ex) as Hscan.
  rewrite Z2Nat.id in Hscan by lia. cbn [Z.add] in Hscan.
  specialize (Hscan ltac:(lia) ltac:(lia) ltac:(cbn; lia)). cbv zeta in Hscan.
  destruct Hscan as [[Hkeep Hall]|(k & Hk & Hok & Hgt & Hbefore & Hbehind)].
  - left. split; [exact Hkeep|]. intros j Hj. specialize (Hall j Hj).
    cbn [mount_init_locals last_allocation la_timestamp] in Hall.
    pose proof (offer_timestamp_nonneg (flash e) j) as Hnn.
    rewrite Hsame' in Hall. lia.
  - right. exists k. split; [exact Hk|].
    split; [now rewrite <- Hsame|].
    split; [exact Hgt|]. split.
    + intros j Hj. rewrite <- Hsame'. now apply Hbefore.
    + intros j Hj. rewrite <- Hsame'. now apply Hbehind.
Qed.
End NandCensusAllocation.

Section NandMount.
Context {cfg : Config}.

(** X9.  A medium none of whose blocks presents itself as inode table 0 does not
    mount: [flogfs_mount] returns [FLOG_FAILURE] straight after the census,
    whatever the fuel; it reports "Inode 0 not found!", releases both locks,
    and has changed neither a cell nor any other field of [flogfs]. *)
Theorem mount_fails_without_inode_block `{!LayoutOk} `{!GeometryOk}
        fuel stack (e : @env Nand.nand) :
  (forall j, 0 <= j < FS_NUM_BLOCKS -> is_inode0_block (flash e) j = false) ->
  let run := flogfs_mount fuel stack e in
  fst run = Some FLOG_FAILURE
  /\ calls (snd run)
     = calls (snd (mount_census stack e))
         ++ [FlashDebugError "Inode 0 not found!"%string; FlashUnlock; FsUnlock]
  /\ filter is_write_call (calls (snd run)) = filter is_write_call (calls e)
  /\ medium (flash (snd run)) = medium (flash e)
  /\ flogfs (snd run) = set_lock false (flogfs e).
Proof.
  intros Hno run. subst run. pose proof num_blocks_pos as HN.
  destruct (flogfs_mount fuel stack e) as [res e'] eqn:Hrun. cbn [fst snd] in *.
  unfold flogfs_mount in Hrun.
  run_bind Hrun as u0 e0 Hlock. run_bind Hrun as u1 e1 Hflock.
  run_bind Hrun as L1 e2 Hscan.
  assert (Hcensus : mount_census stack e = (L1, e2)).
  { unfold mount_census. rewrite Hlock. cbn [snd]. rewrite Hflock. cbn [snd]. exact Hscan. }
  unfold fs_lock in Hlock. inversion Hlock; subst u0 e0; clear Hlock.
  inv_driver Hflock.
  assert (Hidx : inode0_idx L1 = FLOG_BLOCK_IDX_INVALID).
  { match type of Hscan with
    | mount_scan_blocks ?n 0 ?L ?ex = _ =>
        pose proof (nand_scan_blocks_inode0 n 0 L ex) as Hfound
    end.
    rewrite Hscan in Hfound. rewrite Z2Nat.id in Hfound by lia.
    cbn [Z.add fst] in Hfound.
    specialize (Hfound ltac:(lia) ltac:(lia)). cbv zeta in Hfound.
    destruct Hfound as [[Hf _]|(k & Hk & Hyes & _)]; [exact Hf|].
    rewrite (is_inode0_block_medium _ (flash e)) in Hyes by reflexivity.
    rewrite (Hno k Hk) in Hyes. discriminate. }
  rewrite Hidx in Hrun.
  change (FLOG_BLOCK_IDX_INVALID =? FLOG_BLOCK_IDX_INVALID) with true in Hrun.
  cbv iota in Hrun.
  kept (medium_scan_blocks (Z.to_nat FS_NUM_BLOCKS) 0 (mount_init_locals stack)) Hscan.
  kept (but_lock_scan_blocks (Z.to_nat FS_NUM_BLOCKS) 0 (mount_init_locals stack)) Hscan.
  kept (no_write_scan_blocks (Z.to_nat FS_NUM_BLOCKS) 0 (mount_init_locals stack)) Hscan.
  cbn [flogfs flash calls] in Hk, Hk0, Hk1.
  unfold bind, do_flash_debug_error, mount_failure, bind, do_flash_unlock, driver,
    fs_unlock, ret in Hrun.
  cbn in Hrun. inversion Hrun; subst res e'; clear Hrun.
  cbn [flogfs flash calls]. rewrite Hcensus. cbn [snd].
  split; [reflexivity|]. split; [now rewrite <- !app_assoc|]. split; [|split].
  - rewrite !filter_app. cbn [filter is_write_call]. rewrite !app_nil_r, Hk1.
    rewrite !filter_app. cbn [filter is_write_call]. now rewrite !app_nil_r.
  - exact Hk.
  - transitivity (set_lock false (flogfs e2)); [now destruct (flogfs e2)|].
    rewrite Hk0. now destruct (flogfs e).
Qed.

End NandMount.

Section NandChain.
Context {cfg : Config}.

Local Notation "'MEDIUM'" := (fun e : @env Nand.nand => medium (flash e)).

Lemma medium_census stack (e : @env Nand.nand) :
  medium (flash (snd (mount_census stack e))) = medium (flash e).
Proof.
  unfold mount_census.
  rewrite (medium_scan_blocks (Z.to_nat FS_NUM_BLOCKS) 0 (mount_init_locals stack)).
  reflexivity.
Qed.

(** X10.  [flogfs_mount] returns exactly when the inode chain it walks has an end
    marker within reach: with fuel for [fuel] entries the model returns a
    result if the chain from the inode0 block ends within [fuel] entries, and
    runs out of fuel if it does not.  On a chain without an end marker (a
    chain that links back into itself) the C loop does not terminate. *)
Theorem mount_returns_iff_chain_ends `{!LayoutOk} `{!GeometryOk}
        fuel stack (e : @env Nand.nand) :
  let inode0 := inode0_idx (fst (mount_census stack e)) in
  let it := mount_first_iter stack e in
  inode0 <> FLOG_BLOCK_IDX_INVALID ->
  (fst (flogfs_mount fuel stack e) = None
   <-> chain_file_ids fuel (flash e) inode0 (iter_next_block it)
         (wrap16 FS_SECTORS_PER_PAGE) = None).
Proof.
  intros inode0 it Hfound.
  destruct (flogfs_mount fuel stack e) as [res e'] eqn:Hrun. cbn [fst].
  unfold flogfs_mount in Hrun.
  run_bind Hrun as u0 e0 Hlock. run_bind Hrun as u1 e1 Hflock.
  run_bind Hrun as L1 e2 Hscan.
  assert (Hcensus : mount_census stack e = (L1, e2)).
  { unfold mount_census. rewrite Hlock. cbn [snd]. rewrite Hflock. cbn [snd]. exact Hscan. }
  pose proof (medium_census stack e) as Hmed2. rewrite Hcensus in Hmed2. cbn [snd] in Hmed2.
  assert (Hino : inode0 = inode0_idx L1) by (unfold inode0; now rewrite Hcensus).
  destruct (Z.eqb_spec (inode0_idx L1) FLOG_BLOCK_IDX_INVALID) as [E|_]; [congruence|].
  run_bind Hrun as it0 e3 Hinit.
  assert (Hit : it = it0).
  { unfold it, mount_first_iter. rewrite Hcensus. cbn [fst snd]. now rewrite Hinit. }
  pose proof (mount_first_iter_ready (inode0_idx L1) e2) as Hready.
  pose proof (medium_iterator_init (inode0_idx L1) e2) as Hmed3.
  rewrite Hinit in Hready, Hmed3. cbn [fst snd] in Hready, Hmed3.
  destruct Hready as (Hb & Hs & Hready).
  run_bind Hrun as walked e4 Hwalk.
  pose proof (nand_inode_walk fuel it0 L1 e3 (or_intror Hready)) as Hw.
  rewrite Hwalk in Hw. rewrite Hb, Hs in Hw.
  rewrite (chain_file_ids_medium fuel (flash e3) (flash e)) in Hw by congruence.
  rewrite Hino, Hit.
  destruct (chain_file_ids fuel (flash e) (inode0_idx L1) (iter_next_block it0)
              (wrap16 FS_SECTORS_PER_PAGE)) as [ids|].
  - destruct Hw as (L' & e5 & Heq & _). inversion Heq; subst walked e5.
    run_bind Hrun as L2 e5 Halloc. run_bind Hrun as chk e6 Hdel.
    destruct (fst chk); run_bind Hrun as r e7 Hexit; inv_ret Hrun;
      split; discriminate.
  - cbn [fst] in Hw. subst walked. inv_ret Hrun. split; reflexivity.
Qed.

End NandChain.

Section NandFormatted.
Context {cfg : Config}.

Local Notation "'MEDIUM'" := (fun e : @env Nand.nand => medium (flash e)).

Hint Resolve medium_flog_open_page medium_iterator_init : keeps.

Lemma medium_flog_open_sector b s : keeps MEDIUM (flog_open_sector b s).
Proof. unfold flog_open_sector. apply medium_flog_open_page. Qed.
Hint Resolve medium_flog_open_sector : keeps.

Lemma medium_iterator_next it : keeps MEDIUM (flog_inode_iterator_next it).
Proof. unfold flog_inode_iterator_next, read_next_block. keeps_tac. Qed.
Hint Resolve medium_iterator_next : keeps.

Lemma medium_open_read_loop fuel name it file buf spare :
  keeps MEDIUM (open_read_loop fuel name it file buf spare).
Proof.
  revert it buf. induction fuel; intros it buf; simpl; unfold open_read_position; keeps_tac.
Qed.
Hint Resolve medium_open_read_loop : keeps.

Lemma medium_open_read fuel file name buf spare :
  keeps MEDIUM (flogfs_open_read fuel file name buf spare).
Proof. unfold flogfs_open_read. keeps_tac. Qed.

Lemma first_page_behind_page0 `{!GeometryOk} :
  wrap16 FS_SECTORS_PER_PAGE / FS_SECTORS_PER_PAGE = 1.
Proof.
  pose proof sectors_range as Hr. unfold wrap16.
  rewrite Z.mod_small by lia. apply Z.div_same. lia.
Qed.

(** X11.  Mounting a freshly formatted medium changes nothing but the page cache:
    [flogfs_mount] returns [FLOG_SUCCESS] as soon as it may visit one entry,
    asks for no erase, write or commit, leaves every cell as it is and every
    field of [flogfs] outside the page cache at its entry value, the lock
    released. *)
Theorem mount_of_formatted_medium `{!LayoutOk} `{!GeometryOk} `{!ErasedOk}
        fuel stack (e : @env Nand.nand) :
  formatted_medium (flash e) ->
  (0 < fuel)%nat ->
  let run := flogfs_mount fuel stack e in
  fst run = Some FLOG_SUCCESS
  /\ medium (flash (snd run)) = medium (flash e)
  /\ filter is_write_call (calls (snd run)) = filter is_write_call (calls e)
  /\ persistent (flogfs (snd run)) = persistent (flogfs e)
  /\ max_file_id (flogfs (snd run)) = max_file_id (flogfs e)
  /\ t (flogfs (snd run)) = t (flogfs e)
  /\ lock (flogfs (snd run)) = false.
Proof.
  intros Hf1 Hfuel run. subst run. pose proof num_blocks_pos as HN.
  pose proof (persistent_mount fuel stack e) as Hpers.
  destruct (flogfs_mount fuel stack e) as [res e'] eqn:Hrun. cbn [fst snd] in *.
  unfold flogfs_mount in Hrun.
  run_bind Hrun as u0 e0 Hlock. run_bind Hrun as u1 e1 Hflock.
  run_bind Hrun as L1 e2 Hscan.
  unfold fs_lock in Hlock. inversion Hlock; subst u0 e0; clear Hlock.
  inv_driver Hflock.
  match type of Hscan with
  | mount_scan_blocks _ _ _ ?ex = _ =>
      assert (Hf0 : formatted_medium (flash ex))
        by (eapply formatted_medium_medium; [|exact Hf1]; reflexivity);
      pose proof (nand_scan_blocks_formatted (Z.to_nat FS_NUM_BLOCKS) 0
                    (mount_init_locals stack) ex Hf0) as Hcand
  end.
  rewrite Hscan in Hcand. cbn [fst] in Hcand.
  destruct Hcand as (Hla & Hld & Hino); [lia|rewrite Z2Nat.id; lia|].
  assert (Hn0 : Nat.eqb (Z.to_nat FS_NUM_BLOCKS) 0 = false) by (apply Nat.eqb_neq; lia).
  rewrite Hn0 in Hino. cbn in Hino. rewrite Hino in Hrun.
  change (0 =? FLOG_BLOCK_IDX_INVALID) with false in Hrun. cbv iota in Hrun.
  kept (medium_scan_blocks (Z.to_nat FS_NUM_BLOCKS) 0 (mount_init_locals stack)) Hscan.
  kept (no_write_scan_blocks (Z.to_nat FS_NUM_BLOCKS) 0 (mount_init_locals stack)) Hscan.
  kept (max_file_id_scan_blocks (Z.to_nat FS_NUM_BLOCKS) 0 (mount_init_locals stack)) Hscan.
  kept (clock_scan_blocks (Z.to_nat FS_NUM_BLOCKS) 0 (mount_init_locals stack)) Hscan.
  cbn [flogfs flash calls] in Hk, Hk0, Hk1, Hk2.
  assert (Hmed2 : medium (flash e2) = medium (flash e)) by exact Hk.
  assert (Hid2 : max_file_id (flogfs e2) = max_file_id (flogfs e))
    by (rewrite Hk1; now destruct (flogfs e)).
  assert (Ht2 : t (flogfs e2) = t (flogfs e))
    by (rewrite Hk2; now destruct (flogfs e)).
  rewrite !filter_app in Hk0. cbn [filter is_write_call] in Hk0. rewrite !app_nil_r in Hk0.
  run_bind Hrun as it0 e3 Hinit.
  pose proof (mount_first_iter_ready 0 e2) as Hready.
  rewrite Hinit in Hready. cbn [fst snd] in Hready.
  destruct Hready as (Hb & Hs & Hready).
  kept (medium_iterator_init 0) Hinit.
  kept (no_write_iterator_init 0) Hinit.
  kept (max_file_id_iterator_init 0) Hinit.
  kept (clock_iterator_init 0) Hinit.
  run_bind Hrun as walked e4 Hwalk.
  pose proof (nand_inode_walk fuel it0 L1 e3 (or_intror Hready)) as Hw.
  rewrite Hwalk in Hw. rewrite Hb, Hs in Hw.
  assert (Hf3 : formatted_medium (flash e3)).
  { eapply formatted_medium_medium; [|exact Hf1]. congruence. }
  destruct fuel as [|fuel]; [lia|]. cbn [chain_file_ids] in Hw.
  rewrite (first_entry_erased _ Hf3), Z.eqb_refl in Hw.
  destruct Hw as (L' & e5 & Heq & (Hmed5 & Hid5 & _) & Hcand).
  inversion Heq; subst walked e5.
  destruct (Hcand eq_refl) as [Hla' Hld'].
  kept (no_write_inode_walk (S fuel) it0 L1) Hwalk.
  kept (clock_inode_walk (S fuel) it0 L1) Hwalk.
  run_bind Hrun as L2 e5 Halloc. unfold mount_check_allocation in Halloc.
  rewrite Hla', Hla in Halloc. cbn in Halloc. inv_ret Halloc.
  run_bind Hrun as chk e6 Hdel. unfold mount_check_deletion in Hdel.
  rewrite Hld', Hld in Hdel. cbn in Hdel. inv_ret Hdel. cbn [fst] in Hrun.
  run_bind Hrun as r e7 Hexit. inv_ret Hrun.
  unfold mount_success, bind, do_flash_unlock, driver, fs_unlock, ret in Hexit.
  cbn in Hexit. inversion Hexit; subst r e'; clear Hexit.
  cbn [flogfs flash calls lock set_lock max_file_id t].
  split; [reflexivity|]. split; [|split; [|split; [exact Hpers|]]].
  - transitivity (medium (flash e6)); [reflexivity|]. congruence.
  - rewrite !filter_app. cbn [filter is_write_call]. rewrite !app_nil_r. congruence.
  - replace (max_file_id (set_lock false (flogfs e6))) with (max_file_id (flogfs e6))
      by now destruct (flogfs e6).
    replace (t (set_lock false (flogfs e6))) with (t (flogfs e6))
      by now destruct (flogfs e6).
    cbn [last] in Hid5. cbn [max_file_id t set_lock] in *.
    split; [congruence|]. split; [congruence|]. now destruct (flogfs e6).
Qed.

(** X4.  On a freshly formatted medium every lookup fails and leaves the handle
    as it was given: [flogfs_open_read], reading the inode table at block
    [flogfs.inode0] = 0, meets the end marker in the first entry and returns
    [FLOG_FAILURE], whatever the name, without changing a cell. *)
Theorem open_read_of_formatted_medium `{!LayoutOk} `{!GeometryOk}
        fuel file name buf spare (e : @env Nand.nand) :
  formatted_medium (flash e) ->
  inode0 (flogfs e) = 0 ->
  (sizeof_inode_file_allocation_header <= sizeof_inode_file_allocation)%nat ->
  (0 < fuel)%nat ->
  let run := flogfs_open_read fuel file name buf spare e in
  fst run = Some (FLOG_FAILURE, file)
  /\ medium (flash (snd run)) = medium (flash e)
  /\ persistent (flogfs (snd run)) = persistent (flogfs e).
Proof.
  intros Hf Hino Hsize Hfuel run. subst run.
  split; [|split; [apply medium_open_read|apply persistent_open_read]].
  pose proof num_blocks_pos as HN. pose proof sectors_range as HS.
  destruct (flogfs_open_read fuel file name buf spare e) as [res e'] eqn:Hrun. cbn [fst].
  unfold flogfs_open_read in Hrun.
  destruct (FLOG_MAX_FNAME_LEN <=? strlen name)%nat; [now inv_ret Hrun|].
  run_bind Hrun as u0 e0 Hlock. run_bind Hrun as fs e1 Hfs.
  unfold fs_lock in Hlock. inversion Hlock; subst u0 e0; clear Hlock.
  unfold get_fs in Hfs. inversion Hfs; subst fs e1; clear Hfs.
  cbn [flogfs inode0 set_lock] in Hrun.
  rewrite Hino in Hrun.
  run_bind Hrun as it0 e2 Hinit.
  match type of Hinit with
  | flog_inode_iterator_init 0 ?ex = _ =>
      pose proof (mount_first_iter_ready 0 ex) as Hready;
      pose proof (medium_iterator_init 0 ex) as Hmed2
  end.
  rewrite Hinit in Hready, Hmed2. cbn [fst snd flash] in Hready, Hmed2.
  destruct Hready as (Hb & Hs & Hready).
  run_bind Hrun as out e3 Hloop.
  destruct fuel as [|fuel]; [lia|]. cbn [open_read_loop] in Hloop.
  run_bind Hloop as r0 e4 Hopen. unfold flog_open_sector in Hopen.
  destruct (nand_flog_open_page e2 _ _ (or_intror Hready)) as [(Hmed4 & _ & _) Ho4].
  rewrite Hopen in Hmed4, Ho4. cbn [snd] in Hmed4, Ho4.
  run_bind Hloop as d e5 Hread.
  rewrite (nand_read_sector e4 _ _ _ _ Ho4) in Hread.
  inversion Hread; subst d e5; clear Hread.
  rewrite get_field_blit in Hloop
    by (rewrite length_cells; pose proof alloc_file_id_in; unfold field_in in *; lia).
  rewrite Hb, Hs, first_page_behind_page0 in Hloop.
  rewrite cells_erased in Hloop.
  2:{ intros k.
      assert (Hm : medium (flash e4) = medium (flash e)) by (rewrite Hmed4; exact Hmed2).
      unfold medium in Hm. inversion Hm as [[Hd Hsp Hbd]]. rewrite Hd. apply (fm_data _ Hf); [lia|apply (fm_block0_good _ Hf)|congruence]. }
  rewrite get_field_erased in Hloop
    by (pose proof alloc_file_id_in; unfold field_in in *; lia).
  change (all_ones (f_width alloc_file_id) =? FLOG_FILE_ID_INVALID) with true in Hloop.
  cbv iota in Hloop.
  run_bind Hloop as u e6 Hwarn. apply ret_inv in Hloop. destruct Hloop as [Hout _].
  subst out.
  unfold bind, do_flash_unlock, driver, fs_unlock, ret in Hrun. cbn in Hrun.
  inversion Hrun. reflexivity.
Qed.

End NandFormatted.

Section NandLookup.
Context {cfg : Config}.

Lemma nth_cells f b p s n i :
  (i < n)%nat ->
  nth i (cells f b p s n) Byte.x00
  = if Nand.in_range b p then Nand.data f b p (Nand.sector_in_page s) i else Byte.xff.
Proof.
  intros Hi. unfold cells. destruct (Nand.in_range b p).
  - now rewrite nth_read_bytes.
  - now apply nth_repeat_lt.
Qed.

Lemma get_field_cells_size g f b p s n m :
  field_in g n -> field_in g m ->
  get_field g (cells f b p s n) = get_field g (cells f b p s m).
Proof.
  unfold field_in. intros Hn Hm. apply get_field_ext. intros i Hi.
  rewrite !nth_cells by lia. reflexivity.
Qed.

Lemma get_field_blit_under g (i a old : list byte) :
  field_in g (length a) -> (length i <= length a)%nat ->
  get_field g (blit i (blit a old)) = get_field g (blit i a).
Proof.
  unfold field_in. intros Hg Hi. apply get_field_ext. intros k Hk.
  rewrite !nth_blit.
  destruct (Nat.ltb_spec k (length i)); [reflexivity|].
  destruct (Nat.ltb_spec k (length a)); [reflexivity|lia].
Qed.

Lemma get_field_blit_in g (a old : list byte) :
  field_in g (length a) -> get_field g (blit a old) = get_field g a.
Proof. intros H. now apply get_field_blit. Qed.

Lemma alloc_filename_blit (d buf : list byte) :
  (off_alloc_filename + FLOG_MAX_FNAME_LEN <= length d)%nat ->
  alloc_filename (blit d buf) = alloc_filename d.
Proof.
  intros H. unfold alloc_filename. apply field_bytes_ext. intros i Hi.
  rewrite nth_blit. destruct (Nat.ltb_spec i (length d)); [reflexivity|lia].
Qed.

(** The loop of [flogfs_open_read] on the simulation: it stops at the first
    entry of the chain that passes the tests of lines 508 and 518, and
    positions the cursor there; without such an entry it leaves the handle as
    it was. *)
Lemma nand_open_read_loop `{!LayoutOk} `{!GeometryOk} (f0 : Nand.nand) name fuel :
  open_read_layout ->
  forall it file buf spare (e : @env Nand.nand) entries,
    medium (flash e) = medium f0 ->
    coherent e ->
    chain_entries fuel f0 (iter_block it) (iter_next_block it) (iter_sector it)
    = Some entries ->
    fst (open_read_loop fuel name it file buf spare e)
    = Some (lookup_by (fun block sector => entry_named f0 name block sector
                                           && union_live f0 block sector)
              f0 entries file).
Proof.
  intros (Hhdr & Hfirst & Hname & Hinval & Hts).
  induction fuel as [|fuel IH]; intros it file buf spare e entries Hmed Hc Hchain;
    [discriminate|].
  destruct (open_read_loop (S fuel) name it file buf spare e) as [res e'] eqn:Hrun.
  cbn [fst]. cbn [chain_entries] in Hchain. cbn [open_read_loop] in Hrun.
  run_bind Hrun as r0 e1 Hopen. unfold flog_open_sector in Hopen.
  destruct (nand_flog_open_page e (iter_block it) (iter_sector it / FS_SECTORS_PER_PAGE)
              (or_introl Hc)) as [(Hm1 & _ & Hc1) Ho1].
  rewrite Hopen in Hm1, Hc1, Ho1. cbn [snd] in Hm1, Hc1, Ho1.
  run_bind Hrun as d e2 Hread.
  rewrite (nand_read_sector e1 _ _ _ _ Ho1) in Hread.
  inversion Hread; subst d e2; clear Hread.
  assert (Hmed1 : medium (flash e1) = medium f0) by congruence.
  rewrite (cells_medium _ _ _ _ _ _ Hmed1) in Hrun.
  fold (entry_alloc f0 (iter_block it) (iter_sector it)) in Hrun.
  set (a := entry_alloc f0 (iter_block it) (iter_sector it)) in *.
  assert (Hla : length a = sizeof_inode_file_allocation) by apply length_cells.
  assert (Hid : get_field alloc_file_id (blit a buf)
                = entry_file_id f0 (iter_block it) (iter_sector it)).
  { rewrite get_field_blit_in
      by (rewrite Hla; pose proof alloc_file_id_in; unfold field_in in *; lia).
    unfold a, entry_alloc, entry_file_id. apply get_field_cells_size.
    - pose proof alloc_file_id_in. unfold field_in in *. lia.
    - apply alloc_file_id_in. }
  rewrite Hid in Hrun.
  destruct (entry_file_id f0 (iter_block it) (iter_sector it) =? FLOG_FILE_ID_INVALID).
  { inversion Hchain; subst entries.
    run_bind Hrun as u e3 Hwarn. apply ret_inv in Hrun. destruct Hrun as [Hres _].
    now subst res. }
  set (e2 := mkEnv (flogfs e1) (flash e1) _) in *.
  assert (Hc2 : coherent e2) by exact Hc1.
  assert (Hmed2 : medium (flash e2) = medium f0) by exact Hmed1.
  (* what the chain holds behind this entry *)
  assert (Hnext : forall (ex : @env Nand.nand) buf' it' ex',
             medium (flash ex) = medium f0 -> coherent ex ->
             flog_inode_iterator_next it ex = (it', ex') ->
             forall rest,
               (if wrap16 (iter_sector it + 2) >=? FS_PAGES_PER_BLOCK * FS_SECTORS_PER_PAGE
                then chain_entries fuel f0 (iter_next_block it)
                       (inode_tail_link f0 (iter_next_block it))
                       (wrap16 FS_SECTORS_PER_PAGE)
                else chain_entries fuel f0 (iter_block it) (iter_next_block it)
                       (wrap16 (iter_sector it + 2))) = Some rest ->
               fst (open_read_loop fuel name it' file buf' spare ex')
               = Some (lookup_by (fun block sector => entry_named f0 name block sector
                                                      && union_live f0 block sector)
                         f0 rest file)).
  { intros ex buf' it' ex' Hmx Hcx Hstep rest Hrest.
    destruct (nand_iterator_next ex it Hcx) as [(Hm' & _ & Hc') Hit].
    rewrite Hstep in Hm', Hc', Hit. cbn [fst snd] in Hm', Hc', Hit.
    apply IH; [congruence|exact Hc'|].
    rewrite Hit.
    destruct (wrap16 (iter_sector it + 2) >=? FS_PAGES_PER_BLOCK * FS_SECTORS_PER_PAGE);
      cbn [iter_block iter_next_block iter_sector]; [|exact Hrest].
    unfold inode_tail_link in *. now rewrite (cells_medium _ _ _ _ _ _ Hmx). }
  destruct (if wrap16 (iter_sector it + 2) >=? FS_PAGES_PER_BLOCK * FS_SECTORS_PER_PAGE
            then chain_entries fuel f0 (iter_next_block it)
                   (inode_tail_link f0 (iter_next_block it)) (wrap16 FS_SECTORS_PER_PAGE)
            else chain_entries fuel f0 (iter_block it) (iter_next_block it)
                   (wrap16 (iter_sector it + 2))) as [rest|] eqn:Hrest;
    [|discriminate].
  cbn [option_map] in Hchain. inversion Hchain; subst entries; clear Hchain.
  unfold lookup_by. cbn [find fst snd]. unfold entry_named, union_live. fold a.
  rewrite alloc_filename_blit in Hrun by (rewrite Hla; exact Hname).
  destruct (strncmp_eq name (alloc_filename a) FLOG_MAX_FNAME_LEN); cbn [negb andb] in *.
  2:{ run_bind Hrun as it' e3 Hstep.
      pose proof (Hnext e2 (blit a buf) it' e3 Hmed2 Hc2 Hstep rest eq_refl) as Hgo.
      rewrite Hrun in Hgo. exact Hgo. }
  run_bind Hrun as r1 e3 Hopen1. unfold flog_open_sector in Hopen1.
  destruct (nand_flog_open_page e2 (iter_block it)
              (wrap16 (iter_sector it + 1) / FS_SECTORS_PER_PAGE) (or_introl Hc2))
    as [(Hm3 & _ & Hc3) Ho3].
  rewrite Hopen1 in Hm3, Hc3, Ho3. cbn [snd] in Hm3, Hc3, Ho3.
  run_bind Hrun as d1 e4 Hread1.
  rewrite (nand_read_sector e3 _ _ _ _ Ho3) in Hread1.
  inversion Hread1; subst d1 e4; clear Hread1.
  assert (Hmed3 : medium (flash e3) = medium f0) by congruence.
  rewrite (cells_medium _ _ _ _ _ _ Hmed3) in Hrun.
  fold (entry_inval f0 (iter_block it) (iter_sector it)) in Hrun.
  set (i := entry_inval f0 (iter_block it) (iter_sector it)) in *.
  assert (Hli : length i = sizeof_timestamp) by apply length_cells.
  assert (Hunion : forall g, field_in g sizeof_inode_file_allocation ->
                             get_field g (blit i (blit a buf))
                             = get_field g (entry_union f0 (iter_block it) (iter_sector it))).
  { intros g Hg. unfold entry_union. fold a i.
    apply get_field_blit_under; [now rewrite Hla|rewrite Hli, Hla; exact Hts]. }
  rewrite (Hunion inval_timestamp Hinval) in Hrun.
  set (e4 := mkEnv (flogfs e3) (flash e3) _) in *.
  assert (Hc4 : coherent e4) by exact Hc3.
  assert (Hmed4 : medium (flash e4) = medium f0) by exact Hmed3.
  destruct (get_field inval_timestamp (entry_union f0 (iter_block it) (iter_sector it))
            =? FLOG_TIMESTAMP_INVALID); cbn [negb] in Hrun.
  2:{ run_bind Hrun as it' e5 Hstep.
      pose proof (Hnext e4 (blit i (blit a buf)) it' e5 Hmed4 Hc4 Hstep rest eq_refl) as Hgo.
      rewrite Hrun in Hgo. exact Hgo. }
  run_bind Hrun as file' e5 Hpos. apply ret_inv in Hrun. destruct Hrun as [Hres _].
  subst res. f_equal.
  unfold open_read_position in Hpos.
  rewrite (Hunion alloc_file_id) in Hpos
    by (pose proof alloc_file_id_in; unfold field_in in *; lia).
  rewrite (Hunion alloc_first_block Hfirst) in Hpos.
  cbn [fst snd]. unfold cursor_at.
  set (id := get_field alloc_file_id (entry_union f0 (iter_block it) (iter_sector it))) in *.
  set (first := get_field alloc_first_block
                  (entry_union f0 (iter_block it) (iter_sector it))) in *.
  run_bind Hpos as r5 e6 Hopen5. unfold flog_open_sector in Hopen5.
  destruct (nand_flog_open_page e4 first (0 / FS_SECTORS_PER_PAGE) (or_introl Hc4))
    as [(Hm6 & _ & Hc6) Ho6].
  rewrite Hopen5 in Hm6, Hc6, Ho6. cbn [snd] in Hm6, Hc6, Ho6.
  run_bind Hpos as sp0 e7 Hsp0.
  rewrite (nand_read_spare e6 _ _ _ Ho6) in Hsp0.
  inversion Hsp0; subst sp0 e7; clear Hsp0.
  assert (Hmed6 : medium (flash e6) = medium f0) by congruence.
  rewrite (spare_cells_medium _ _ _ _ _ Hmed6) in Hpos.
  rewrite Zdiv_0_l in Hpos.
  rewrite get_field_blit in Hpos
    by (unfold spare_cells; destruct (Nand.in_range first 0);
        rewrite ?length_read_bytes, ?repeat_length; apply file_spare_nbytes_in).
  destruct (get_field file_spare_nbytes (spare_cells f0 first 0 0) =? 0); cbn [negb] in Hpos.
  - run_bind Hpos as r7 e8 Hopen7. unfold flog_open_sector in Hopen7.
    match type of Hopen7 with
    | flog_open_page _ _ ?ex = _ =>
        assert (Hc7 : coherent ex) by exact Hc6;
        destruct (nand_flog_open_page ex first (1 / FS_SECTORS_PER_PAGE) (or_introl Hc7))
          as [(Hm8 & _ & Hc8) Ho8]
    end.
    rewrite Hopen7 in Hm8, Hc8, Ho8. cbn [snd] in Hm8, Hc8, Ho8.
    run_bind Hpos as sp1 e9 Hsp1.
    rewrite (nand_read_spare e8 _ _ _ Ho8) in Hsp1.
    inversion Hsp1; subst sp1 e9; clear Hsp1.
    assert (Hmed8 : medium (flash e8) = medium f0) by (rewrite Hm8; exact Hmed6).
    rewrite (spare_cells_medium _ _ _ _ _ Hmed8) in Hpos.
    rewrite get_field_blit in Hpos
      by (unfold spare_cells; destruct (Nand.in_range first (1 / FS_SECTORS_PER_PAGE));
          rewrite ?length_read_bytes, ?repeat_length; apply file_spare_nbytes_in).
    inv_ret Hpos. reflexivity.
  - inv_ret Hpos. reflexivity.
Qed.

(** With the timestamp as first member of the invalidation record, the
    bytes that line 515 reads are that timestamp, and the test of line 518 is
    a test of the record on the medium. *)
Lemma union_live_entry_live (f : Nand.nand) block sector :
  off_inval_timestamp = 0%nat ->
  field_in inval_timestamp sizeof_inode_file_invalidation ->
  union_live f block sector = entry_live f block sector.
Proof.
  intros Hoff Hin. unfold union_live, entry_live. f_equal.
  unfold entry_union, entry_inval, entry_invalidation.
  rewrite get_field_blit.
  2:{ rewrite length_cells. unfold inval_timestamp. cbn [f_off f_width]. rewrite Hoff. lia. }
  apply get_field_cells_size; [|exact Hin].
  unfold field_in, inval_timestamp. cbn [f_off f_width]. rewrite Hoff. lia.
Qed.

Lemma lookup_by_ext (test test' : Z -> Z -> bool) f entries file :
  (forall block sector, test block sector = test' block sector) ->
  lookup_by test f entries file = lookup_by test' f entries file.
Proof.
  intros H. unfold lookup_by. induction entries as [|p l IH]; [reflexivity|].
  cbn [find]. rewrite H. destruct (test' (fst p) (snd p)); [reflexivity|exact IH].
Qed.

(** X3.  What [flogfs_open_read] finds.  On the simulation, with a coherent
    page cache, an invalidation record that starts with its timestamp, and an
    inode chain (from block [flogfs.inode0]) that ends within reach, the
    lookup of a name of admissible length returns (with [FLOG_FAILURE], as
    always) the cursor for the first entry of the chain that carries the name
    and whose invalidation record on the medium has an all-ones timestamp;
    when no entry does, the handle comes back untouched.  Deleted entries and
    entries with other names are passed over. *)
Theorem open_read_finds_first_live_match `{!LayoutOk} `{!GeometryOk}
        fuel file name buf spare (e : @env Nand.nand) entries :
  open_read_layout ->
  off_inval_timestamp = 0%nat ->
  field_in inval_timestamp sizeof_inode_file_invalidation ->
  coherent e ->
  (strlen name < FLOG_MAX_FNAME_LEN)%nat ->
  chain_entries fuel (flash e) (inode0 (flogfs e))
    (inode_tail_link (flash e) (inode0 (flogfs e))) (wrap16 FS_SECTORS_PER_PAGE)
  = Some entries ->
  fst (flogfs_open_read fuel file name buf spare e)
  = Some (FLOG_FAILURE, lookup (flash e) name entries file).
Proof.
  intros Hlay Hoff Hin Hc Hlen Hchain.
  unfold lookup.
  rewrite <- (lookup_by_ext
                (fun block sector => entry_named (flash e) name block sector
                                     && union_live (flash e) block sector))
    by (intros block sector; now rewrite (union_live_entry_live _ _ _ Hoff Hin)).
  destruct (flogfs_open_read fuel file name buf spare e) as [res e'] eqn:Hrun. cbn [fst].
  unfold flogfs_open_read in Hrun.
  destruct (Nat.leb_spec FLOG_MAX_FNAME_LEN (strlen name)); [lia|].
  run_bind Hrun as u0 e0 Hlock. run_bind Hrun as fs e1 Hfs.
  unfold fs_lock in Hlock. inversion Hlock; subst u0 e0; clear Hlock.
  unfold get_fs in Hfs. inversion Hfs; subst fs e1; clear Hfs.
  cbn [flogfs] in Hrun.
  replace (inode0 (set_lock true (flogfs e))) with (inode0 (flogfs e)) in Hrun
    by now destruct (flogfs e).
  set (e1 := mkEnv (set_lock true (flogfs e)) (flash e) _) in *.
  assert (Hc1 : coherent e1).
  { unfold coherent, e1. cbn [flogfs flash]. intros Ho.
    replace (current_open_block (set_lock true (flogfs e)))
      with (current_open_block (flogfs e)) by now destruct (flogfs e).
    replace (current_open_page (set_lock true (flogfs e)))
      with (current_open_page (flogfs e)) by now destruct (flogfs e).
    apply Hc. now destruct (flogfs e). }
  run_bind Hrun as it e2 Hinit.
  unfold flog_inode_iterator_init in Hinit.
  run_bind Hinit as r0 e3 Hopen.
  destruct (nand_flog_open_page e1 (inode0 (flogfs e)) 0 (or_introl Hc1))
    as [(Hm3 & _ & Hc3) Ho3].
  rewrite Hopen in Hm3, Hc3, Ho3. cbn [snd] in Hm3, Hc3, Ho3.
  run_bind Hinit as nb e4 Htail. unfold read_next_block in Htail.
  run_bind Htail as d e5 Hread.
  rewrite (nand_read_sector e3 _ _ _ _ Ho3) in Hread.
  inversion Hread; subst d e5; clear Hread. inv_ret Htail. inv_ret Hinit.
  run_bind Hrun as out e6 Hloop.
  match type of Hloop with
  | open_read_loop _ _ ?it0 _ _ _ ?ex = _ =>
      pose proof (nand_open_read_loop (flash e) name fuel Hlay it0 file buf spare ex entries)
        as Hgo
  end.
  rewrite Hloop in Hgo. cbn [fst flash iter_block iter_next_block iter_sector] in Hgo.
  assert (Hmed3 : medium (flash e3) = medium (flash e)) by exact Hm3.
  specialize (Hgo Hmed3 Hc3).
  unfold inode_tail_link in Hchain.
  rewrite <- (cells_medium _ _ _ _ _ _ Hmed3) in Hchain.
  specialize (Hgo Hchain). subst out.
  unfold bind, do_flash_unlock, driver, fs_unlock, ret in Hrun. cbn in Hrun.
  inversion Hrun. reflexivity.
Qed.

End NandLookup.

Section Coherence.
Context {cfg : Config}.

Lemma coheres_ret {A} (a : A) : coheres (ret a).
Proof. intros e H. exact H. Qed.

Lemma coheres_bind {A B} (m : @M Nand.nand A) (k : A -> @M Nand.nand B) :
  coheres m -> (forall a, coheres (k a)) -> coheres (bind m k).
Proof.
  intros Hm Hk e H. unfold bind. specialize (Hm e H).
  destruct (m e) as [a e1]. now apply Hk.
Qed.

Lemma coheres_get_fs : coheres get_fs.
Proof. intros e H. exact H. Qed.

Lemma coheres_driver {A} (c : call) (op : Nand.nand -> A * Nand.nand) :
  (forall f, Nand.opened (snd (op f)) = Nand.opened f) ->
  coheres (driver c op).
Proof.
  intros Hop e H. unfold driver. specialize (Hop (flash e)).
  destruct (op (flash e)) as [a f]. cbn [snd] in *.
  unfold coherent in *. cbn [flogfs flash]. now rewrite Hop.
Qed.

Lemma coheres_modify (u : flogfs_t -> flogfs_t) :
  (forall fs, page_open (u fs) = page_open fs
              /\ current_open_block (u fs) = current_open_block fs
              /\ current_open_page (u fs) = current_open_page fs) ->
  coheres (modify_fs u).
Proof.
  intros Hu e H. unfold modify_fs, coherent in *. cbn [snd flogfs flash].
  destruct (Hu (flogfs e)) as (-> & -> & ->). exact H.
Qed.

Lemma coheres_fs_lock : coheres fs_lock /\ coheres fs_unlock.
Proof.
  split; intros e H; unfold fs_lock, fs_unlock, coherent in *; cbn [snd flogfs flash];
    destruct (flogfs e); exact H.
Qed.

Lemma coheres_flog_open_page b p : coheres (flog_open_page b p).
Proof.
  intros e H. destruct (nand_flog_open_page e b p (or_introl H)) as [(_ & _ & Hc) _].
  exact Hc.
Qed.

Lemma opened_erase_block b f : Nand.opened (snd (Nand.erase_block b f)) = Nand.opened f.
Proof.
  unfold Nand.erase_block.
  destruct (Nand.in_range b 0 && negb (Nand.bad f b)); reflexivity.
Qed.

Lemma opened_write_sector src s o f :
  Nand.opened (Nand.write_sector src s o f) = Nand.opened f.
Proof. unfold Nand.write_sector. destruct (Nand.opened f) as [[b p]|] eqn:E; cbn; auto. Qed.

Lemma opened_write_spare src s f :
  Nand.opened (Nand.write_spare src s f) = Nand.opened f.
Proof. unfold Nand.write_spare. destruct (Nand.opened f) as [[b p]|] eqn:E; cbn; auto. Qed.

End Coherence.

Create HintDb coheres discriminated.

#[export] Hint Resolve coheres_ret coheres_get_fs coheres_flog_open_page : coheres.
#[export] Hint Extern 1 (coheres fs_lock) => apply coheres_fs_lock : coheres.
#[export] Hint Extern 1 (coheres fs_unlock) => apply coheres_fs_lock : coheres.
#[export] Hint Extern 1 (coheres (modify_fs _)) =>
  apply coheres_modify; intros fs; destruct fs; repeat split : coheres.
#[export] Hint Extern 2 (coheres (driver _ _)) =>
  apply coheres_driver; intros; cbn;
  solve [ reflexivity | apply opened_erase_block | apply opened_write_sector
        | apply opened_write_spare ] : coheres.

Ltac coheres_step :=
  first
    [ solve [auto with coheres]
    | progress unfold_driver
    | progress cbv zeta
    | match goal with
      | |- coheres (if ?c then _ else _) => destruct c
      | |- coheres (match ?x with _ => _ end) => destruct x
      end
    | apply coheres_bind; [| intros ?] ].

Ltac coheres_tac := repeat coheres_step.

Section CoherentOperations.
Context {cfg : Config}.

Lemma coheres_flog_open_sector b s : coheres (flog_open_sector b s).
Proof. unfold flog_open_sector. apply coheres_flog_open_page. Qed.
Hint Resolve coheres_flog_open_sector : coheres.

Lemma coheres_iterator_init b : coheres (flog_inode_iterator_init b).
Proof. unfold flog_inode_iterator_init, read_next_block. coheres_tac. Qed.

Lemma coheres_iterator_next it : coheres (flog_inode_iterator_next it).
Proof. unfold flog_inode_iterator_next, read_next_block. coheres_tac. Qed.
Hint Resolve coheres_iterator_init coheres_iterator_next : coheres.

Lemma coheres_check_allocation L : coheres (mount_check_allocation L).
Proof. unfold mount_check_allocation. coheres_tac. Qed.

Lemma coheres_check_deletion L : coheres (mount_check_deletion L).
Proof. unfold mount_check_deletion. coheres_tac. Qed.

Lemma coheres_mount_exit : coheres mount_success /\ coheres mount_failure.
Proof. unfold mount_success, mount_failure. split; coheres_tac. Qed.

Lemma coheres_open_read_loop fuel name it file buf spare :
  coheres (open_read_loop fuel name it file buf spare).
Proof.
  revert it buf. induction fuel; intros it buf; simpl; unfold open_read_position;
    coheres_tac.
Qed.
Hint Resolve coheres_open_read_loop : coheres.

Lemma coheres_open_read fuel file name buf spare :
  coheres (flogfs_open_read fuel file name buf spare).
Proof. unfold flogfs_open_read. coheres_tac. Qed.

(** X19.  The page cache after the public operations, on the simulation.  A
    [flogfs_mount] that found inode 0 and returned leaves the cache naming the
    page the driver holds, even if it was entered with a stale cache (its
    census opens pages behind the cache's back, its walk then opens a page
    the cache cannot name).  [flogfs_open_read] leaves the cache truthful
    whenever it found it so.  [flogfs_format] does not: it closes the
    driver's page and leaves the cache fields as they were. *)
Theorem page_cache_after_operations `{!LayoutOk} `{!GeometryOk} (e : @env Nand.nand) :
  (forall fuel stack r,
      fst (flogfs_mount fuel stack e) = Some r ->
      inode0_idx (fst (mount_census stack e)) <> FLOG_BLOCK_IDX_INVALID ->
      coherent (snd (flogfs_mount fuel stack e)))
  /\ (forall fuel file name buf spare,
         coherent e ->
         coherent (snd (flogfs_open_read fuel file name buf spare e)))
  /\ (forall buf,
         page_open (flogfs e) <> 0 ->
         Nand.in_range (current_open_block (flogfs e)) (current_open_page (flogfs e)) = true ->
         ~ coherent (snd (flogfs_format buf e))).
Proof.
  split; [|split].
  - intros fuel stack r Hres Hfound.
    destruct (flogfs_mount fuel stack e) as [res e'] eqn:Hrun. cbn [fst snd] in *.
    subst res. unfold flogfs_mount in Hrun.
    run_bind Hrun as u0 e0 Hlock. run_bind Hrun as u1 e1 Hflock.
    run_bind Hrun as L1 e2 Hscan.
    assert (Hcensus : mount_census stack e = (L1, e2)).
    { unfold mount_census. rewrite Hlock. cbn [snd]. rewrite Hflock. cbn [snd].
      exact Hscan. }
    rewrite Hcensus in Hfound. cbn [fst] in Hfound.
    destruct (Z.eqb_spec (inode0_idx L1) FLOG_BLOCK_IDX_INVALID) as [E|_]; [contradiction|].
    run_bind Hrun as it0 e3 Hinit.
    pose proof (mount_first_iter_ready (inode0_idx L1) e2) as Hready.
    rewrite Hinit in Hready. cbn [fst snd] in Hready.
    destruct Hready as (Hb & Hs & Hready).
    run_bind Hrun as walked e4 Hwalk.
    pose proof (nand_inode_walk fuel it0 L1 e3 (or_intror Hready)) as Hw.
    rewrite Hwalk in Hw.
    destruct (chain_file_ids fuel (flash e3) (iter_block it0) (iter_next_block it0)
                (iter_sector it0)) as [ids|].
    2:{ cbn [fst] in Hw. subst walked. inv_ret Hrun. discriminate. }
    destruct Hw as (L' & e5 & Heq & (_ & _ & Hc4) & _). inversion Heq; subst walked e5.
    run_bind Hrun as L2 e5 Halloc. run_bind Hrun as chk e6 Hdel.
    pose proof (coheres_check_allocation L' e4 Hc4) as Hc5.
    rewrite Halloc in Hc5. cbn [snd] in Hc5.
    pose proof (coheres_check_deletion L2 e5 Hc5) as Hc6.
    rewrite Hdel in Hc6. cbn [snd] in Hc6.
    destruct coheres_mount_exit as [Hs_ Hf_].
    destruct (fst chk); run_bind Hrun as r' e7 Hexit; inv_ret Hrun.
    + specialize (Hs_ e6 Hc6). now rewrite Hexit in Hs_.
    + specialize (Hf_ e6 Hc6). now rewrite Hexit in Hf_.
  - intros fuel file name buf spare Hc. now apply coheres_open_read.
  - intros buf Hopen Hrange Hc.
    destruct e as [fs f cs]. cbn [flogfs] in *.
    destruct (nand_format_run buf fs f cs) as (e' & Hrun & Hfs & _ & Hop & _).
    rewrite Hrun in Hc. cbn [snd] in Hc. unfold coherent in Hc.
    rewrite Hfs, Hop in Hc.
    replace (page_open (set_lock false fs)) with (page_open fs) in Hc by now destruct fs.
    replace (current_open_block (set_lock false fs)) with (current_open_block fs) in Hc
      by now destruct fs.
    replace (current_open_page (set_lock false fs)) with (current_open_page fs) in Hc
      by now destruct fs.
    specialize (Hc Hopen). unfold open_target in Hc. rewrite Hrange in Hc. discriminate.
Qed.

End CoherentOperations.

(** ** The further statements at concrete inputs *)

Section FurtherWitnesses.
Import Small.
Import Media.

Lemma small_entry_geometry : @entry_geometry Small.cfg.
Proof. unfold entry_geometry. cbn. lia. Defined.

Lemma small_open_read_layout : @open_read_layout Small.cfg.
Proof.
  unfold open_read_layout, field_in. cbn.
  unfold sizeof_block_idx, sizeof_timestamp. lia.
Defined.

Lemma formatted_is_formatted : formatted_medium formatted.
Proof.
  unfold formatted, start.
  destruct (nand_format [] fs0 (Nand.blank (fun _ => false)) [] eq_refl)
    as (e' & Hrun & Hf).
  rewrite Hrun. exact Hf.
Qed.

Lemma blank_has_no_inode_block j :
  0 <= j < FS_NUM_BLOCKS -> is_inode0_block (Nand.blank (fun _ => false)) j = false.
Proof.
  intros Hj. change FS_NUM_BLOCKS with 4 in Hj.
  assert (Hc : j = 0 \/ j = 1 \/ j = 2 \/ j = 3) by lia.
  destruct Hc as [->|[->|[->| ->]]]; vm_compute; reflexivity.
Qed.

Lemma seven_files_one_inode0 j :
  0 < j < FS_NUM_BLOCKS -> is_inode0_block seven_files j = false.
Proof.
  intros Hj. change FS_NUM_BLOCKS with 4 in Hj.
  assert (Hc : j = 1 \/ j = 2 \/ j = 3) by lia.
  destruct Hc as [->|[->| ->]]; vm_compute; reflexivity.
Qed.

(** C4 on the small geometry: the tail sector of block 1 announces block 2
    (age 1, file 1, time 5) and block 2 is erased.  The mount repairs it:
    afterwards sector 0 of its page 0 holds the header and the spare, and the
    clock is 6. *)
Lemma flogfs_mount_repairs_allocation_witness :
  fst (flogfs_mount 5 stack0 (start fs0 with_announced_block)) = Some FLOG_SUCCESS
  /\ t (flogfs (snd (flogfs_mount 5 stack0 (start fs0 with_announced_block)))) = 6
  /\ cells (flash (snd (flogfs_mount 5 stack0 (start fs0 with_announced_block)))) 2 0 0 8
     = [Byte.x01; Byte.x00; Byte.x00; Byte.x00; Byte.x01; Byte.x00; Byte.x00; Byte.x00]
  /\ spare_cells (flash (snd (flogfs_mount 5 stack0 (start fs0 with_announced_block))))
       2 0 0
     = [Byte.x02; Byte.x00; Byte.x00; Byte.x00].
Proof.
  split; [vm_compute; reflexivity|]. split; [|split; vm_compute; reflexivity].
  destruct (flogfs_mount_repairs_allocation 5 stack0 (start fs0 with_announced_block)
              (mkLocals (mkLastAllocation 2 1 1 5) (mkLastDeletion 0 0 4294967295 0)
                 2 0 0 (repeat Byte.xff 8) (repeat Byte.xff 16) (repeat Byte.xff 4)))
    as (header & spare & rest & r & _ & _ & _ & _ & _ & _ & _ & _ & _ & _ & Ht).
  - exact small_layout_ok.
  - vm_compute. discriminate.
  - vm_compute. reflexivity.
  - reflexivity.
  - vm_compute. discriminate.
  - apply Ht. reflexivity.
Defined.

(** C6 on the small geometry: the mount of a blank medium fails for want of
    an inode table 0 and leaves the state and the locks as they were. *)
Lemma failure_keeps_persistent_fields_witness :
  locks_free (start fs0 (Nand.blank (fun _ => false)))
  /\ fst (flogfs_mount 5 stack0 (start fs0 (Nand.blank (fun _ => false))))
     = Some FLOG_FAILURE
  /\ flogfs (snd (flogfs_mount 5 stack0 (start fs0 (Nand.blank (fun _ => false)))))
     = flogfs (start fs0 (Nand.blank (fun _ => false)))
  /\ locks_free (snd (flogfs_mount 5 stack0 (start fs0 (Nand.blank (fun _ => false))))).
Proof.
  assert (H : locks_free (start fs0 (Nand.blank (fun _ => false)))) by (split; reflexivity).
  assert (Hr : fst (flogfs_mount 5 stack0 (start fs0 (Nand.blank (fun _ => false))))
               = Some FLOG_FAILURE) by (vm_compute; reflexivity).
  split; [exact H|]. split; [exact Hr|].
  destruct (proj1 (proj2 (failure_keeps_persistent_fields
                            (start fs0 (Nand.blank (fun _ => false))) H))
              5%nat stack0
              (snd (flogfs_mount 5 stack0 (start fs0 (Nand.blank (fun _ => false)))))
              (run_result _ _ Hr))
    as (Hfree & _ & Hall).
  split; [|exact Hfree]. apply Hall. vm_compute. reflexivity.
Defined.

(** C7 on the small geometry: the medium with the files 1 to 7, whose inode
    chain runs from block 0 into block 2, mounted from the zero-initialised
    state. *)
Lemma mount_max_file_id_witness :
  chain_file_ids 10 seven_files 0 (inode_tail_link seven_files 0)
    (wrap16 FS_SECTORS_PER_PAGE) = Some [1; 2; 3; 4; 5; 6; 7]
  /\ max_file_id (flogfs (snd (flogfs_mount 10 stack0 (start fs0 seven_files)))) = 7.
Proof.
  assert (Hchain : chain_file_ids 10 seven_files 0 (inode_tail_link seven_files 0)
                     (wrap16 FS_SECTORS_PER_PAGE) = Some [1; 2; 3; 4; 5; 6; 7])
    by (vm_compute; reflexivity).
  split; [exact Hchain|].
  destruct (mount_max_file_id 10 stack0 (start fs0 seven_files)
              (snd (flogfs_mount 10 stack0 (start fs0 seven_files))) FLOG_SUCCESS 0)
    as (ids & Hids & Hmax & _).
  - vm_compute. discriminate.
  - cbn. lia.
  - vm_compute. reflexivity.
  - exact seven_files_one_inode0.
  - intros (Hopen & _). apply Hopen. reflexivity.
  - apply run_result. vm_compute. reflexivity.
  - cbn [flash start] in Hids. rewrite Hchain in Hids. inversion Hids; subst ids.
    rewrite Hmax. reflexivity.
Defined.

(** X6 on the small geometry: the mount of the medium with the file
    "log". *)
Lemma flogfs_mount_lock_calls_witness :
  filter is_lock_call (calls (snd (flogfs_mount 5 stack0 (start fs0 with_file))))
  = filter is_lock_call (calls (start fs0 with_file))
      ++ [FsLock; FlashLock; FlashUnlock; FsUnlock]
  /\ lock (flogfs (snd (flogfs_mount 5 stack0 (start fs0 with_file)))) = false.
Proof.
  apply (flogfs_mount_lock_calls 5 stack0 (start fs0 with_file) FLOG_SUCCESS).
  apply run_result. vm_compute. reflexivity.
Defined.

(** X13 on the small geometry: block 1 of a blank medium fails to erase;
    [flogfs_format] has erased block 0 and stops there. *)
Lemma flogfs_format_stops_at_failed_erase_witness :
  fst (@flogfs_format Small.cfg Nand.nand (Worn.driver 1) []
         (start fs0 (Nand.blank (fun _ => false)))) = FLOG_FAILURE
  /\ exists k l,
      0 <= k < FS_NUM_BLOCKS
      /\ calls (snd (@flogfs_format Small.cfg Nand.nand (Worn.driver 1) []
                       (start fs0 (Nand.blank (fun _ => false)))))
         = calls (start fs0 (Nand.blank (fun _ => false)))
             ++ [FsLock] ++ l ++ [FlashEraseBlock k; FsUnlock; FlashUnlock]
      /\ forallb (erase_pass_call k) l = true
      /\ flogfs (snd (@flogfs_format Small.cfg Nand.nand (Worn.driver 1) []
                        (start fs0 (Nand.blank (fun _ => false)))))
         = set_lock false (flogfs (start fs0 (Nand.blank (fun _ => false)))).
Proof.
  assert (H : fst (@flogfs_format Small.cfg Nand.nand (Worn.driver 1) []
                     (start fs0 (Nand.blank (fun _ => false)))) = FLOG_FAILURE)
    by (vm_compute; reflexivity).
  split; [exact H|].
  apply (@flogfs_format_stops_at_failed_erase Small.cfg Nand.nand (Worn.driver 1) []).
  apply run_result. exact H.
Defined.

(** X2 on the small geometry: the handle after the lookup of "log" on the
    medium that holds it. *)
Lemma flogfs_open_read_handle_witness :
  positioned file0 (mkReadFile 4294967295 1 0 8 3).
Proof.
  apply (flogfs_open_read_handle 5 file0 log_name [] []
           (snd (flogfs_mount 5 stack0 (start fs0 with_file))) FLOG_FAILURE
           (mkReadFile 4294967295 1 0 8 3)
           (snd (flogfs_open_read 5 file0 log_name [] []
                   (snd (flogfs_mount 5 stack0 (start fs0 with_file)))))).
  apply (run_result _ (Some (FLOG_FAILURE, mkReadFile 4294967295 1 0 8 3))).
  vm_compute. reflexivity.
Defined.

(** X16 on the small geometry: from sector 14, the last entry of a block,
    the next step lands on an entry again. *)
Lemma iterator_stays_in_block_witness :
  entry_geometry
  /\ iter_in_block (mkIter 0 3 5 14)
  /\ iter_in_block (fst (flog_inode_iterator_next (mkIter 0 3 5 14) (start fs0 formatted))).
Proof.
  assert (Hin : iter_in_block (mkIter 0 3 5 14)) by (unfold iter_in_block; cbn; lia).
  split; [exact small_entry_geometry|]. split; [exact Hin|].
  exact (proj1 (proj2 (iterator_stays_in_block 0 (mkIter 0 3 5 14) (start fs0 formatted)
                         small_entry_geometry)) Hin).
Defined.

(** X17 on the small geometry (6 entries per block): entry 5 is at sector
    14, and entry 6 is the first entry of the next block. *)
Lemma iterator_index_gives_sector_witness :
  entry_geometry
  /\ iter_at_index (mkIter 0 3 5 14)
  /\ iter_at_index (fst (flog_inode_iterator_next (mkIter 0 3 5 14) (start fs0 formatted))).
Proof.
  assert (Hat : iter_at_index (mkIter 0 3 5 14)) by (vm_compute; reflexivity).
  split; [exact small_entry_geometry|]. split; [exact Hat|].
  apply (proj2 (iterator_index_gives_sector 0 (mkIter 0 3 5 14) (start fs0 formatted)
                  small_entry_geometry)); [cbn; lia|cbn; lia|exact Hat].
Defined.

(** X14 on the small geometry: formatting the medium with the file "log"
    after its block 1 was marked bad.  The bad block keeps the file header,
    the inode entry of the file in block 0 is erased. *)
Lemma nand_format_effect_witness :
  fst (flogfs_format [] (start fs0 with_bad_file_block)) = FLOG_SUCCESS
  /\ Nand.data (flash (snd (flogfs_format [] (start fs0 with_bad_file_block)))) 1 0 0 0%nat
     = Byte.x01
  /\ Nand.data (flash (snd (flogfs_format [] (start fs0 with_bad_file_block)))) 0 1 0 0%nat
     = Byte.xff.
Proof.
  destruct (nand_format_effect [] fs0 with_bad_file_block [])
    as (Hr & _ & _ & _ & _ & Hrest & _).
  split; [exact Hr|]. split.
  - etransitivity; [exact (proj1 (Hrest 1 0 0 0%nat ltac:(congruence)))|].
    vm_compute. reflexivity.
  - etransitivity; [exact (proj1 (Hrest 0 1 0 0%nat ltac:(congruence)))|].
    vm_compute. reflexivity.
Defined.

(** X15 on the small geometry: formatting the medium with the file "log"
    twice. *)
Lemma nand_format_twice_witness :
  fst (flogfs_format [] (snd (flogfs_format [] (start fs0 with_file)))) = FLOG_SUCCESS
  /\ flogfs (snd (flogfs_format [] (snd (flogfs_format [] (start fs0 with_file)))))
     = flogfs (snd (flogfs_format [] (start fs0 with_file))).
Proof.
  destruct (nand_format_twice [] fs0 with_file []) as (Hr & Hfs & _).
  split; [exact Hr|exact Hfs].
Defined.

(** X8 on the small geometry: blocks 0 and 3 both present themselves as
    inode table 0; the census takes block 3. *)
Lemma mount_census_finds_last_inode0_witness :
  is_inode0_block two_tables 0 = true
  /\ is_inode0_block two_tables 3 = true
  /\ inode0_idx (fst (mount_census stack0 (start fs0 two_tables))) = 3.
Proof.
  assert (H0 : is_inode0_block two_tables 0 = true) by (vm_compute; reflexivity).
  assert (H3 : is_inode0_block two_tables 3 = true) by (vm_compute; reflexivity).
  split; [exact H0|]. split; [exact H3|].
  destruct (mount_census_finds_last_inode0 stack0 (start fs0 two_tables))
    as [(_ & Hnone)|(k & Hk & _ & Hlater & Hfound)].
  - specialize (Hnone 0 ltac:(cbn; lia)). cbn [flash start] in Hnone. congruence.
  - change FS_NUM_BLOCKS with 4 in Hk, Hlater. cbn [flash start] in Hlater.
    assert (Hk3 : k = 3).
    { destruct (Z.eq_dec k 3) as [E|E]; [exact E|].
      specialize (Hlater 3 ltac:(lia)). congruence. }
    rewrite Hfound, Hk3. reflexivity.
Defined.

(** X9 on the small geometry: a blank medium does not mount. *)
Lemma mount_fails_without_inode_block_witness :
  fst (flogfs_mount 0 stack0 (start fs0 (Nand.blank (fun _ => false)))) = Some FLOG_FAILURE
  /\ flogfs (snd (flogfs_mount 0 stack0 (start fs0 (Nand.blank (fun _ => false)))))
     = set_lock false (flogfs (start fs0 (Nand.blank (fun _ => false)))).
Proof.
  destruct (mount_fails_without_inode_block 0 stack0
              (start fs0 (Nand.blank (fun _ => false))) blank_has_no_inode_block)
    as (Hr & _ & _ & _ & Hfs).
  split; [exact Hr|exact Hfs].
Defined.

(** X10 on the small geometry: the medium with the file "log" has one entry
    before the end marker, so fuel for one entry is not enough. *)
Lemma mount_returns_iff_chain_ends_witness :
  inode0_idx (fst (mount_census stack0 (start fs0 with_file))) <> FLOG_BLOCK_IDX_INVALID
  /\ chain_file_ids 1 (flash (start fs0 with_file))
       (inode0_idx (fst (mount_census stack0 (start fs0 with_file))))
       (iter_next_block (mount_first_iter stack0 (start fs0 with_file)))
       (wrap16 FS_SECTORS_PER_PAGE) = None
  /\ fst (flogfs_mount 1 stack0 (start fs0 with_file)) = None.
Proof.
  assert (H : inode0_idx (fst (mount_census stack0 (start fs0 with_file)))
              <> FLOG_BLOCK_IDX_INVALID) by (vm_compute; discriminate).
  assert (Hchain : chain_file_ids 1 (flash (start fs0 with_file))
                     (inode0_idx (fst (mount_census stack0 (start fs0 with_file))))
                     (iter_next_block (mount_first_iter stack0 (start fs0 with_file)))
                     (wrap16 FS_SECTORS_PER_PAGE) = None) by (vm_compute; reflexivity).
  split; [exact H|]. split; [exact Hchain|].
  apply (mount_returns_iff_chain_ends 1 stack0 (start fs0 with_file) H). exact Hchain.
Defined.

(** X11 on the small geometry: mounting the formatted medium. *)
Lemma mount_of_formatted_medium_witness :
  fst (flogfs_mount 1 stack0 (start fs0 formatted)) = Some FLOG_SUCCESS
  /\ max_file_id (flogfs (snd (flogfs_mount 1 stack0 (start fs0 formatted)))) = 0.
Proof.
  destruct (mount_of_formatted_medium 1 stack0 (start fs0 formatted)
              formatted_is_formatted ltac:(lia))
    as (Hr & _ & _ & _ & Hid & _).
  split; [exact Hr|exact Hid].
Defined.

(** X4 on the small geometry: looking up "log" on the formatted medium. *)
Lemma open_read_of_formatted_medium_witness :
  fst (flogfs_open_read 1 file0 log_name [] [] (start fs0 formatted))
  = Some (FLOG_FAILURE, file0).
Proof.
  apply (open_read_of_formatted_medium 1 file0 log_name [] [] (start fs0 formatted)
           formatted_is_formatted eq_refl).
  - cbn. lia.
  - lia.
Defined.

(** X3 on the small geometry: the inode table holds the deleted "log"
    (file 1) and the live "log" (file 2).  The lookup passes over the first
    and positions the cursor in block 2, at sector 1, whose spare counts seven
    bytes. *)
Lemma open_read_finds_first_live_match_witness :
  chain_entries 5 with_two_logs 0 (inode_tail_link with_two_logs 0)
    (wrap16 FS_SECTORS_PER_PAGE) = Some [(0, 4); (0, 6)]
  /\ entry_named with_two_logs log_name 0 4 = true
  /\ entry_live with_two_logs 0 4 = false
  /\ fst (flogfs_open_read 5 file0 log_name [] [] (start fs0 with_two_logs))
     = Some (FLOG_FAILURE, mkReadFile 4294967295 2 1 0 7).
Proof.
  assert (Hchain : chain_entries 5 with_two_logs 0 (inode_tail_link with_two_logs 0)
                     (wrap16 FS_SECTORS_PER_PAGE) = Some [(0, 4); (0, 6)])
    by (vm_compute; reflexivity).
  split; [exact Hchain|]. split; [vm_compute; reflexivity|].
  split; [vm_compute; reflexivity|].
  rewrite (open_read_finds_first_live_match 5 file0 log_name [] []
             (start fs0 with_two_logs) [(0, 4); (0, 6)]).
  - vm_compute. reflexivity.
  - exact small_open_read_layout.
  - reflexivity.
  - unfold field_in. cbn. unfold sizeof_timestamp. lia.
  - intros Hopen. exfalso. apply Hopen. reflexivity.
  - vm_compute. lia.
  - exact Hchain.
Defined.

(** X12 on the small geometry: the tail sectors of blocks 1 and 3 both
    carry the timestamp 5; the census keeps what block 1 announces. *)
Lemma mount_census_keeps_first_newest_witness :
  block_offer with_two_announcements 1 = Some (mkLastAllocation 2 1 1 5)
  /\ block_offer with_two_announcements 3 = Some (mkLastAllocation 2 9 2 5)
  /\ last_allocation (fst (mount_census stack0 (start fs0 with_two_announcements)))
     = mkLastAllocation 2 1 1 5.
Proof.
  assert (H1 : block_offer with_two_announcements 1 = Some (mkLastAllocation 2 1 1 5))
    by (vm_compute; reflexivity).
  assert (H3 : block_offer with_two_announcements 3 = Some (mkLastAllocation 2 9 2 5))
    by (vm_compute; reflexivity).
  split; [exact H1|]. split; [exact H3|].
  assert (Hlay : tail_layout).
  { unfold tail_layout, field_in. cbn.
    unfold sizeof_block_idx, sizeof_block_age, sizeof_timestamp. lia. }
  destruct (mount_census_keeps_first_newest stack0 (start fs0 with_two_announcements) Hlay)
    as [(_ & Hnone)|(k & Hk & Hoffer & _ & Hbefore & _)].
  - specialize (Hnone 1 ltac:(cbn; lia)). cbn [flash start] in Hnone.
    unfold offer_timestamp in Hnone. rewrite H1 in Hnone. discriminate.
  - change FS_NUM_BLOCKS with 4 in Hk. cbn [flash start] in Hoffer, Hbefore.
    assert (Hc : k = 0 \/ k = 1 \/ k = 2 \/ k = 3) by lia.
    destruct Hc as [->|[->|[->| ->]]].
    + vm_compute in Hoffer. discriminate.
    + congruence.
    + vm_compute in Hoffer. discriminate.
    + assert (Hla : last_allocation
                      (fst (mount_census stack0 (start fs0 with_two_announcements)))
                    = mkLastAllocation 2 9 2 5) by congruence.
      specialize (Hbefore 1 ltac:(lia)). rewrite Hla in Hbefore.
      unfold offer_timestamp in Hbefore. rewrite H1 in Hbefore.
      cbn [la_timestamp] in Hbefore. lia.
Defined.

(** X19 on the small geometry: the page cache after the mount of the medium
    with the file "log". *)
Lemma page_cache_after_operations_witness :
  coherent (snd (flogfs_mount 5 stack0 (start fs0 with_file))).
Proof.
  apply (proj1 (page_cache_after_operations (start fs0 with_file)) 5%nat stack0
           FLOG_SUCCESS).
  - vm_compute. reflexivity.
  - vm_compute. discriminate.
Defined.

End FurtherWitnesses.
